(** * simple-cdn-server: the upload / delete / read pipeline of [server.js]

    A shallow embedding of the Express application of [server.js], followed
    by the properties of the specification that hold of it.

    Conventions of the embedding.
    - JavaScript strings are [string]s; file contents are [list byte].
    - A request is what Express hands to the middleware: method, matched
      route with its parameter (decoded, or the failure to decode it), the
      headers the program and its middleware read, and the body as its
      parsers see it.
    - The middleware chain is [app]: [cors], [express.static] on [/images],
      [express.json], the routes, the error-handling middleware, in the
      order in which [server.js] registers them.  A middleware returns
      [None] where the source calls [next()].
    - The file system is a finite map from normalised absolute paths to
      entries (a regular file with its bytes, or a directory).  A path is
      resolved component by component, with the limits of Linux on the
      length of a name and of a path; the strings of the model are the
      bytes of the names.  The process is taken to have the right to
      change the directories it resolves.
    - The library calls of [server.js] ([path.parse], [path.join],
      [express.static], [express.json], [cors], [multer], [fs.unlink]) are
      embedded with the behaviour their documentation gives them at the
      options [server.js] passes; [path] is Node's POSIX implementation,
      whose only separator is ["/"].
    - What the outside world contributes to one request (the token that
      [uuidv4()] returns, the outcome of the [sharp] conversion, the
      wording of the errors of the installed Node and multer) is a value of
      type [environment]. *)

From Stdlib Require Import ZArith Ascii String List Lia Bool.
From Stdlib.Strings Require Import Byte.
From stdpp Require Import base tactics option list gmap strings.

Local Open Scope Z_scope.

(** ** JavaScript string primitives *)

Module JsString.

Definition chars (s : string) : list ascii := list_ascii_of_string s.
Definition of_chars (l : list ascii) : string := string_of_list_ascii l.

(** [s.startsWith(p)] *)
Fixpoint startsWith (p s : string) : bool :=
  match p, s with
  | EmptyString, _ => true
  | String a p', String b s' => Ascii.eqb a b && startsWith p' s'
  | String _ _, EmptyString => false
  end.

(** [s.includes(sub)]: [sub] occurs in [s] as a contiguous substring. *)
Fixpoint includes (sub s : string) : bool :=
  startsWith sub s ||
  match s with
  | EmptyString => false
  | String _ s' => includes sub s'
  end.

(** [s.endsWith(p)] *)
Fixpoint endsWith (p s : string) : bool :=
  String.eqb p s ||
  match s with
  | EmptyString => false
  | String _ s' => endsWith p s'
  end.

(** [s.slice(a, b)] on the characters, for [0 <= a] and [0 <= b]. *)
Definition slice (l : list ascii) (a b : Z) : list ascii :=
  take (Z.to_nat (b - a)) (drop (Z.to_nat a) l).

(** [s.split(sep)] for a one-character separator class. *)
Fixpoint split (is_sep : ascii -> bool) (s : string) : list string :=
  match s with
  | EmptyString => [EmptyString]
  | String c s' =>
      if is_sep c then EmptyString :: split is_sep s'
      else match split is_sep s' with
           | seg :: segs => String c seg :: segs
           | [] => [String c EmptyString]
           end
  end.

(** [segs.join(sep)] *)
Fixpoint join (sep : string) (segs : list string) : string :=
  match segs with
  | [] => EmptyString
  | [s] => s
  | s :: rest => s +:+ sep +:+ join sep rest
  end.

(** [arr.includes(x)] on an array of strings (strict equality). *)
Definition array_includes (arr : list string) (x : string) : bool :=
  existsb (String.eqb x) arr.

End JsString.

(** ** Node's [path] module (POSIX) *)

Module Path.
Import JsString.

Definition is_slash (c : ascii) : bool := Ascii.eqb c "/".
Definition is_dot (c : ascii) : bool := Ascii.eqb c ".".

(** The variables of the scanning loop of [path.parse]. *)
Record scan_state := {
  startDot : Z;
  startPart : Z;
  end_ : Z;
  matchedSlash : bool;
  preDotState : Z
}.

Definition scan_init : scan_state :=
  {| startDot := -1; startPart := 0; end_ := -1;
     matchedSlash := true; preDotState := 0 |}.

(** What one iteration does with a character that is not a separator. *)
Definition scan_char (code : ascii) (i : Z) (st : scan_state) : scan_state :=
  let st1 :=
    if end_ st =? -1
    then {| startDot := startDot st; startPart := startPart st;
            end_ := i + 1; matchedSlash := false;
            preDotState := preDotState st |}
    else st in
  if is_dot code then
    if startDot st1 =? -1
    then {| startDot := i; startPart := startPart st1; end_ := end_ st1;
            matchedSlash := matchedSlash st1;
            preDotState := preDotState st1 |}
    else if negb (preDotState st1 =? 1)
    then {| startDot := startDot st1; startPart := startPart st1;
            end_ := end_ st1; matchedSlash := matchedSlash st1;
            preDotState := 1 |}
    else st1
  else if negb (startDot st1 =? -1)
    then {| startDot := startDot st1; startPart := startPart st1;
            end_ := end_ st1; matchedSlash := matchedSlash st1;
            preDotState := -1 |}
    else st1.

(** [for (; i >= start; --i)]: [cs] lists the characters at positions
    [i], [i-1], ..., [start], in the order in which the loop reads them. *)
Fixpoint scan (cs : list ascii) (i : Z) (st : scan_state) : scan_state :=
  match cs with
  | [] => st
  | code :: cs' =>
      if is_slash code then
        if negb (matchedSlash st)
        then {| startDot := startDot st; startPart := i + 1;
                end_ := end_ st; matchedSlash := matchedSlash st;
                preDotState := preDotState st |}          (* break *)
        else scan cs' (i - 1) st                            (* continue *)
      else scan cs' (i - 1) (scan_char code i st)
  end.

Record parsed := {
  root : string; dir : string; base : string; ext : string; name : string
}.

(** [path.parse(path)] *)
Definition parse (path : string) : parsed :=
  let p := chars path in
  match p with
  | [] => {| root := ""; dir := ""; base := ""; ext := ""; name := "" |}
  | c0 :: _ =>
      let isAbsolute := is_slash c0 in
      let start := if isAbsolute then 1 else 0 in
      let len := Z.of_nat (length p) in
      let st := scan (reverse (drop (Z.to_nat start) p)) (len - 1) scan_init in
      let root_ := if isAbsolute then "/" else "" in
      let dir_ :=
        if 0 <? startPart st
        then of_chars (slice p 0 (startPart st - 1))
        else if isAbsolute then "/" else "" in
      if end_ st =? -1
      then {| root := root_; dir := dir_; base := ""; ext := ""; name := "" |}
      else
        let start' :=
          if (startPart st =? 0) && isAbsolute then 1 else startPart st in
        if (startDot st =? -1)
           || (preDotState st =? 0)
           || ((preDotState st =? 1)
               && (startDot st =? end_ st - 1)
               && (startDot st =? startPart st + 1))
        then
          let b := of_chars (slice p start' (end_ st)) in
          {| root := root_; dir := dir_; base := b; ext := ""; name := b |}
        else
          {| root := root_; dir := dir_;
             base := of_chars (slice p start' (end_ st));
             ext := of_chars (slice p (startDot st) (end_ st));
             name := of_chars (slice p start' (startDot st)) |}
  end.

(** One segment of [normalizeString]: the stack holds the segments kept so
    far, the last one first. *)
Definition normalize_step (allowAboveRoot : bool)
    (stack : list string) (seg : string) : list string :=
  if String.eqb seg "" || String.eqb seg "." then stack
  else if String.eqb seg ".." then
    match stack with
    | top :: below =>
        if String.eqb top ".."
        then (if allowAboveRoot then seg :: stack else stack)
        else below
    | [] => if allowAboveRoot then [seg] else []
    end
  else seg :: stack.

Definition first_is_slash (s : string) : bool :=
  match s with
  | String c _ => is_slash c
  | EmptyString => false
  end.

Definition last_is_slash (s : string) : bool :=
  match reverse (chars s) with
  | c :: _ => is_slash c
  | [] => false
  end.

(** [path.normalize(path)] *)
Definition normalize (path : string) : string :=
  if String.eqb path "" then "."
  else
    let isAbsolute := first_is_slash path in
    let trailingSeparator := last_is_slash path in
    let segs :=
      reverse (fold_left (normalize_step (negb isAbsolute))
                         (split is_slash path) []) in
    let p := JsString.join "/" segs in
    if String.eqb p "" then
      if isAbsolute then "/"
      else if trailingSeparator then "./" else "."
    else
      let p' := if trailingSeparator then p +:+ "/" else p in
      if isAbsolute then "/" +:+ p' else p'.

(** [path.join(...args)] *)
Definition join (args : list string) : string :=
  match filter (fun a => a <> EmptyString) args with
  | [] => "."
  | parts => normalize (JsString.join "/" parts)
  end.

End Path.

(** ** The application state and its messages *)

(** An entry of the file system: a regular file with its bytes, or a
    directory. *)
Inductive entry :=
  | File (content : list byte)
  | Directory.

(** What a request does besides answering: console output and file system
    calls, in program order. *)
Inductive event :=
  | ConsoleWarn (line : string)
  | ConsoleError (label detail : string)
  | FsUnlink (path : string)
  | FsWrite (path : string).

Inductive payload :=
  | Json (fields : list (string * string))   (* res.json({...}) *)
  | Text (text : string)                     (* res.send('...') *)
  | Bytes (content : list byte)              (* a file streamed by express.static *)
  | Redirect (location : string)             (* express.static on a directory *)
  | Empty
  | DefaultPage.                             (* Express's answer to an unmatched request *)

Record response := { status : Z; content : payload }.

(** One file part of a multipart body, as busboy reports it to multer. *)
Record file_part := {
  part_field : string;       (* name of the form field *)
  part_filename : string;    (* declared file name *)
  part_type : string;        (* declared media type *)
  part_data : list byte
}.

(** [req.file], as multer's memory storage builds it. *)
Record uploaded_file := {
  fieldname : string;
  originalname : string;
  mimetype : string;
  buffer : list byte;
  size : Z
}.

(** The body of a request, by its Content-Type.  For a JSON body,
    [rejected] is [Some msg] when [express.json()] cannot parse it and calls
    [next(err)], [msg] being [err.message].  [Multipart files] is a
    multipart body that multer's reader reads to its end: [files] are the
    parts that the reader reports as files, in the order of the body (a
    file input left empty is such a part, of type
    [application/octet-stream] and with an empty file name); the other
    parts are text fields, all within the reader's limits, and have no
    part in what the program does.  [Unreadable msg] is a multipart body
    on which the reader itself fails before any file part does (a text
    field over the limits of busboy's defaults, a malformed part), [msg]
    being [err.message]. *)
Inductive body :=
  | NoBody
  | JsonBody (rejected : option string)
  | Multipart (files : list file_part)
  | Unreadable (message : string).

(** The route a request path selects. [Static p] is a path under the mount
    point [/images], [p] being the decoded remainder (["/cat.webp"] for
    [/images/cat.webp]); [Delete f] is [/delete/:filename] with the decoded
    parameter; [Undecodable msg] is a path that matches [/delete/:filename]
    with a parameter that [decodeURIComponent] refuses ([/delete/%]),
    [msg] being the message of the error that Express raises for it.  A
    path under [/images] that does not decode is passed on by
    [express.static] and is [Unrouted]. *)
Inductive target :=
  | Root
  | Upload
  | Delete (filename : string)
  | Static (path : string)
  | Unrouted
  | Undecodable (message : string).

(** What [express.static] makes of the [Range] header and of the
    conditional headers ([If-None-Match], [If-Modified-Since], [If-Match],
    [If-Unmodified-Since], [If-Range]) of a request, once it has found the
    file and read its size and date.  For a request that [res.send]
    answers (the health check), [NotModified] is the one case that
    applies: [res.send] honours [If-None-Match] and [If-Modified-Since],
    and no other of these headers. *)
Inductive negotiation :=
  | Whole                          (* none of them, or none that applies *)
  | NotModified                    (* the copy of the client is fresh *)
  | Partial (first last : Z)       (* one satisfiable range of bytes *)
  | Refused (message : string).    (* a failed precondition, or a range
                                      that cannot be satisfied: the error *)

Record request := {
  method : string;
  route : target;
  origin : option string;      (* req.headers.origin *)
  protocol : string;           (* req.protocol *)
  host : option string;        (* req.get('host') *)
  payload_in : body;
  negotiated : negotiation
}.

(** What the outside world contributes to one request. *)
Record environment := {
  (** the token returned by the call [uuidv4()] *)
  uuidv4 : string;
  (** [await sharp(buffer).webp({ quality: 80 }).toFile(outputPath)]:
      [inr bytes] when the image was decoded, re-encoded and [bytes] written
      to [outputPath]; [inl msg] when the promise rejects (undecodable
      input, encoder failure, output not writable), [msg] being
      [error.message]. *)
  sharp_webp_toFile : list byte -> string -> string + list byte;
  (** [err.message] of the error that Node throws when it is handed a path
      with a NUL character *)
  fs_invalid_path : string -> string;
  (** [err.message] of multer's error for a file that it does not expect
      (code [LIMIT_UNEXPECTED_FILE]) *)
  multer_unexpected_file : string
}.

Record outcome := {
  reply : response;
  disk : gmap string entry;
  trace : list event
}.

Module Server.
Import JsString.

(** *** Configuration *)

Definition allowedDomainsForCRUD : list string :=
  ["http://localhost:5500"; "http://127.0.0.1:5500"].

(** [__dirname]: the directory that holds [server.js], fixed here to one
    absolute path. *)
Definition dirname : string := "/app".

Definition imagesDir : string := Path.join [dirname; "public"; "images"].

(** *** The file system *)

(** The limits of Linux on the bytes of one name and of a whole path (the
    latter with its terminating NUL). *)
Definition NAME_MAX : Z := 255.
Definition PATH_MAX : Z := 4096.

Definition nul : string := String "000"%char "".

(** The names that an absolute path consists of. *)
Definition components (path : string) : list string :=
  List.filter (fun name => negb (String.eqb name "")) (split Path.is_slash path).

(** The paths of [names] taken one after the other below [dir]:
    [dir/a], [dir/a/b], ... *)
Fixpoint below (dir : string) (names : list string) : list string :=
  match names with
  | [] => []
  | name :: rest => (dir +:+ "/" +:+ name) :: below (dir +:+ "/" +:+ name) rest
  end.

(** The directories on the way to [path], the outermost first, and [path]
    itself at the end. *)
Definition directories (path : string) : list string :=
  below "" (components path).

(** [fs.mkdirSync(path, { recursive: true })]: every directory on the way
    to [path] that is missing is made, [path] the last.  Where an entry on
    the way is a regular file the call throws and the process ends before
    it listens; no request is handled then, and the map returned for that
    case stands for no state of a running server. *)
Definition mkdirSync_recursive (d : gmap string entry) (path : string)
    : gmap string entry :=
  fold_left (fun d' p => match d' !! p with
                         | Some _ => d'
                         | None => <[p := Directory]> d'
                         end)
            (directories path) d.

(** [if (!fs.existsSync(imagesDir)) fs.mkdirSync(imagesDir, { recursive: true })] *)
Definition startup (d : gmap string entry) : gmap string entry :=
  match d !! imagesDir with
  | Some _ => d
  | None => mkdirSync_recursive d imagesDir
  end.

(** Path resolution: the kernel looks the names up one after the other,
    [dir] being the directory reached so far.  The result is the path and
    the entry found, or the error code. *)
Fixpoint resolve (d : gmap string entry) (dir : string) (names : list string)
    : string + (string * entry) :=
  match names with
  | [] => inl "EISDIR"                       (* the root directory *)
  | name :: rest =>
      if NAME_MAX <? Z.of_nat (String.length name) then inl "ENAMETOOLONG"
      else
        let p := dir +:+ "/" +:+ name in
        match d !! p, rest with
        | None, _ => inl "ENOENT"
        | Some e, [] => inr (p, e)
        | Some Directory, _ => resolve d p rest
        | Some (File _), _ => inl "ENOTDIR"
        end
  end.

Definition respond (code : Z) (p : payload) (d : gmap string entry)
    (evs : list event) : outcome :=
  {| reply := {| status := code; content := p |}; disk := d; trace := evs |}.

(** JavaScript truthiness of [req.headers.origin]. *)
Definition truthy (o : option string) : bool :=
  match o with
  | Some s => negb (String.eqb s "")
  | None => false
  end.

(** *** Middleware: [checkDomain] *)

(** [None] stands for the call [next()]. *)
Definition checkDomain (req : request) : option (response * list event) :=
  let origin := origin req in
  if array_includes ["POST"; "DELETE"; "PUT"; "PATCH"] (method req) then
    if truthy origin
       && array_includes allowedDomainsForCRUD (default "" origin)
    then None
    else
      Some ({| status := 403;
               content := Json [("message",
                 "Forbidden: Akses dari domain ini tidak diizinkan.")] |},
            [ConsoleWarn ("Akses CRUD ditolak dari domain: " +:+
               (if truthy origin then default "" origin
                else "Tidak diketahui"))])
  else None.

(** *** multer *)

Definition fileSize : Z := 10 * 1024 * 1024.

Definition allowedMimes : list string :=
  ["image/jpeg"; "image/png"; "image/gif"; "image/webp"].

(** [fileFilter]: [inr true] is [cb(null, true)], [inl msg] is
    [cb(new Error(msg), false)]. *)
Definition fileFilter (file : file_part) : string + bool :=
  if array_includes allowedMimes (part_type file) then inr true
  else inl "Jenis file tidak valid. Hanya gambar yang diizinkan.".

(** Modelled from the spec: the size ceiling of section 4.2 is enforced
    inside multer's multipart reader, which is not part of the source. The
    reader hands the memory storage at most [limit] bytes of a file and
    reports the file as truncated when its length exceeds [limit]; the
    result is the bytes buffered and that flag. *)
Definition read_limited (limit : Z) (data : list byte) : list byte * bool :=
  if limit <? Z.of_nat (length data)
  then (take (Z.to_nat limit) data, true)
  else (data, false).

(** [multer.memoryStorage()] under [limits.fileSize]: the file object, or
    the message of [MulterError('LIMIT_FILE_SIZE')]. *)
Definition memoryStorage (limit : Z) (p : file_part) : string + uploaded_file :=
  match read_limited limit (part_data p) with
  | (_, true) => inl "File too large"
  | (data, false) =>
      inr {| fieldname := part_field p; originalname := part_filename p;
             mimetype := part_type p; buffer := data;
             size := Z.of_nat (length data) |}
  end.

(** [upload.single(field)] over the file parts in the order of the body.
    [filesLeft] is multer's count for [field] (initially [maxCount = 1]);
    a file part with an empty file name is drained and ignored; a part of
    another field, or one beyond the count, is [LIMIT_UNEXPECTED_FILE],
    whose message is the installed release's. The first error aborts the
    request. *)
Fixpoint multer_files (env : environment) (field : string) (filesLeft : nat)
    (file : option uploaded_file) (parts : list file_part)
    : string + option uploaded_file :=
  match parts with
  | [] => inr file
  | p :: rest =>
      if String.eqb (part_filename p) "" then
        multer_files env field filesLeft file rest
      else
        match (if String.eqb (part_field p) field then filesLeft else O) with
        | O => inl (multer_unexpected_file env)
        | S remaining =>
            match fileFilter p with
            | inl msg => inl msg
            | inr false => multer_files env field remaining file rest
            | inr true =>
                match memoryStorage fileSize p with
                | inl msg => inl msg
                | inr f => multer_files env field remaining (Some f) rest
                end
            end
        end
  end.

(** [upload.single('image')]: [inl msg] is [next(err)], [inr file] is
    [next()] with [req.file = file]. A body that is not multipart is
    passed on untouched; a multipart body that the reader fails on is its
    error. *)
Definition upload_single (env : environment) (field : string) (b : body)
    : string + option uploaded_file :=
  match b with
  | Multipart parts => multer_files env field 1 None parts
  | Unreadable message => inl message
  | _ => inr None
  end.

(** *** Error-handling middleware *)

Definition error_middleware (message : string) (d : gmap string entry)
    : outcome :=
  respond 400 (Json [("message", message)]) d [].

(** *** POST /upload *)

Definition uniqueFilename (originalname uuid : string) : string :=
  Path.name (Path.parse originalname) +:+ "-" +:+ uuid +:+ ".webp".

Definition upload_handler (env : environment) (req : request)
    (file : option uploaded_file) (d : gmap string entry) : outcome :=
  match file with
  | None =>
      respond 400 (Json [("message", "Tidak ada file gambar yang diunggah.")])
              d []
  | Some f =>
      let uniqueFilename := uniqueFilename (originalname f) (uuidv4 env) in
      let outputPath := Path.join [imagesDir; uniqueFilename] in
      match sharp_webp_toFile env (buffer f) outputPath with
      | inr encoded =>
          let imageUrl :=
            protocol req +:+ "://" +:+ default "undefined" (host req)
              +:+ "/images/" +:+ uniqueFilename in
          respond 201
            (Json [("message", "Gambar berhasil diunggah dan dikonversi ke WebP.");
                   ("filename", uniqueFilename);
                   ("url", imageUrl)])
            (<[outputPath := File encoded]> d)
            [FsWrite outputPath]
      | inl message =>
          respond 500
            (Json [("message", "Terjadi kesalahan pada server saat memproses gambar.");
                   ("error", message)])
            d
            [ConsoleError "Error saat memproses gambar:" message]
      end
  end.

Definition upload_route (env : environment) (req : request)
    (d : gmap string entry) : outcome :=
  match checkDomain req with
  | Some (denied, evs) => {| reply := denied; disk := d; trace := evs |}
  | None =>
      match upload_single env "image" (payload_in req) with
      | inl message => error_middleware message d
      | inr file => upload_handler env req file d
      end
  end.

(** *** DELETE /delete/:filename *)

(** [fs.unlink(path, callback)] for a path without a NUL character: the
    [err.code] handed to the callback ([None] on success) and the file
    system afterwards.  A path of [PATH_MAX] bytes or more is refused
    before it is resolved; a directory is not unlinked. *)
Definition fs_unlink (d : gmap string entry) (path : string)
    : option string * gmap string entry :=
  if PATH_MAX <=? Z.of_nat (String.length path) then (Some "ENAMETOOLONG", d)
  else
    match resolve d "" (components path) with
    | inl code => (Some code, d)
    | inr (_, Directory) => (Some "EISDIR", d)
    | inr (p, File _) => (None, delete p d)
    end.

(** The callback given to [fs.unlink]. *)
Definition unlink_callback (err : option string) : response * list event :=
  match err with
  | Some code =>
      if String.eqb code "ENOENT" then
        ({| status := 404;
            content := Json [("message", "File tidak ditemukan.")] |}, [])
      else
        ({| status := 500;
            content := Json [("message", "Gagal menghapus file.")] |},
         [ConsoleError "Error saat menghapus file:" code])
  | None =>
      ({| status := 200;
          content := Json [("message", "File berhasil dihapus.")] |}, [])
  end.

Definition delete_handler (env : environment) (filename : string)
    (d : gmap string entry) : outcome :=
  if includes ".." filename || includes "/" filename then
    respond 400 (Json [("message", "Nama file tidak valid.")]) d []
  else
    let filePath := Path.join [imagesDir; filename] in
    if includes nul filePath then
      (* [fs.unlink] throws on a path with a NUL character before it calls
         the system; Express catches what a handler throws and hands it
         to the error-handling middleware *)
      error_middleware (fs_invalid_path env filePath) d
    else
      let '(err, d') := fs_unlink d filePath in
      let '(r, evs) := unlink_callback err in
      {| reply := r; disk := d'; trace := FsUnlink filePath :: evs |}.

Definition delete_route (env : environment) (req : request)
    (filename : string) (d : gmap string entry) : outcome :=
  match checkDomain req with
  | Some (denied, evs) => {| reply := denied; disk := d; trace := evs |}
  | None => delete_handler env filename d
  end.

(** *** [express.static(imagesDir)] mounted on [/images] *)

Definition is_separator (c : ascii) : bool :=
  Ascii.eqb c "/" || Ascii.eqb c "\".

(** [UP_PATH_REGEXP.test(path)]: a [..] delimited by separators or by the
    ends of the path. *)
Definition up_path (path : string) : bool :=
  array_includes (split is_separator path) "..".

Definition starts_with_dot (s : string) : bool := startsWith "." s.

(** [containsDotFile(parts)] *)
Definition containsDotFile (parts : list string) : bool :=
  existsb (fun part => (1 <? Z.of_nat (String.length part))
                       && starts_with_dot part) parts.

(** The option [dotfiles] of [express.static] is left at its default,
    "ignore": a request whose last path segment begins with a dot is
    treated as if the file did not exist. *)
Definition dotfile_ignored (parts : list string) : bool :=
  containsDotFile parts && starts_with_dot (List.last parts "").

(** The static middleware with all options at their defaults, on the
    decoded path [path] below the mount point: [Some (inr r)] when it
    answers (a regular file, whole or in part or not at all according to
    the Range and conditional headers, or the redirect for a directory),
    [None] when it calls [next()] (another method, a [..] segment, a
    dotfile, nothing found), [Some (inl msg)] when it calls [next(err)]:
    once the file is found, the middleware forwards the errors of [send]. *)
Definition express_static (root : string) (req : request) (path : string)
    (d : gmap string entry) : option (string + response) :=
  if negb (array_includes ["GET"; "HEAD"] (method req)) then None
  else
    let path1 :=
      if String.eqb path "" then path
      else Path.normalize ("." +:+ "/" +:+ path) in
    if up_path path1 then None
    else
      let parts := split Path.is_slash path1 in
      let full := Path.normalize (Path.join [root; path1]) in
      if dotfile_ignored parts then None
      else
        let found :=
          if Path.last_is_slash path
          then d !! Path.join [full; "index.html"]
          else d !! full in
        match found with
        | Some (File bytes) =>
            let sent (part : list byte) :=
              if String.eqb (method req) "HEAD" then Empty else Bytes part in
            match negotiated req with
            | Whole => Some (inr {| status := 200; content := sent bytes |})
            | NotModified => Some (inr {| status := 304; content := Empty |})
            | Partial first last =>
                Some (inr {| status := 206;
                             content :=
                               sent (take (Z.to_nat (last - first + 1))
                                          (drop (Z.to_nat first) bytes)) |})
            | Refused message => Some (inl message)
            end
        | Some Directory =>
            if Path.last_is_slash path then None
            else Some (inr {| status := 301;
                              content := Redirect ("/images" +:+ path +:+ "/") |})
        | None => None
        end.

(** *** The application: middleware in the order of registration *)

(** [app.get('/', (req, res) => res.send('Server CDN Sederhana berjalan!'))],
    which Express also calls for HEAD.  [res.send] computes the entity tag
    of the text and answers 304, without content, to a request whose
    conditional headers show that the copy of the client is fresh. *)
Definition root_handler (req : request) (d : gmap string entry) : outcome :=
  match negotiated req with
  | NotModified => respond 304 Empty d []
  | _ =>
      respond 200 (if String.eqb (method req) "HEAD" then Empty
                   else Text "Server CDN Sederhana berjalan!") d []
  end.

Definition routes (env : environment) (req : request)
    (d : gmap string entry) : outcome :=
  match route req with
  | Upload =>
      if String.eqb (method req) "POST" then upload_route env req d
      else respond 404 DefaultPage d []
  | Delete filename =>
      if String.eqb (method req) "DELETE" then delete_route env req filename d
      else respond 404 DefaultPage d []
  | Root =>
      if array_includes ["GET"; "HEAD"] (method req) then root_handler req d
      else respond 404 DefaultPage d []
  | Undecodable message =>
      (* the router fails to decode the parameter when it matches the path
         against [/delete/:filename], whatever the method, and hands the
         error to the error-handling middleware *)
      error_middleware message d
  | _ => respond 404 DefaultPage d []
  end.


(** The status and the content of the answer, the file system afterwards
    and the log.  [cors] ends every OPTIONS request itself, with 204. *)
Definition app (env : environment) (req : request)
    (d : gmap string entry) : outcome :=
  (* app.use(cors({ origin: (origin, callback) => callback(null, true) })) *)
  if String.eqb (method req) "OPTIONS" then respond 204 Empty d []
  else
    (* app.use('/images', express.static(imagesDir)) *)
    let served :=
      match route req with
      | Static path => express_static imagesDir req path d
      | _ => None
      end in
    match served with
    | Some (inr r) => {| reply := r; disk := d; trace := [] |}
    | Some (inl message) => error_middleware message d
    | None =>
        (* app.use(express.json()) *)
        match payload_in req with
        | JsonBody (Some message) => error_middleware message d
        | _ => routes env req d
        end
    end.

(** A run of the server: the requests are handled one after the other. *)
Fixpoint run (reqs : list (environment * request)) (d : gmap string entry)
    : gmap string entry :=
  match reqs with
  | [] => d
  | (env, req) :: rest => run rest (disk (app env req d))
  end.

End Server.

(** *** Tokens *)

Module Uuid.
Import JsString.

Definition is_hex (c : ascii) : bool :=
  existsb (Ascii.eqb c) (chars "0123456789abcdef").
Definition is_hyphen (c : ascii) : bool := Ascii.eqb c "-".
Definition is_four (c : ascii) : bool := Ascii.eqb c "4".
Definition is_variant (c : ascii) : bool :=
  existsb (Ascii.eqb c) (chars "89ab").

(** The canonical rendering of a version-4 UUID, position by position:
    [xxxxxxxx-xxxx-4xxx-yxxx-xxxxxxxxxxxx]. *)
Definition shape : list (ascii -> bool) :=
  repeat is_hex 8 ++ [is_hyphen] ++ repeat is_hex 4 ++ [is_hyphen]
  ++ [is_four] ++ repeat is_hex 3 ++ [is_hyphen]
  ++ [is_variant] ++ repeat is_hex 3 ++ [is_hyphen] ++ repeat is_hex 12.

Fixpoint matches (sh : list (ascii -> bool)) (cs : list ascii) : bool :=
  match sh, cs with
  | [], [] => true
  | f :: sh', c :: cs' => f c && matches sh' cs'
  | _, _ => false
  end.

(** [u] is a 128-bit token in canonical form (36 characters). *)
Definition canonical (u : string) : bool := matches shape (chars u).

End Uuid.

(** * Vocabulary of the statements *)

Import Server.

Section Vocabulary.
Import JsString.

(** [has f s]: some character of [s] satisfies [f]. *)
Definition has (f : ascii -> bool) (s : string) : bool := existsb f (chars s).

(** A name that is one ordinary path segment. *)
Definition plain_segment (x : string) : bool :=
  negb (has Path.is_slash x) && negb (String.eqb x "")
  && negb (String.eqb x ".") && negb (String.eqb x "..").

(** The loop on a run of characters none of which is a separator. *)
Fixpoint scan_chars (cs : list ascii) (i : Z) (st : Path.scan_state)
    : Path.scan_state :=
  match cs with
  | [] => st
  | c :: cs' => scan_chars cs' (i - 1) (Path.scan_char c i st)
  end.

(** The request declares an origin that is an entry of the allow-list. *)
Definition from_allowed_origin (req : request) : Prop :=
  exists o, origin req = Some o /\ In o allowedDomainsForCRUD.

(** The JSON body parser registered in front of the routes lets the
    request through. *)
Definition body_parsed (req : request) : Prop :=
  forall m, payload_in req <> JsonBody (Some m).

Definition is_upload (req : request) : Prop :=
  method req = "POST" /\ route req = Upload.

Definition is_delete (req : request) (x : string) : Prop :=
  method req = "DELETE" /\ route req = Delete x.

Definition forbidden (req : request) (d : gmap string entry) : outcome :=
  respond 403
    (Json [("message", "Forbidden: Akses dari domain ini tidak diizinkan.")])
    d
    [ConsoleWarn ("Akses CRUD ditolak dari domain: " +:+
       (if truthy (origin req) then default "" (origin req)
        else "Tidak diketahui"))].

(** What the route does once [checkDomain] has called [next()]. *)
Definition after_gate (env : environment) (req : request)
    (d : gmap string entry) : outcome :=
  match route req with
  | Upload =>
      match upload_single env "image" (payload_in req) with
      | inl message => error_middleware message d
      | inr file => upload_handler env req file d
      end
  | Delete filename => delete_handler env filename d
  | _ => respond 404 DefaultPage d []
  end.

(** The file parts that carry a file name. *)
Definition named (parts : list file_part) : list file_part :=
  List.filter (fun p => negb (String.eqb (part_filename p) "")) parts.

(** [req.file] for a part that multer accepts. *)
Definition file_of (p : file_part) : uploaded_file :=
  {| fieldname := part_field p; originalname := part_filename p;
     mimetype := part_type p; buffer := part_data p;
     size := Z.of_nat (length (part_data p)) |}.


Definition created (req : request) (unique : string) : payload :=
  Json [("message", "Gambar berhasil diunggah dan dikonversi ke WebP.");
        ("filename", unique);
        ("url", protocol req +:+ "://" +:+ default "undefined" (host req)
                  +:+ "/images/" +:+ unique)].

(** Reading a field of a JSON answer. *)
Definition json_field (key : string) (r : response) : option string :=
  match content r with
  | Json fields => snd <$> List.find (fun kv => String.eqb (fst kv) key) fields
  | _ => None
  end.

Definition no_file : string := "Tidak ada file gambar yang diunggah.".
Definition wrong_type : string :=
  "Jenis file tidak valid. Hanya gambar yang diizinkan.".
Definition too_large : string := "File too large".
Definition processing_failed : string :=
  "Terjadi kesalahan pada server saat memproses gambar.".

Definition invalid_name : payload := Json [("message", "Nama file tidak valid.")].
Definition not_found : payload := Json [("message", "File tidak ditemukan.")].
Definition removed : payload := Json [("message", "File berhasil dihapus.")].
Definition removal_failed : payload := Json [("message", "Gagal menghapus file.")].

(** The test of the delete handler lets the name through. *)
Definition passes_name_check (filename : string) : Prop :=
  includes ".." filename = false /\ includes "/" filename = false.

Definition touches_fs (e : event) : bool :=
  match e with
  | FsUnlink _ | FsWrite _ => true
  | _ => false
  end.

(** The name policy of the static middleware at its defaults: the name is
    no dotfile and has no [..] segment. *)
Definition served_name (F : string) : bool :=
  negb (starts_with_dot F) && negb (up_path F).

(** The image directory and the directories above it are there. *)
Definition store_present (d : gmap string entry) : Prop :=
  Forall (fun p => d !! p = Some Directory) (directories imagesDir).

(** Start-up runs through: when nothing is at the path of the image
    directory, no regular file is on the way to it, so that [mkdirSync]
    does not throw. *)
Definition startup_succeeds (d : gmap string entry) : Prop :=
  d !! imagesDir = None ->
  forall p b, In p (directories imagesDir) -> d !! p <> Some (File b).

(** A name that the file system takes: no NUL character, and no more
    than [NAME_MAX] bytes. *)
Definition storable (x : string) : Prop :=
  includes nul x = false /\ Z.of_nat (String.length x) <= NAME_MAX.


(** The request [req] sent with the method [m]. *)
Definition with_method (m : string) (req : request) : request :=
  {| method := m; route := route req; origin := origin req;
     protocol := protocol req; host := host req;
     payload_in := payload_in req; negotiated := negotiated req |}.

(** The request [req] with the body replaced by [b]. *)
Definition with_payload (b : body) (req : request) : request :=
  {| method := method req; route := route req; origin := origin req;
     protocol := protocol req; host := host req; payload_in := b;
     negotiated := negotiated req |}.

(** The path a file system call is made on. *)
Definition touched (e : event) : option string :=
  match e with
  | FsUnlink p | FsWrite p => Some p
  | _ => None
  end.

(** [p] is the image directory or an entry directly inside it. *)
Definition inside_store (p : string) : Prop :=
  p = imagesDir
  \/ exists x, plain_segment x = true /\ p = imagesDir +:+ "/" +:+ x.

(** Every token that the run draws is a canonical UUID string. *)
Definition canonical_tokens (reqs : list (environment * request)) : Prop :=
  Forall (fun er => Uuid.canonical (uuidv4 er.1) = true) reqs.

(** The statuses the application answers with. *)
Definition statuses : list Z :=
  [200; 201; 204; 206; 301; 304; 400; 403; 404; 500].

End Vocabulary.

(** ** Sample requests *)

Module Sample.

Definition token : string := "123e4567-e89b-42d3-a456-426614174000".

(** An environment whose conversion succeeds with a fixed output. *)
Definition env : environment :=
  {| uuidv4 := token;
     sharp_webp_toFile := fun _ _ => inr [x52; x49; x46; x46];
     fs_invalid_path := fun _ => "The argument 'path' must be a string, Uint8Array, or URL without null bytes.";
     multer_unexpected_file := "Unexpected field" |}.

(** An environment whose conversion fails to write its output. *)
Definition env_unwritable : environment :=
  {| uuidv4 := token;
     sharp_webp_toFile :=
       fun _ outputPath => inl (outputPath +:+ ": unable to open for write");
     fs_invalid_path := fun _ => "The argument 'path' must be a string, Uint8Array, or URL without null bytes.";
     multer_unexpected_file := "Unexpected field" |}.

Definition image (filename mime : string) (data : list byte) : file_part :=
  {| part_field := "image"; part_filename := filename;
     part_type := mime; part_data := data |}.

Definition post_upload (o : option string) (b : body) : request :=
  {| method := "POST"; route := Upload; origin := o;
     protocol := "http"; host := Some "localhost:3000"; payload_in := b;
     negotiated := Whole |}.

Definition delete_file (o : option string) (filename : string) : request :=
  {| method := "DELETE"; route := Delete filename; origin := o;
     protocol := "http"; host := Some "localhost:3000"; payload_in := NoBody;
     negotiated := Whole |}.


Definition get_image (o : option string) (filename : string) : request :=
  {| method := "GET"; route := Static ("/" +:+ filename); origin := o;
     protocol := "http"; host := Some "localhost:3000"; payload_in := NoBody;
     negotiated := Whole |}.

Definition frontend : option string := Some "http://localhost:5500".
Definition stranger : option string := Some "https://evil.example".

Definition cat : body := Multipart [image "cat.jpg" "image/jpeg" [x01; x02]].

(** The store directory right after start-up. *)
Definition fresh : gmap string entry := startup ∅.

End Sample.

(** * Properties *)


(** ** Strings *)

Section StringFacts.
Import JsString.

Lemma str_app_cons (c : ascii) (s t : string) :
  String c s +:+ t = String c (s +:+ t).
Proof. reflexivity. Qed.

Lemma str_app_nil_r (s : string) : s +:+ "" = s.
Proof. induction s as [|c s IH]; [done|]. by rewrite str_app_cons, IH. Qed.

Lemma str_app_assoc (s t u : string) : (s +:+ t) +:+ u = s +:+ (t +:+ u).
Proof. induction s as [|c s IH]; [done|]. by rewrite !str_app_cons, IH. Qed.

Lemma str_app_length (s t : string) :
  String.length (s +:+ t) = (String.length s + String.length t)%nat.
Proof. induction s as [|c s IH]; [done|]. rewrite str_app_cons. simpl. by rewrite IH. Qed.

Lemma chars_app (s t : string) : chars (s +:+ t) = chars s ++ chars t.
Proof.
  induction s as [|c s IH]; [done|].
  rewrite str_app_cons. unfold chars in *. simpl. by rewrite IH.
Qed.

Lemma of_chars_app (l k : list ascii) :
  of_chars (l ++ k) = of_chars l +:+ of_chars k.
Proof.
  induction l as [|c l IH]; [done|].
  unfold of_chars in *. simpl. by rewrite IH.
Qed.

Lemma of_chars_chars (s : string) : of_chars (chars s) = s.
Proof. apply string_of_list_ascii_of_string. Qed.

Lemma chars_of_chars (l : list ascii) : chars (of_chars l) = l.
Proof. apply list_ascii_of_string_of_list_ascii. Qed.

Lemma chars_length (s : string) : length (chars s) = String.length s.
Proof. induction s as [|c s IH]; [done|]. unfold chars in *. simpl. by rewrite IH. Qed.

Lemma has_cons f c s : has f (String c s) = f c || has f s.
Proof. reflexivity. Qed.

Lemma has_app f s t : has f (s +:+ t) = has f s || has f t.
Proof. unfold has. by rewrite chars_app, existsb_app. Qed.

Lemma has_of_chars f l : has f (of_chars l) = existsb f l.
Proof. unfold has. by rewrite chars_of_chars. Qed.

Lemma has_none f (l : list ascii) :
  Forall (fun c => f c = false) l -> has f (of_chars l) = false.
Proof.
  intros H. rewrite has_of_chars. apply not_true_is_false.
  intros (x & Hin%list_elem_of_In & Hx)%existsb_exists.
  rewrite Forall_forall in H. specialize (H x Hin). congruence.
Qed.

Lemma includes_char (c : ascii) (s : string) :
  includes (String c "") s = has (fun x => Ascii.eqb x c) s.
Proof.
  induction s as [|b s IH]; [done|].
  rewrite has_cons. simpl. rewrite IH, andb_true_r.
  by rewrite (Ascii.eqb_sym c b).
Qed.

Lemma includes_slash (s : string) : includes "/" s = has Path.is_slash s.
Proof. apply includes_char. Qed.

Lemma startsWith_app (p s t : string) :
  startsWith p s = true -> startsWith p (s +:+ t) = true.
Proof.
  revert s. induction p as [|a p IH]; intros [|b s]; simpl; try done.
  intros [-> ?]%andb_true_iff. simpl. by apply IH.
Qed.

Lemma startsWith_prefix (p t : string) : startsWith p (p +:+ t) = true.
Proof.
  induction p as [|a p IH]; [done|].
  rewrite str_app_cons. simpl. by rewrite Ascii.eqb_refl, IH.
Qed.

Lemma includes_app_l (sub s t : string) :
  includes sub s = true -> includes sub (s +:+ t) = true.
Proof.
  induction s as [|b s IH].
  - simpl. rewrite orb_false_r. destruct sub; [|done].
    intros _. by destruct t.
  - rewrite str_app_cons. cbn [includes].
    intros [H|H]%orb_true_iff; apply orb_true_iff.
    + left. by apply (startsWith_app sub (String b s) t).
    + right. by apply IH.
Qed.

Lemma includes_app_r (sub s t : string) :
  includes sub t = true -> includes sub (s +:+ t) = true.
Proof.
  intros H. induction s as [|b s IH]; [done|].
  rewrite str_app_cons. cbn [includes]. rewrite IH. apply orb_true_r.
Qed.

Lemma endsWith_app (p s : string) : endsWith p (s +:+ p) = true.
Proof.
  induction s as [|b s IH].
  - destruct p; simpl; [done|]. by rewrite Ascii.eqb_refl, String.eqb_refl.
  - rewrite str_app_cons. cbn [endsWith]. rewrite IH. apply orb_true_r.
Qed.

(** [split] *)

Lemma split_nonempty f s : split f s <> [].
Proof. destruct s as [|c s]; simpl; [done|]. destruct (f c); [done|]. by destruct (split f s). Qed.

Lemma split_no_sep f (x : string) : has f x = false -> split f x = [x].
Proof.
  induction x as [|c x IH]; [done|].
  rewrite has_cons. intros [Hc Hx]%orb_false_iff.
  simpl. rewrite Hc, (IH Hx). done.
Qed.

Lemma split_app_sep f (a : string) (c : ascii) (b : string) :
  f c = true -> split f (a +:+ String c b) = split f a ++ split f b.
Proof.
  intros Hc. induction a as [|x a IH].
  - simpl. by rewrite Hc.
  - rewrite str_app_cons. simpl. rewrite IH.
    destruct (f x); [done|].
    pose proof (split_nonempty f a).
    destruct (split f a); [done|]. done.
Qed.

Lemma last_is_slash_app (a x : string) :
  x <> "" -> Path.last_is_slash (a +:+ x) = Path.last_is_slash x.
Proof.
  intros Hx. unfold Path.last_is_slash. rewrite chars_app, reverse_app.
  destruct x as [|c x]; [done|].
  change (chars (String c x)) with (c :: chars x).
  rewrite reverse_cons. by destruct (reverse (chars x)).
Qed.

Lemma last_is_slash_has (x : string) :
  has Path.is_slash x = false -> Path.last_is_slash x = false.
Proof.
  unfold has, Path.last_is_slash. intros H.
  destruct (reverse (chars x)) as [|c l] eqn:E; [done|].
  assert (c ∈ chars x) as Hin.
  { apply elem_of_reverse. rewrite E. left. }
  destruct (Path.is_slash c) eqn:Hc; [|done].
  assert (existsb Path.is_slash (chars x) = true); [|congruence].
  apply existsb_exists. exists c. split; [|done]. by apply list_elem_of_In.
Qed.

End StringFacts.

(** ** Paths below the image directory *)

Section PathFacts.
Import JsString.

Lemma plain_segment_inv x :
  plain_segment x = true ->
  has Path.is_slash x = false /\ x <> "" /\ x <> "." /\ x <> "..".
Proof.
  unfold plain_segment. rewrite !andb_true_iff, !negb_true_iff.
  rewrite !String.eqb_neq. tauto.
Qed.

Lemma imagesDir_value : imagesDir = "/app/public/images".
Proof. reflexivity. Qed.

Lemma normalize_step_plain b stack x :
  plain_segment x = true -> Path.normalize_step b stack x = x :: stack.
Proof.
  intros (_ & H1 & H2 & H3)%plain_segment_inv.
  apply String.eqb_neq in H1, H2, H3.
  unfold Path.normalize_step. by rewrite H1, H2, H3.
Qed.

Lemma segments_child (x : string) :
  plain_segment x = true ->
  fold_left (Path.normalize_step false)
    (split Path.is_slash (imagesDir +:+ "/" +:+ x)) []
  = [x; "images"; "public"; "app"].
Proof.
  intros Hx. pose proof (plain_segment_inv x Hx) as (Hs & _).
  change (imagesDir +:+ "/" +:+ x) with (imagesDir +:+ String "/" x).
  rewrite split_app_sep by done.
  rewrite (split_no_sep _ x Hs), fold_left_app.
  change (fold_left (Path.normalize_step false)
            (split Path.is_slash imagesDir) [])
    with ["images"; "public"; "app"].
  cbn [fold_left]. by rewrite normalize_step_plain.
Qed.

Lemma normalize_child (x : string) :
  plain_segment x = true ->
  Path.normalize (imagesDir +:+ "/" +:+ x) = imagesDir +:+ "/" +:+ x.
Proof.
  intros Hx. pose proof (plain_segment_inv x Hx) as (Hs & Hne & _).
  unfold Path.normalize.
  assert (String.eqb (imagesDir +:+ "/" +:+ x) "" = false) as -> by done.
  assert (Path.first_is_slash (imagesDir +:+ "/" +:+ x) = true) as -> by done.
  assert (Path.last_is_slash (imagesDir +:+ "/" +:+ x) = false) as ->.
  { rewrite <- str_app_assoc, last_is_slash_app by done.
    by apply last_is_slash_has. }
  change (negb true) with false.
  rewrite (segments_child x Hx).
  reflexivity.
Qed.

Lemma join_child (x : string) :
  plain_segment x = true ->
  Path.join [imagesDir; x] = imagesDir +:+ "/" +:+ x.
Proof.
  intros Hx. pose proof (plain_segment_inv x Hx) as (Hs & Hne & _).
  unfold Path.join.
  rewrite filter_cons_True by done.
  rewrite filter_cons_True by done.
  rewrite filter_nil.
  by apply normalize_child.
Qed.

Lemma segments_relative (x : string) :
  plain_segment x = true ->
  fold_left (Path.normalize_step true)
    (split Path.is_slash ("." +:+ "/" +:+ "/" +:+ x)) [] = [x].
Proof.
  intros Hx. pose proof (plain_segment_inv x Hx) as (Hs & _).
  change ("." +:+ "/" +:+ "/" +:+ x)
    with ("." +:+ String "/" ("" +:+ String "/" x)).
  rewrite !split_app_sep by done.
  rewrite (split_no_sep _ x Hs).
  change (fold_left _ _ _) with (Path.normalize_step true [] x).
  by rewrite normalize_step_plain.
Qed.

Lemma normalize_relative (x : string) :
  plain_segment x = true ->
  Path.normalize ("." +:+ "/" +:+ "/" +:+ x) = x.
Proof.
  intros Hx. pose proof (plain_segment_inv x Hx) as (Hs & Hne & _).
  unfold Path.normalize.
  assert (String.eqb ("." +:+ "/" +:+ "/" +:+ x) "" = false) as -> by done.
  assert (Path.first_is_slash ("." +:+ "/" +:+ "/" +:+ x) = false) as -> by done.
  assert (Path.last_is_slash ("." +:+ "/" +:+ "/" +:+ x) = false) as ->.
  { change ("." +:+ "/" +:+ "/" +:+ x) with (".//" +:+ x).
    rewrite last_is_slash_app by done. by apply last_is_slash_has. }
  change (negb false) with true.
  rewrite (segments_relative x Hx).
  change (JsString.join "/" (reverse [x])) with x.
  apply String.eqb_neq in Hne. by rewrite Hne.
Qed.

End PathFacts.


(** ** The scanning loop of [path.parse] *)

Section ParseFacts.
Import JsString Path.

Lemma scan_char_startDot c i st :
  startDot (scan_char c i st)
  = if is_dot c && (startDot st =? -1) then i else startDot st.
Proof.
  unfold scan_char.
  destruct (end_ st =? -1), (is_dot c); simpl;
    destruct (startDot st =? -1); simpl; try done;
    destruct (preDotState st =? 1); done.
Qed.

Lemma scan_char_end c i st :
  end_ (scan_char c i st) = if end_ st =? -1 then i + 1 else end_ st.
Proof.
  unfold scan_char.
  destruct (end_ st =? -1), (is_dot c); simpl;
    destruct (startDot st =? -1); simpl; try done;
    destruct (preDotState st =? 1); done.
Qed.

Lemma scan_char_matchedSlash c i st :
  matchedSlash (scan_char c i st)
  = if end_ st =? -1 then false else matchedSlash st.
Proof.
  unfold scan_char.
  destruct (end_ st =? -1), (is_dot c); simpl;
    destruct (startDot st =? -1); simpl; try done;
    destruct (preDotState st =? 1); done.
Qed.

Lemma scan_char_startPart c i st :
  startPart (scan_char c i st) = startPart st.
Proof.
  unfold scan_char.
  destruct (end_ st =? -1), (is_dot c); simpl;
    destruct (startDot st =? -1); simpl; try done;
    destruct (preDotState st =? 1); done.
Qed.

Lemma scan_chars_startPart cs i st :
  startPart (scan_chars cs i st) = startPart st.
Proof.
  revert i st. induction cs as [|c cs IH]; intros i st; [done|].
  simpl. by rewrite IH, scan_char_startPart.
Qed.

Lemma scan_chars_end_keep cs i st :
  end_ st <> -1 ->
  end_ (scan_chars cs i st) = end_ st
  /\ matchedSlash (scan_chars cs i st) = matchedSlash st.
Proof.
  revert i st. induction cs as [|c cs IH]; intros i st Hend; [done|].
  simpl. apply Z.eqb_neq in Hend as Hb.
  destruct (IH (i - 1) (scan_char c i st)) as [-> ->].
  - rewrite scan_char_end, Hb. done.
  - by rewrite scan_char_end, scan_char_matchedSlash, Hb.
Qed.

Lemma scan_chars_end_set c cs i st :
  end_ st = -1 -> 0 <= i ->
  end_ (scan_chars (c :: cs) i st) = i + 1
  /\ matchedSlash (scan_chars (c :: cs) i st) = false.
Proof.
  intros Hend Hi. simpl.
  destruct (scan_chars_end_keep cs (i - 1) (scan_char c i st)) as [-> ->].
  - rewrite scan_char_end, Hend. simpl. lia.
  - by rewrite scan_char_end, scan_char_matchedSlash, Hend.
Qed.

Lemma scan_chars_startDot_keep cs i st :
  startDot st <> -1 -> startDot (scan_chars cs i st) = startDot st.
Proof.
  revert i st. induction cs as [|c cs IH]; intros i st Hd; [done|].
  simpl. apply Z.eqb_neq in Hd as Hb.
  rewrite IH; rewrite scan_char_startDot, Hb, andb_false_r; done.
Qed.

Lemma scan_chars_startDot_none cs i st :
  Forall (fun c => is_dot c = false) cs ->
  startDot (scan_chars cs i st) = startDot st.
Proof.
  intros H. revert i st. induction H as [|c cs Hc _ IH]; intros i st; [done|].
  simpl. by rewrite IH, scan_char_startDot, Hc.
Qed.

Lemma scan_chars_app a b i st :
  scan_chars (a ++ b) i st
  = scan_chars b (i - Z.of_nat (length a)) (scan_chars a i st).
Proof.
  revert i st. induction a as [|c a IH]; intros i st.
  - simpl. f_equal. lia.
  - simpl. rewrite IH. f_equal. lia.
Qed.

Lemma scan_chars_startDot_first a b i st :
  Forall (fun c => is_dot c = false) a ->
  startDot st = -1 -> i - Z.of_nat (length a) <> -1 ->
  startDot (scan_chars (a ++ "."%char :: b) i st) = i - Z.of_nat (length a).
Proof.
  intros Ha Hd Hi. rewrite scan_chars_app. simpl.
  rewrite scan_chars_startDot_keep;
    rewrite scan_char_startDot, scan_chars_startDot_none, Hd by done;
    done.
Qed.

Lemma scan_slashes sl r i st :
  Forall (fun c => is_slash c = true) sl ->
  matchedSlash st = true ->
  scan (sl ++ r) i st = scan r (i - Z.of_nat (length sl)) st.
Proof.
  intros H Hm. revert i. induction H as [|c sl Hc _ IH]; intros i.
  - simpl. f_equal. lia.
  - simpl. rewrite Hc, Hm. simpl. rewrite IH. f_equal. lia.
Qed.

Lemma scan_component rc r i st :
  Forall (fun c => is_slash c = false) rc ->
  scan (rc ++ r) i st
  = scan r (i - Z.of_nat (length rc)) (scan_chars rc i st).
Proof.
  intros H. revert i st. induction H as [|c rc Hc _ IH]; intros i st.
  - simpl. f_equal. lia.
  - simpl. rewrite Hc, IH. f_equal. lia.
Qed.

Lemma span (P : ascii -> bool) (l : list ascii) :
  exists a b, l = a ++ b /\ Forall (fun c => P c = true) a
              /\ (b = [] \/ exists c b', b = c :: b' /\ P c = false).
Proof.
  induction l as [|c l (a & b & -> & Ha & Hb)].
  - exists [], []. auto.
  - destruct (P c) eqn:Hc.
    + exists (c :: a), b. repeat split; [by constructor|done].
    + exists [], (c :: a ++ b). repeat split; [done|]. right. eauto.
Qed.

Lemma dot_split (rc : list ascii) :
  Forall (fun c => is_dot c = false) rc
  \/ exists a b, rc = a ++ "."%char :: b
                 /\ Forall (fun c => is_dot c = false) a.
Proof.
  destruct (span (fun c => negb (is_dot c)) rc) as (a & b & -> & Ha & Hb).
  assert (Forall (fun c => is_dot c = false) a) as Ha'.
  { eapply Forall_impl; [done|]. intros c. by rewrite negb_true_iff. }
  destruct Hb as [->|(c & b' & -> & Hc)].
  - left. by rewrite app_nil_r.
  - right. exists a, b'. split; [|done].
    apply negb_false_iff, Ascii.eqb_eq in Hc. by subst.
Qed.

Lemma slice_middle (a b c : list ascii) :
  slice (a ++ b ++ c) (Z.of_nat (length a))
        (Z.of_nat (length a) + Z.of_nat (length b)) = b.
Proof.
  unfold slice. rewrite Nat2Z.id, drop_app_length.
  replace (Z.to_nat _) with (length b) by lia.
  apply take_app_length.
Qed.

Lemma has_false_Forall f (s : string) :
  has f s = false -> Forall (fun c => f c = false) (chars s).
Proof.
  unfold has. induction (chars s) as [|c l IH]; [by constructor|].
  simpl. intros [Hc Hl]%orb_false_iff. constructor; [done|by apply IH].
Qed.

Lemma scan_char_preDotState c i st :
  startDot st <> -1 ->
  preDotState (scan_char c i st) = if is_dot c then 1 else -1.
Proof.
  intros H%Z.eqb_neq. unfold scan_char.
  destruct (end_ st =? -1); cbn [startDot]; rewrite H;
    destruct (is_dot c); cbn; try done;
    destruct (preDotState st =? 1) eqn:E; cbn; try done;
    by apply Z.eqb_eq in E.
Qed.

Lemma scan_chars_end cs i st :
  cs <> [] -> end_ st = -1 -> 0 <= i -> end_ (scan_chars cs i st) = i + 1.
Proof.
  destruct cs as [|c cs]; [done|]. intros _ H1 H2.
  by destruct (scan_chars_end_set c cs i st H1 H2).
Qed.

Lemma scan_plain cs i st :
  Forall (fun c => is_slash c = false) cs -> scan cs i st = scan_chars cs i st.
Proof.
  intros H. rewrite <- (app_nil_r cs) at 1. by rewrite scan_component.
Qed.

(** The loop variables after a name [b.e] without separators, [e] without
    a dot. *)
Lemma scan_file_name (c0 : ascii) (cb ce : list ascii) :
  Forall (fun c => is_slash c = false) (c0 :: cb) ->
  Forall (fun c => is_slash c = false) ce ->
  Forall (fun c => is_dot c = false) ce ->
  let p := (c0 :: cb) ++ "."%char :: ce in
  let st := scan (reverse p) (Z.of_nat (length p) - 1) scan_init in
  startPart st = 0
  /\ end_ st = Z.of_nat (length p)
  /\ startDot st = Z.of_nat (length (c0 :: cb))
  /\ preDotState st = if is_dot c0 then 1 else -1.
Proof.
  intros Hb Hes Hed p st.
  assert (reverse p = (reverse ce ++ "."%char :: reverse cb) ++ [c0]) as Hrev.
  { subst p. rewrite reverse_app, !reverse_cons, <- !app_assoc. done. }
  assert (Forall (fun c => is_slash c = false) (reverse p)) as Hp.
  { apply Forall_reverse. subst p. apply Forall_app. split; [done|].
    by constructor. }
  assert (length p = S (length cb + S (length ce))) as Hlen.
  { subst p. rewrite length_app. simpl. lia. }
  subst st. rewrite (scan_plain _ _ _ Hp).
  split; [by rewrite scan_chars_startPart|].
  split.
  { rewrite scan_chars_end; [lia| |done|lia].
    rewrite Hrev. by destruct (reverse ce ++ "."%char :: reverse cb). }
  assert (startDot (scan_chars (reverse ce ++ "."%char :: reverse cb)
                      (Z.of_nat (length p) - 1) scan_init)
          = Z.of_nat (length (c0 :: cb))) as Hdot.
  { rewrite scan_chars_startDot_first.
    - rewrite length_reverse, Hlen. simpl. lia.
    - by apply Forall_reverse.
    - done.
    - rewrite length_reverse, Hlen. lia. }
  rewrite Hrev, scan_chars_app. cbn [scan_chars].
  split.
  - rewrite scan_char_startDot, Hdot.
    assert ((Z.of_nat (length (c0 :: cb)) =? -1) = false) as ->
      by (apply Z.eqb_neq; lia).
    by rewrite andb_false_r.
  - apply scan_char_preDotState. rewrite Hdot. lia.
Qed.

Lemma scan_no_dot (c0 : ascii) (cb : list ascii) :
  Forall (fun c => is_slash c = false) (c0 :: cb) ->
  Forall (fun c => is_dot c = false) (c0 :: cb) ->
  let p := c0 :: cb in
  let st := scan (reverse p) (Z.of_nat (length p) - 1) scan_init in
  startPart st = 0 /\ end_ st = Z.of_nat (length p) /\ startDot st = -1.
Proof.
  intros Hs Hd p st. subst st.
  rewrite scan_plain by (by apply Forall_reverse).
  split; [by rewrite scan_chars_startPart|]. split.
  - rewrite scan_chars_end; [lia| |done|subst p; simpl; lia].
    subst p. rewrite reverse_cons. by destruct (reverse cb).
  - rewrite scan_chars_startDot_none; [done|by apply Forall_reverse].
Qed.

(** The values of the loop variables when the loop ends, in terms of the
    shape of the path: a prefix that is empty or ends with a separator,
    the last component, and the trailing separators. *)
Lemma scan_outcome (abs : bool) (body : list ascii) :
  let hd := if abs then ["/"%char] else [] in
  let p := hd ++ body in
  let st := scan (reverse body) (Z.of_nat (length p) - 1) scan_init in
  let start' := if (startPart st =? 0) && abs then 1 else startPart st in
  exists pfx comp trail,
    p = pfx ++ comp ++ trail
    /\ Forall (fun c => is_slash c = false) comp
    /\ Forall (fun c => is_slash c = true) trail
    /\ (pfx = [] \/ exists q, pfx = q ++ ["/"%char])
    /\ ((comp = [] /\ end_ st = -1)
        \/ (comp <> []
            /\ end_ st = Z.of_nat (length pfx) + Z.of_nat (length comp)
            /\ start' = Z.of_nat (length pfx)
            /\ (startDot st = -1
                \/ exists cn ce,
                     comp = cn ++ "."%char :: ce
                     /\ Forall (fun c => is_dot c = false) ce
                     /\ startDot st
                        = Z.of_nat (length pfx) + Z.of_nat (length cn)))).
Proof.
  intros hd p st start'.
  destruct (span is_slash (reverse body)) as (sl & r1 & Hr & Hsl & Hr1).
  assert (body = reverse r1 ++ reverse sl) as Hbody.
  { by rewrite <- reverse_app, <- Hr, reverse_involutive. }
  assert (hd = [] \/ exists q, hd = q ++ ["/"%char]) as Hhd.
  { subst hd. destruct abs; [right; by exists []|by left]. }
  destruct Hr1 as [->|(c & r1' & -> & Hc)].
  { (* only separators *)
    exists hd, [], (reverse sl). repeat split; try done.
    - subst p. by rewrite Hbody.
    - by apply Forall_reverse.
    - left. split; [done|]. subst st. rewrite Hr, scan_slashes; done. }
  destruct (span (fun x => negb (is_slash x)) r1')
    as (rc' & rest & -> & Hrc' & Hrest).
  assert (Forall (fun x => is_slash x = false) (c :: rc')) as Hrc.
  { constructor; [done|]. eapply Forall_impl; [done|].
    intros x. by rewrite negb_true_iff. }
  set (rc := c :: rc') in *.
  assert (body = reverse rest ++ reverse rc ++ reverse sl) as Hbody'.
  { rewrite Hbody. change (c :: rc' ++ rest) with (rc ++ rest).
    by rewrite reverse_app, <- app_assoc. }
  set (pfx := hd ++ reverse rest).
  assert (p = pfx ++ reverse rc ++ reverse sl) as Hp.
  { subst p pfx. by rewrite Hbody', <- app_assoc. }
  assert (length (reverse rc) <> 0%nat) as Hlen.
  { rewrite length_reverse. done. }
  set (i1 := Z.of_nat (length pfx) + Z.of_nat (length rc) - 1).
  assert (Z.of_nat (length p) - 1 - Z.of_nat (length sl) = i1) as Hi1.
  { subst i1. rewrite Hp, !length_app, !length_reverse. lia. }
  assert (0 <= i1) as Hi1pos.
  { subst i1. rewrite length_reverse in Hlen. lia. }
  set (stc := scan_chars rc i1 scan_init).
  assert (st = scan rest (i1 - Z.of_nat (length rc)) stc) as Hst.
  { subst st. rewrite Hr. change (c :: rc' ++ rest) with (rc ++ rest).
    rewrite scan_slashes, Hi1 by done. by rewrite scan_component. }
  destruct (scan_chars_end_set c rc' i1 scan_init) as [Hend Hms]; [done..|].
  fold rc in Hend, Hms. fold stc in Hend, Hms.
  assert (startPart stc = 0) as Hsp.
  { subst stc. by rewrite scan_chars_startPart. }
  assert (startDot st = startDot stc /\ end_ st = end_ stc
          /\ start' = Z.of_nat (length pfx)
          /\ (pfx = [] \/ exists q, pfx = q ++ ["/"%char])) as (Hsd & Hse & Hs' & Hpfx).
  { destruct Hrest as [->|(d & rest' & -> & Hd)].
    - simpl in Hst. subst start'. rewrite Hst, Hsp. simpl.
      subst pfx. rewrite reverse_nil, app_nil_r.
      repeat split; try done. subst hd. by destruct abs.
    - apply negb_false_iff in Hd. simpl in Hst. rewrite Hd, Hms in Hst.
      simpl in Hst. subst start'. rewrite Hst. cbn [startPart startDot end_].
      change (S (length rc')) with (length rc).
      assert (i1 - Z.of_nat (length rc) + 1 = Z.of_nat (length pfx)) as ->
        by (subst i1; lia).
      assert ((Z.of_nat (length pfx) =? 0) = false) as ->.
      { apply Z.eqb_neq. subst pfx.
        rewrite length_app, length_reverse. simpl. lia. }
      repeat split; try done.
      right. exists (hd ++ reverse rest'). subst pfx.
      rewrite reverse_cons, <- app_assoc.
      apply Ascii.eqb_eq in Hd. by subst d. }
  exists pfx, (reverse rc), (reverse sl).
  repeat split; try done.
  - by apply Forall_reverse.
  - by apply Forall_reverse.
  - right. repeat split.
    + intros E. by rewrite E in Hlen.
    + rewrite Hse, Hend, length_reverse. subst i1. lia.
    + done.
    + rewrite Hsd. destruct (dot_split rc) as [Hnd|(a & b & Hab & Ha)].
      * left. subst stc. by rewrite scan_chars_startDot_none.
      * right. exists (reverse b), (reverse a). repeat split.
        -- rewrite Hab, reverse_app, reverse_cons, <- app_assoc. done.
        -- by apply Forall_reverse.
        -- subst stc. rewrite Hab.
           assert (i1 - Z.of_nat (length a)
                   = Z.of_nat (length pfx) + Z.of_nat (length (reverse b))) as Hidx.
           { subst i1. rewrite Hab, length_app, length_reverse. simpl. lia. }
           rewrite scan_chars_startDot_first; [done..|lia].
Qed.

(** [path.parse] cuts the path into a directory prefix, the name, the
    extension and the trailing separators. *)
Theorem parse_shape (o : string) :
  exists pre trail : string,
    o = pre +:+ name (parse o) +:+ ext (parse o) +:+ trail
    /\ base (parse o) = name (parse o) +:+ ext (parse o)
    /\ (pre = "" \/ exists q, pre = q +:+ "/")
    /\ has is_slash (name (parse o)) = false
    /\ (ext (parse o) = ""
        \/ exists e, ext (parse o) = "." +:+ e
                     /\ has is_dot e = false /\ has is_slash e = false)
    /\ Forall (fun c => is_slash c = true) (chars trail).
Proof.
  unfold parse. destruct (chars o) as [|c0 p'] eqn:E.
  { exists "", "". simpl. rewrite <- (of_chars_chars o), E.
    repeat split; auto. }
  set (abs := is_slash c0).
  set (body := drop (Z.to_nat (if abs then 1 else 0)) (c0 :: p')).
  assert (c0 :: p' = (if abs then ["/"%char] else []) ++ body) as Hp.
  { subst body abs. destruct (is_slash c0) eqn:H0; [|done].
    apply Ascii.eqb_eq in H0. by subst c0. }
  destruct (scan_outcome abs body)
    as (pfx & comp & trail & Hsplit & Hcomp & Htrail & Hpfx & Hcases).
  rewrite <- Hp in Hsplit, Hcases.
  set (st := scan (reverse body) (Z.of_nat (length (c0 :: p')) - 1) scan_init)
    in *.
  assert (o = of_chars pfx +:+ of_chars comp +:+ of_chars trail) as Ho.
  { rewrite <- (of_chars_chars o), E, Hsplit. by rewrite !of_chars_app. }
  assert (of_chars pfx = "" \/ exists q, of_chars pfx = q +:+ "/") as Hpre.
  { destruct Hpfx as [->|(q & ->)]; [by left|].
    right. exists (of_chars q). by rewrite of_chars_app. }
  assert (has is_slash (of_chars comp) = false) as Hcs by (by apply has_none).
  assert (Forall (fun c => is_slash c = true) (chars (of_chars trail))) as Htr.
  { by rewrite chars_of_chars. }
  destruct Hcases as [[-> Hend]|(Hne & Hend & Hstart & Hdot)].
  { (* no component at all *)
    rewrite Hend. simpl.
    exists (of_chars pfx), (of_chars trail).
    repeat split; auto. }
  assert ((end_ st =? -1) = false) as -> by (apply Z.eqb_neq; lia).
  rewrite Hstart, Hend.
  assert (slice (c0 :: p') (Z.of_nat (length pfx))
            (Z.of_nat (length pfx) + Z.of_nat (length comp)) = comp) as Hbase.
  { rewrite Hsplit. apply slice_middle. }
  destruct ((startDot st =? -1) || (preDotState st =? 0)
            || (preDotState st =? 1)
               && (startDot st =? Z.of_nat (length pfx)
                                  + Z.of_nat (length comp) - 1)
               && (startDot st =? startPart st + 1)) eqn:Hbranch.
  { (* no extension *)
    cbn [name ext base]. rewrite Hbase.
    exists (of_chars pfx), (of_chars trail).
    rewrite str_app_nil_r. repeat split; auto. }
  (* an extension *)
  destruct Hdot as [Hd|(cn & ce & Hce & Hnd & Hd)].
  { rewrite Hd in Hbranch. done. }
  cbn [name ext base]. rewrite Hbase, Hd.
  assert (slice (c0 :: p') (Z.of_nat (length pfx))
            (Z.of_nat (length pfx) + Z.of_nat (length cn)) = cn) as ->.
  { rewrite Hsplit, Hce, <- !app_assoc. apply slice_middle. }
  assert (slice (c0 :: p') (Z.of_nat (length pfx) + Z.of_nat (length cn))
            (Z.of_nat (length pfx) + Z.of_nat (length comp))
          = "."%char :: ce) as ->.
  { rewrite Hsplit, Hce, !app_assoc, <- (app_assoc _ _ trail).
    replace (Z.of_nat (length pfx) + Z.of_nat (length cn))
      with (Z.of_nat (length (pfx ++ cn))) by (rewrite length_app; lia).
    replace (Z.of_nat (length pfx) + Z.of_nat (length (cn ++ "."%char :: ce)))
      with (Z.of_nat (length (pfx ++ cn))
            + Z.of_nat (length ("."%char :: ce)))
      by (rewrite !length_app; simpl; lia).
    apply slice_middle. }
  rewrite Hce, Forall_app, Forall_cons in Hcomp.
  destruct Hcomp as (Hcn & _ & Hces).
  exists (of_chars pfx), (of_chars trail).
  repeat split; auto.
  - rewrite Ho, Hce, !of_chars_app. by rewrite !str_app_assoc.
  - by rewrite Hce, of_chars_app.
  - by apply has_none.
  - right. exists (of_chars ce). repeat split; by apply has_none.
Qed.

Lemma scan_chars_preDot_keep cs i st :
  Forall (fun c => is_dot c = false) cs -> startDot st = -1 ->
  preDotState (scan_chars cs i st) = preDotState st
  /\ startDot (scan_chars cs i st) = -1.
Proof.
  intros H. revert i st. induction H as [|c cs Hc _ IH]; intros i st Hd; [done|].
  cbn [scan_chars].
  assert (startDot (scan_char c i st) = -1) as Hd'.
  { by rewrite scan_char_startDot, Hc. }
  destruct (IH (i - 1) (scan_char c i st) Hd') as [-> ->].
  split; [|done]. unfold scan_char. rewrite Hc.
  destruct (end_ st =? -1); cbn; by rewrite Hd.
Qed.

Lemma scan_char_first_dot i st :
  startDot st = -1 -> preDotState (scan_char "."%char i st) = preDotState st.
Proof.
  intros Hd. unfold scan_char. change (is_dot ".") with true.
  destruct (end_ st =? -1); cbn; by rewrite Hd.
Qed.

(** The state of the dots after a component with a dot, [a] being what
    follows its last dot and [b] what precedes it, both reversed. *)
Lemma scan_chars_dotted a b i st :
  Forall (fun c => is_dot c = false) a ->
  startDot st = -1 -> preDotState st = 0 ->
  i - Z.of_nat (length a) <> -1 ->
  preDotState (scan_chars (a ++ "."%char :: b) i st)
  = match reverse b with
    | [] => 0
    | c :: _ => if is_dot c then 1 else -1
    end.
Proof.
  intros Ha Hd Hp Hi. rewrite scan_chars_app. cbn [scan_chars].
  destruct (scan_chars_preDot_keep a i st Ha Hd) as [Hp1 Hd1].
  set (st1 := scan_chars a i st) in *.
  set (st2 := scan_char "."%char (i - Z.of_nat (length a)) st1).
  assert (startDot st2 = i - Z.of_nat (length a)) as Hd2.
  { subst st2. rewrite scan_char_startDot, Hd1. done. }
  assert (preDotState st2 = 0) as Hp2.
  { subst st2. by rewrite scan_char_first_dot, Hp1. }
  destruct (reverse b) as [|c l] eqn:Hb.
  - apply (f_equal reverse) in Hb. rewrite reverse_involutive in Hb.
    subst b. done.
  - apply (f_equal reverse) in Hb. rewrite reverse_involutive in Hb.
    rewrite reverse_cons in Hb. subst b.
    rewrite scan_chars_app. cbn [scan_chars].
    apply scan_char_preDotState.
    rewrite scan_chars_startDot_keep; rewrite Hd2; done.
Qed.

(** The loop variables when the loop ends, in full: besides the shape of
    [scan_outcome], where the last component starts and what the loop saw
    to the left of its last dot. *)
Lemma scan_exact (abs : bool) (body : list ascii) :
  (abs = false -> forall c rest, body = c :: rest -> is_slash c = false) ->
  let hd := if abs then ["/"%char] else [] in
  let p := hd ++ body in
  let st := scan (reverse body) (Z.of_nat (length p) - 1) scan_init in
  exists pfx comp trail,
    p = pfx ++ comp ++ trail
    /\ Forall (fun c => is_slash c = false) comp
    /\ Forall (fun c => is_slash c = true) trail
    /\ (pfx = [] \/ exists q, pfx = q ++ ["/"%char])
    /\ ((comp = [] /\ end_ st = -1
         /\ Forall (fun c => is_slash c = true) pfx)
        \/ (comp <> []
            /\ end_ st = Z.of_nat (length pfx) + Z.of_nat (length comp)
            /\ ((startPart st = 0 /\ pfx = hd)
                \/ (startPart st = Z.of_nat (length pfx)
                    /\ pfx <> [] /\ pfx <> ["/"%char]))
            /\ ((startDot st = -1
                 /\ Forall (fun c => is_dot c = false) comp)
                \/ exists cn ce,
                     comp = cn ++ "."%char :: ce
                     /\ Forall (fun c => is_dot c = false) ce
                     /\ startDot st
                        = Z.of_nat (length pfx) + Z.of_nat (length cn)
                     /\ preDotState st
                        = match cn with
                          | [] => 0
                          | c :: _ => if is_dot c then 1 else -1
                          end))).
Proof.
  intros Habs hd p st.
  destruct (span is_slash (reverse body)) as (sl & r1 & Hr & Hsl & Hr1).
  assert (body = reverse r1 ++ reverse sl) as Hbody.
  { by rewrite <- reverse_app, <- Hr, reverse_involutive. }
  assert (hd = [] \/ exists q, hd = q ++ ["/"%char]) as Hhd.
  { subst hd. destruct abs; [right; by exists []|by left]. }
  destruct Hr1 as [->|(c & r1' & -> & Hc)].
  { (* only separators *)
    exists hd, [], (reverse sl). repeat split; try done.
    - subst p. by rewrite Hbody.
    - by apply Forall_reverse.
    - left. split; [done|]. split.
      + subst st. rewrite Hr, scan_slashes; done.
      + subst hd. destruct abs; by repeat constructor. }
  destruct (span (fun x => negb (is_slash x)) r1')
    as (rc' & rest & -> & Hrc' & Hrest).
  assert (Forall (fun x => is_slash x = false) (c :: rc')) as Hrc.
  { constructor; [done|]. eapply Forall_impl; [done|].
    intros x. by rewrite negb_true_iff. }
  set (rc := c :: rc') in *.
  assert (body = reverse rest ++ reverse rc ++ reverse sl) as Hbody'.
  { rewrite Hbody. change (c :: rc' ++ rest) with (rc ++ rest).
    by rewrite reverse_app, <- app_assoc. }
  set (pfx := hd ++ reverse rest).
  assert (p = pfx ++ reverse rc ++ reverse sl) as Hp.
  { subst p pfx. by rewrite Hbody', <- app_assoc. }
  assert (length (reverse rc) <> 0%nat) as Hlen.
  { rewrite length_reverse. done. }
  set (i1 := Z.of_nat (length pfx) + Z.of_nat (length rc) - 1).
  assert (Z.of_nat (length p) - 1 - Z.of_nat (length sl) = i1) as Hi1.
  { subst i1. rewrite Hp, !length_app, !length_reverse. lia. }
  assert (0 <= i1) as Hi1pos.
  { subst i1. rewrite length_reverse in Hlen. lia. }
  set (stc := scan_chars rc i1 scan_init).
  assert (st = scan rest (i1 - Z.of_nat (length rc)) stc) as Hst.
  { subst st. rewrite Hr. change (c :: rc' ++ rest) with (rc ++ rest).
    rewrite scan_slashes, Hi1 by done. by rewrite scan_component. }
  destruct (scan_chars_end_set c rc' i1 scan_init) as [Hend Hms]; [done..|].
  fold rc in Hend, Hms. fold stc in Hend, Hms.
  assert (startPart stc = 0) as Hsp.
  { subst stc. by rewrite scan_chars_startPart. }
  assert (startDot st = startDot stc /\ end_ st = end_ stc
          /\ preDotState st = preDotState stc
          /\ ((startPart st = 0 /\ pfx = hd)
              \/ (startPart st = Z.of_nat (length pfx)
                  /\ pfx <> [] /\ pfx <> ["/"%char]))
          /\ (pfx = [] \/ exists q, pfx = q ++ ["/"%char]))
    as (Hsd & Hse & Hpd & Hs' & Hpfx).
  { destruct Hrest as [->|(d & rest' & -> & Hd)].
    - simpl in Hst. rewrite Hst.
      subst pfx. rewrite reverse_nil, app_nil_r.
      repeat split; try done. by left.
    - apply negb_false_iff in Hd. simpl in Hst. rewrite Hd, Hms in Hst.
      simpl in Hst. rewrite Hst. cbn [startPart startDot end_ preDotState].
      change (S (length rc')) with (length rc).
      assert (i1 - Z.of_nat (length rc) + 1 = Z.of_nat (length pfx)) as ->
        by (subst i1; lia).
      apply Ascii.eqb_eq in Hd. subst d.
      assert (pfx = (hd ++ reverse rest') ++ ["/"%char]) as Hq.
      { subst pfx. by rewrite reverse_cons, <- app_assoc. }
      repeat split; try done; [|right; by eexists].
      right. split; [done|]. split.
      + rewrite Hq. by destruct (hd ++ reverse rest').
      + intros E. rewrite Hq in E.
        destruct (hd ++ reverse rest') as [|x l] eqn:Hl;
          [|by destruct l].
        apply app_eq_nil in Hl as [Hhd0 Hrest0].
        assert (abs = false) as Ha by (subst hd; by destruct abs).
        apply (f_equal reverse) in Hrest0.
        rewrite reverse_involutive in Hrest0. cbn in Hrest0. subst rest'.
        rewrite Hbody' in Habs. cbn in Habs.
        by specialize (Habs Ha "/"%char _ eq_refl). }
  exists pfx, (reverse rc), (reverse sl).
  repeat split; try done.
  - by apply Forall_reverse.
  - by apply Forall_reverse.
  - right. repeat split.
    + intros E. by rewrite E in Hlen.
    + rewrite Hse, Hend, length_reverse. subst i1. lia.
    + done.
    + rewrite Hsd, Hpd. destruct (dot_split rc) as [Hnd|(a & b & Hab & Ha)].
      * left. split; [|by apply Forall_reverse].
        subst stc. by rewrite scan_chars_startDot_none.
      * right. exists (reverse b), (reverse a). repeat split.
        -- rewrite Hab, reverse_app, reverse_cons, <- app_assoc. done.
        -- by apply Forall_reverse.
        -- subst stc. rewrite Hab.
           assert (i1 - Z.of_nat (length a)
                   = Z.of_nat (length pfx) + Z.of_nat (length (reverse b))) as Hidx.
           { subst i1. rewrite Hab, length_app, length_reverse. simpl. lia. }
           rewrite scan_chars_startDot_first; [done..|lia].
        -- subst stc. rewrite Hab. apply scan_chars_dotted; try done.
           subst i1. rewrite Hab, length_app. simpl. lia.
Qed.

Lemma of_chars_nil (l : list ascii) : of_chars l = "" -> l = [].
Proof. intros H. by rewrite <- (chars_of_chars l), H. Qed.

Lemma of_chars_inj (l k : list ascii) : of_chars l = of_chars k -> l = k.
Proof.
  intros H. by rewrite <- (chars_of_chars l), H, chars_of_chars.
Qed.

(** [path.parse] in full: which part of the last component is the name
    and which the extension. *)
Lemma parse_exact (o : string) :
  exists pre trail : string,
    o = pre +:+ name (parse o) +:+ ext (parse o) +:+ trail
    /\ (pre = "" \/ exists q, pre = q +:+ "/")
    /\ has is_slash (name (parse o)) = false
    /\ (ext (parse o) = ""
        \/ exists e, ext (parse o) = "." +:+ e
                     /\ has is_dot e = false /\ has is_slash e = false)
    /\ Forall (fun c => is_slash c = true) (chars trail)
    /\ (name (parse o) = "" ->
        ext (parse o) = "" /\ Forall (fun c => is_slash c = true) (chars o))
    /\ (ext (parse o) = "" ->
        (forall c rest, name (parse o) = String c rest ->
                        has is_dot rest = false)
        \/ (name (parse o) = ".." /\ pre <> "/"))
    /\ (ext (parse o) <> "" ->
        name (parse o) +:+ ext (parse o) = ".." -> pre = "/").
Proof.
  unfold parse. destruct (chars o) as [|c0 p'] eqn:E.
  { exists "", "". simpl. rewrite <- (of_chars_chars o), E.
    repeat split; auto; [by left|done]. }
  set (abs := is_slash c0).
  set (body := drop (Z.to_nat (if abs then 1 else 0)) (c0 :: p')).
  assert (c0 :: p' = (if abs then ["/"%char] else []) ++ body) as Hp.
  { subst body abs. destruct (is_slash c0) eqn:H0; [|done].
    apply Ascii.eqb_eq in H0. by subst c0. }
  assert (abs = false -> forall c rest, body = c :: rest -> is_slash c = false)
    as Habs.
  { intros Ha c rest Hb. subst body. rewrite Ha in Hb. cbn in Hb.
    injection Hb as <- _. done. }
  destruct (scan_exact abs body Habs)
    as (pfx & comp & trail & Hsplit & Hcomp & Htrail & Hpfx & Hcases).
  rewrite <- Hp in Hsplit, Hcases.
  set (st := scan (reverse body) (Z.of_nat (length (c0 :: p')) - 1) scan_init)
    in *.
  assert (o = of_chars pfx +:+ of_chars comp +:+ of_chars trail) as Ho.
  { rewrite <- (of_chars_chars o), E, Hsplit. by rewrite !of_chars_app. }
  assert (of_chars pfx = "" \/ exists q, of_chars pfx = q +:+ "/") as Hpre.
  { destruct Hpfx as [->|(q & ->)]; [by left|].
    right. exists (of_chars q). by rewrite of_chars_app. }
  assert (has is_slash (of_chars comp) = false) as Hcs by (by apply has_none).
  assert (Forall (fun c => is_slash c = true) (chars (of_chars trail))) as Htr.
  { by rewrite chars_of_chars. }
  destruct Hcases as [(-> & Hend & Hpsl)|(Hne & Hend & Hstart & Hdot)].
  { (* no component at all *)
    rewrite Hend. simpl.
    exists (of_chars pfx), (of_chars trail).
    split; [done|]. split; [done|]. split; [done|]. split; [by left|].
    split; [done|]. split; [|split; [|done]].
    - intros _. split; [done|]. rewrite Hsplit. apply Forall_app. done.
    - intros _. left. done. }
  assert ((end_ st =? -1) = false) as -> by (apply Z.eqb_neq; lia).
  assert ((if (startPart st =? 0) && abs then 1 else startPart st)
          = Z.of_nat (length pfx)) as ->.
  { destruct Hstart as [[-> ->]|(-> & Hn0 & _)].
    - by destruct abs.
    - assert ((Z.of_nat (length pfx) =? 0) = false) as ->; [|done].
      apply Z.eqb_neq. destruct pfx; [done|]. simpl. lia. }
  rewrite Hend.
  assert (slice (c0 :: p') (Z.of_nat (length pfx))
            (Z.of_nat (length pfx) + Z.of_nat (length comp)) = comp) as Hbase.
  { rewrite Hsplit. apply slice_middle. }
  assert (of_chars comp <> "") as Hcomp_ne.
  { intros H%of_chars_nil. done. }
  exists (of_chars pfx), (of_chars trail).
  destruct Hdot as [[Hd Hnodot]|(cn & ce & Hce & Hnd & Hd & Hpd)].
  { (* no dot in the component *)
    rewrite Hd. change (-1 =? -1) with true. cbn [orb]. cbv iota.
    cbn [name ext base].
    rewrite Hbase, str_app_nil_r.
    split; [done|]. split; [done|]. split; [done|]. split; [by left|].
    split; [done|]. split; [done|]. split; [|done].
    intros _. left. intros c rest Hname.
    pose proof (has_none is_dot comp Hnodot) as Hh.
    rewrite Hname, has_cons in Hh. by apply orb_false_iff in Hh as [_ ?]. }
  rewrite Hd, Hpd.
  assert ((Z.of_nat (length pfx) + Z.of_nat (length cn) =? -1) = false) as ->
    by (apply Z.eqb_neq; lia).
  assert (slice (c0 :: p') (Z.of_nat (length pfx))
            (Z.of_nat (length pfx) + Z.of_nat (length cn)) = cn) as Hname.
  { rewrite Hsplit, Hce, <- !app_assoc. apply slice_middle. }
  assert (slice (c0 :: p') (Z.of_nat (length pfx) + Z.of_nat (length cn))
            (Z.of_nat (length pfx) + Z.of_nat (length comp))
          = "."%char :: ce) as Hext.
  { rewrite Hsplit, Hce, !app_assoc, <- (app_assoc _ _ trail).
    replace (Z.of_nat (length pfx) + Z.of_nat (length cn))
      with (Z.of_nat (length (pfx ++ cn))) by (rewrite length_app; lia).
    replace (Z.of_nat (length pfx) + Z.of_nat (length (cn ++ "."%char :: ce)))
      with (Z.of_nat (length (pfx ++ cn))
            + Z.of_nat (length ("."%char :: ce)))
      by (rewrite !length_app; simpl; lia).
    apply slice_middle. }
  assert (Forall (fun c => is_slash c = false) cn
          /\ Forall (fun c => is_slash c = false) ce) as [Hcn Hces].
  { rewrite Hce, Forall_app, Forall_cons in Hcomp. tauto. }
  destruct cn as [|c1 cn'].
  { (* the last dot is the first character of the component *)
    change (0 =? 0) with true. cbn [orb]. cbv iota. cbn [name ext base].
    rewrite Hbase, str_app_nil_r.
    split; [done|]. split; [done|]. split; [done|]. split; [by left|].
    split; [done|]. split; [done|]. split; [|done].
    intros _. left. intros c rest Hn. rewrite Hce in Hn. cbn in Hn.
    injection Hn as _ <-. by apply has_none. }
  assert (((if is_dot c1 then 1 else -1) =? 0) = false) as ->
    by (by destruct (is_dot c1)).
  cbn [orb].
  destruct (((if is_dot c1 then 1 else -1) =? 1)
            && (Z.of_nat (length pfx) + Z.of_nat (length (c1 :: cn'))
                =? Z.of_nat (length pfx) + Z.of_nat (length comp) - 1)
            && (Z.of_nat (length pfx) + Z.of_nat (length (c1 :: cn'))
                =? startPart st + 1)) eqn:Hthird.
  - (* the component is [..] *)
    apply andb_true_iff in Hthird as [[H1 H2]%andb_true_iff H3].
    apply Z.eqb_eq in H2, H3.
    destruct (is_dot c1) eqn:Hc1; [|done]. apply Ascii.eqb_eq in Hc1. subst c1.
    assert (ce = []) as ->.
    { rewrite Hce, length_app in H2. simpl in H2.
      destruct ce; [done|]. simpl in H2. lia. }
    assert (cn' = [] /\ pfx <> ["/"%char]) as [-> Hnotroot].
    { destruct Hstart as [[Hs0 Hhd]|(Hs & _ & Hnr)].
      - rewrite Hs0 in H3. simpl in H3.
        assert (pfx = []) as -> by (destruct pfx; [done|simpl in H3; lia]).
        split; [|done]. destruct cn'; [done|]. simpl in H3. lia.
      - rewrite Hs in H3. split; [|done].
        destruct cn'; [done|]. simpl in H3. lia. }
    cbn [name ext base]. rewrite Hbase, str_app_nil_r, Hce.
    split; [by rewrite Ho, Hce|]. split; [done|]. split; [done|].
    split; [by left|]. split; [done|]. split; [done|]. split; [|done].
    intros _. right. split; [done|].
    intros H. apply Hnotroot. by apply of_chars_inj.
  - (* a name and an extension *)
    cbn [name ext base]. rewrite Hname, Hext.
    split.
    { rewrite Ho, Hce, !of_chars_app. by rewrite !str_app_assoc. }
    split; [done|]. split; [by apply has_none|].
    split.
    { right. exists (of_chars ce). repeat split; by apply has_none. }
    split; [done|]. split; [done|]. split; [done|].
    intros _ Hdd.
    change ("..") with (of_chars ["."%char; "."%char]) in Hdd.
    rewrite <- of_chars_app in Hdd. apply of_chars_inj in Hdd.
    destruct cn' as [|c2 cn''].
    2: { cbn in Hdd. injection Hdd as _ _ Hdd. by destruct cn''. }
    cbn in Hdd. injection Hdd as -> ->.
    rewrite Hce in Hthird. cbn [length app is_dot] in Hthird.
    change (is_dot ".") with true in Hthird. cbv iota in Hthird.
    change (1 =? 1) with true in Hthird. cbn [andb] in Hthird.
    apply andb_false_iff in Hthird as [Hthird|Hthird];
      apply Z.eqb_neq in Hthird; [simpl in Hthird; lia|].
    destruct Hstart as [[Hs0 Hhd]|(Hs & _ & _)]; [|lia].
    rewrite Hhd. destruct abs; [done|].
    rewrite Hhd, Hs0 in Hthird. simpl in Hthird. lia.
Qed.

End ParseFacts.

(** ** Requests and the Origin Gate *)

Section Gate.
Import JsString.

Lemma array_includes_In (arr : list string) (x : string) :
  array_includes arr x = true <-> In x arr.
Proof.
  unfold array_includes. rewrite existsb_exists. split.
  - intros (y & Hy & ->%String.eqb_eq). done.
  - intros H. exists x. by rewrite String.eqb_refl.
Qed.

Lemma gate_open (req : request) :
  from_allowed_origin req -> checkDomain req = None.
Proof.
  intros (o & Ho & Hin). unfold checkDomain. rewrite Ho.
  apply array_includes_In in Hin as Hinc.
  change (default "" (Some o)) with o. unfold truthy.
  assert (String.eqb o "" = false) as ->.
  { apply String.eqb_neq. intros ->. simpl in Hin.
    destruct Hin as [?|[?|[]]]; done. }
  rewrite Hinc. by destruct (array_includes _ (method req)).
Qed.

Lemma gate_closed (req : request) :
  method req = "POST" \/ method req = "DELETE" ->
  ~ from_allowed_origin req ->
  checkDomain req
  = Some (reply (forbidden req ∅), trace (forbidden req ∅)).
Proof.
  intros Hm Hn. unfold checkDomain.
  assert (array_includes ["POST"; "DELETE"; "PUT"; "PATCH"] (method req)
          = true) as ->.
  { by destruct Hm as [-> | ->]. }
  assert (truthy (origin req)
          && array_includes allowedDomainsForCRUD (default "" (origin req))
          = false) as ->; [|reflexivity].
  apply not_true_is_false. unfold from_allowed_origin in Hn.
  destruct (origin req) as [o|]; [|done].
  intros [Ht Hin]%andb_true_iff.
  apply Hn. exists o. split; [done|]. by apply array_includes_In.
Qed.

Lemma app_upload env req d :
  is_upload req -> body_parsed req ->
  app env req d = upload_route env req d.
Proof.
  intros [Hm Hr] Hb. unfold app, routes. rewrite Hm, Hr. simpl.
  destruct (payload_in req) as [|[m|]| |] eqn:E; try done.
  by destruct (Hb m).
Qed.

Lemma app_delete env req x d :
  is_delete req x -> body_parsed req ->
  app env req d = delete_route env req x d.
Proof.
  intros [Hm Hr] Hb. unfold app, routes. rewrite Hm, Hr. simpl.
  destruct (payload_in req) as [|[m|]| |] eqn:E; try done.
  by destruct (Hb m).
Qed.

Lemma app_after_gate env req d :
  is_upload req \/ (exists x, is_delete req x) ->
  body_parsed req -> from_allowed_origin req ->
  app env req d = after_gate env req d.
Proof.
  intros [Hu|(x & Hx)] Hb Ho.
  - rewrite app_upload by done. unfold upload_route, after_gate.
    rewrite gate_open by done. by destruct Hu as [_ ->].
  - rewrite (app_delete _ _ x) by done. unfold delete_route, after_gate.
    rewrite gate_open by done. by destruct Hx as [_ ->].
Qed.


End Gate.

(** ** C1: the Origin Gate *)




(** ** multer and the upload route *)

Section Upload.
Import JsString.

Lemma fileFilter_cases (p : file_part) :
  (In (part_type p) allowedMimes /\ fileFilter p = inr true)
  \/ (~ In (part_type p) allowedMimes
      /\ fileFilter p
         = inl "Jenis file tidak valid. Hanya gambar yang diizinkan.").
Proof.
  unfold fileFilter.
  destruct (array_includes allowedMimes (part_type p)) eqn:E.
  - left. by apply array_includes_In in E.
  - right. split; [|done]. intros H%array_includes_In. congruence.
Qed.

Lemma multer_files_zero env field acc parts r :
  multer_files env field 0 acc parts = inr r <-> named parts = [] /\ r = acc.
Proof.
  induction parts as [|p parts IH]; simpl.
  - split; [by intros [= ->]|by intros [_ ->]].
  - destruct (String.eqb (part_filename p) ""); simpl; [done|].
    destruct (String.eqb (part_field p) field); split; try done;
      intros [? _]; done.
Qed.

Lemma multer_files_one env field acc parts r :
  multer_files env field 1 acc parts = inr r
  <-> (named parts = [] /\ r = acc)
      \/ (exists p f, named parts = [p] /\ part_field p = field
                      /\ fileFilter p = inr true
                      /\ memoryStorage fileSize p = inr f /\ r = Some f).
Proof.
  induction parts as [|p parts IH]; simpl.
  - split; [intros [= ->]; by left|]. intros [[_ ->]|(?&?&?&_)]; done.
  - destruct (String.eqb (part_filename p) "") eqn:Hn; simpl; [done|].
    destruct (String.eqb (part_field p) field) eqn:Hf.
    + apply String.eqb_eq in Hf.
      destruct (fileFilter_cases p) as [[_ Hff]|[_ Hff]]; rewrite Hff.
      * destruct (memoryStorage fileSize p) as [m|f] eqn:Hs.
        -- split; [done|]. intros [[? _]|(p' & f' & [= <- _] & _ & _ & ? & _)];
             [done|congruence].
        -- rewrite multer_files_zero. split.
           ++ intros [Hnil ->]. right. exists p, f. by rewrite Hnil.
           ++ intros [[? _]|(p' & f' & [= <- Hnil] & _ & _ & Hs' & ->)];
                [done|]. split; [done|congruence].
      * split; [done|].
        intros [[? _]|(p' & f' & [= <- _] & _ & ? & _)]; [done|congruence].
    + apply String.eqb_neq in Hf. split; [done|].
      intros [[? _]|(p' & f' & [= <- _] & ? & _)]; done.
Qed.

Lemma memoryStorage_inv limit p f :
  memoryStorage limit p = inr f ->
  Z.of_nat (length (part_data p)) <= limit
  /\ f = {| fieldname := part_field p; originalname := part_filename p;
            mimetype := part_type p; buffer := part_data p;
            size := Z.of_nat (length (part_data p)) |}.
Proof.
  unfold memoryStorage, read_limited.
  destruct (limit <? Z.of_nat (length (part_data p))) eqn:E; [done|].
  intros [= <-]. split; [|done]. apply Z.ltb_ge in E. done.
Qed.

Lemma named_In (parts : list file_part) (p : file_part) :
  named parts = [p] -> In p parts.
Proof.
  intros H. assert (In p (named parts)) as Hin by (rewrite H; by left).
  unfold named in Hin. by apply filter_In in Hin as [? _].
Qed.

Lemma checkDomain_status req r evs :
  checkDomain req = Some (r, evs) -> status r = 403.
Proof.
  unfold checkDomain.
  destruct (array_includes _ (method req)); [|done].
  destruct (_ && _); [done|]. by intros [= <- _].
Qed.

Lemma checkDomain_next req :
  method req = "POST" \/ method req = "DELETE" ->
  checkDomain req = None -> from_allowed_origin req.
Proof.
  intros Hm. unfold checkDomain.
  assert (array_includes ["POST"; "DELETE"; "PUT"; "PATCH"] (method req)
          = true) as ->.
  { by destruct Hm as [-> | ->]. }
  destruct (truthy _ && _) eqn:E; [|done]. intros _.
  apply andb_true_iff in E as [Ht Hin]. unfold from_allowed_origin.
  destruct (origin req) as [o|]; [|done].
  exists o. split; [done|]. by apply array_includes_In.
Qed.

Lemma express_static_status root req path d r :
  express_static root req path d = Some (inr r) ->
  In (status r) [200; 206; 301; 304].
Proof.
  unfold express_static.
  destruct (negb _); [done|]. destruct (up_path _); [done|].
  destruct (dotfile_ignored _); [done|].
  destruct (if Path.last_is_slash path then _ else _) as [[b|]|]; [| |done].
  - destruct (negotiated req); intros [= <-]; cbn; auto.
  - destruct (Path.last_is_slash path); [done|]. intros [= <-]. cbn. auto.
Qed.

Lemma delete_route_status env req x d :
  In (status (reply (delete_route env req x d))) [403; 400; 404; 500; 200].
Proof.
  unfold delete_route, delete_handler.
  destruct (checkDomain req) as [[r evs]|] eqn:Hg.
  { apply checkDomain_status in Hg. simpl. rewrite Hg. by left. }
  destruct (_ || _); [simpl; auto|].
  destruct (includes nul _); [simpl; auto|].
  destruct (fs_unlink _ _) as [[c|] ?]; simpl; [|auto 10].
  destruct (String.eqb c "ENOENT"); simpl; auto 10.
Qed.

(** A 201 comes from the upload handler alone, and tells how the request
    went through the middleware. *)
Lemma upload_route_created env req d :
  method req = "POST" ->
  status (reply (upload_route env req d)) = 201 ->
  from_allowed_origin req
  /\ exists files p encoded,
       payload_in req = Multipart files /\ named files = [p]
       /\ part_field p = "image" /\ In (part_type p) allowedMimes
       /\ Z.of_nat (length (part_data p)) <= fileSize
       /\ let unique := uniqueFilename (part_filename p) (uuidv4 env) in
          let outputPath := Path.join [imagesDir; unique] in
          sharp_webp_toFile env (part_data p) outputPath = inr encoded
          /\ upload_route env req d
             = respond 201 (created req unique)
                 (<[outputPath := File encoded]> d) [FsWrite outputPath].
Proof.
  intros Hm. unfold upload_route.
  destruct (checkDomain req) as [[r evs]|] eqn:Hg.
  { apply checkDomain_status in Hg. simpl. by rewrite Hg. }
  destruct (payload_in req) as [|m|files|um] eqn:Hbody; simpl; try done.
  destruct (multer_files env "image" 1 None files) as [m|[f|]] eqn:Hmf; try done.
  apply multer_files_one in Hmf
    as [[_ ?]|(p & f' & Hnamed & Hfield & Hff & Hms & [= <-])]; [done|].
  apply memoryStorage_inv in Hms as [Hsize ->]. simpl.
  destruct (sharp_webp_toFile env (part_data p) _) as [msg|encoded] eqn:Hsharp;
    [done|].
  intros _. split; [apply checkDomain_next; auto|].
  exists files, p, encoded. repeat split; try done.
  destruct (fileFilter_cases p) as [[? _]|[_ ?]]; [done|congruence].
Qed.

Lemma app_created env req d :
  status (reply (app env req d)) = 201 ->
  is_upload req /\ body_parsed req /\ from_allowed_origin req
  /\ exists files p encoded,
       payload_in req = Multipart files /\ named files = [p]
       /\ part_field p = "image" /\ In (part_type p) allowedMimes
       /\ Z.of_nat (length (part_data p)) <= fileSize
       /\ let unique := uniqueFilename (part_filename p) (uuidv4 env) in
          let outputPath := Path.join [imagesDir; unique] in
          sharp_webp_toFile env (part_data p) outputPath = inr encoded
          /\ app env req d
             = respond 201 (created req unique)
                 (<[outputPath := File encoded]> d) [FsWrite outputPath].
Proof.
  unfold app.
  destruct (String.eqb (method req) "OPTIONS") eqn:Hopt; [done|].
  destruct (match route req with Static path => _ | _ => None end)
    as [[msg|r]|] eqn:Hserved.
  { done. }
  { destruct (route req); try done.
    apply express_static_status in Hserved. cbn in *.
    intros H. rewrite H in Hserved.
    destruct Hserved as [?|[?|[?|[?|[]]]]]; done. }
  assert (status (reply (routes env req d)) = 201 ->
          is_upload req
          /\ status (reply (upload_route env req d)) = 201
          /\ routes env req d = upload_route env req d) as Hroutes.
  { unfold routes. destruct (route req) eqn:Hroute; try (by cbn).
    - unfold root_handler.
      destruct (array_includes _ _); [by destruct (negotiated req)|by cbn].
    - destruct (String.eqb (method req) "POST") eqn:Hm; [|by cbn].
      apply String.eqb_eq in Hm. done.
    - destruct (String.eqb (method req) "DELETE"); [|by cbn].
      intros H. pose proof (delete_route_status env req filename d) as Hin.
      rewrite H in Hin. simpl in Hin.
      destruct Hin as [?|[?|[?|[?|[?|[]]]]]]; done. }
  destruct (payload_in req) as [|[m|]|files|um] eqn:Hbody; try done;
    intros (Hup & Hst & ->)%Hroutes;
    apply upload_route_created in Hst as (? & Hrest); try apply Hup;
    (split; [done|]); (split; [by intros m; rewrite Hbody|]);
    (split; [done|]); rewrite <- Hbody; exact Hrest.
Qed.

End Upload.

(** ** C4: the Filename Generator *)

Section Generator.
Import JsString.

Lemma matches_Forall (P : ascii -> Prop) sh cs :
  Forall (fun f : ascii -> bool => forall c, f c = true -> P c) sh ->
  Uuid.matches sh cs = true -> Forall P cs /\ length cs = length sh.
Proof.
  intros Hsh. revert cs. induction Hsh as [|f sh Hf _ IH]; intros [|c cs]; simpl;
    try done.
  intros [Hc Hcs]%andb_true_iff. destruct (IH cs Hcs) as [? ->].
  split; [|done]. constructor; auto.
Qed.

Lemma shape_excludes (x : ascii) :
  forallb (fun f : ascii -> bool => negb (f x)) Uuid.shape = true ->
  Forall (fun f : ascii -> bool => forall c, f c = true -> Ascii.eqb c x = false)
         Uuid.shape.
Proof.
  intros H. apply Forall_forall. intros f Hf c Hc.
  apply Ascii.eqb_neq. intros ->.
  rewrite forallb_forall in H. apply list_elem_of_In in Hf.
  specialize (H f Hf). by rewrite Hc in H.
Qed.

Lemma canonical_has (u : string) (x : ascii) :
  forallb (fun f : ascii -> bool => negb (f x)) Uuid.shape = true ->
  Uuid.canonical u = true -> has (fun c => Ascii.eqb c x) u = false.
Proof.
  intros Hx Hu. unfold Uuid.canonical in Hu.
  apply (matches_Forall _ _ _ (shape_excludes x Hx)) in Hu as [Hu _].
  rewrite <- (of_chars_chars u). by apply has_none.
Qed.

Lemma canonical_no_slash (u : string) :
  Uuid.canonical u = true -> has Path.is_slash u = false.
Proof. by apply canonical_has. Qed.

Lemma canonical_length (u : string) :
  Uuid.canonical u = true -> String.length u = 36%nat.
Proof.
  intros Hu. unfold Uuid.canonical in Hu.
  apply (matches_Forall (fun _ => True)) in Hu as [_ Hu].
  - by rewrite <- chars_length, Hu.
  - apply Forall_forall. done.
Qed.

Lemma Forall_slash_has (s : string) :
  Forall (fun c => Path.is_slash c = true) (chars s) ->
  has Path.is_slash s = false -> s = "".
Proof.
  destruct s as [|c s]; [done|].
  rewrite has_cons. intros Hall Hno.
  apply Forall_cons in Hall as [Hc _]. by rewrite Hc in Hno.
Qed.

Lemma uniqueFilename_no_slash (o u : string) :
  has Path.is_slash u = false ->
  has Path.is_slash (uniqueFilename o u) = false.
Proof.
  intros Hu. unfold uniqueFilename. rewrite !has_app, Hu.
  destruct (parse_shape o) as (_ & _ & _ & _ & _ & -> & _). done.
Qed.

Lemma uniqueFilename_length (o u : string) :
  String.length (uniqueFilename o u)
  = (String.length (Path.name (Path.parse o)) + 1 + String.length u + 5)%nat.
Proof. unfold uniqueFilename. rewrite !str_app_length. simpl. lia. Qed.

Lemma uniqueFilename_plain (o u : string) :
  has Path.is_slash u = false ->
  plain_segment (uniqueFilename o u) = true.
Proof.
  intros Hu. unfold plain_segment.
  rewrite uniqueFilename_no_slash by done.
  pose proof (uniqueFilename_length o u) as Hlen.
  assert (forall s, (String.length s < 6)%nat -> String.eqb (uniqueFilename o u) s = false)
    as Hshort.
  { intros s Hs. apply String.eqb_neq. intros E. rewrite E in Hlen. lia. }
  rewrite !Hshort by (simpl; lia). done.
Qed.

Lemma uniqueFilename_differs (o u : string) :
  has Path.is_slash u = false -> uniqueFilename o u <> o.
Proof.
  intros Hu E.
  pose proof (uniqueFilename_no_slash o u Hu) as Hns. rewrite E in Hns.
  destruct (parse_shape o) as (pre & trail & Ho & _ & Hpre & _ & Hext & Htrail).
  rewrite Ho, !has_app in Hns.
  apply orb_false_iff in Hns as [Hp Hns].
  apply orb_false_iff in Hns as [_ Hns].
  apply orb_false_iff in Hns as [_ Ht].
  apply Forall_slash_has in Htrail; [|done]. subst trail.
  destruct Hpre as [->|(q & ->)]; [|by rewrite has_app, orb_true_r in Hp].
  rewrite str_app_nil_r in Ho. change ("" +:+ ?x) with x in Ho.
  unfold uniqueFilename in E. rewrite Ho in E at 2.
  apply (inj (String.append _)) in E.
  destruct Hext as [Hx|(e & Hx & _)]; rewrite Hx in E; discriminate E.
Qed.

End Generator.

(** C4.  The storage name is the base label of the original name, then a
    hyphen, then the token (a canonical UUID string of 36 characters), then
    [.webp]; the base label is what is left of the original name once the
    directory prefix, the extension and the trailing separators are cut
    off.  The cut is the one [path.parse] makes, and it is fixed by the
    original name: the directory prefix is empty or ends with a separator,
    the label holds no separator, and the extension is empty or runs from
    the last dot of the last component to its end.  The label is empty
    only for a name made of separators alone.  The extension is empty only
    when the last component has no dot after its first character, or is
    [..] (with a directory prefix other than [/]); so a dot after the first
    character always starts an extension, which is cut off.  After the
    prefix [/] alone, the component [..] is read as label [.] and extension
    [.].  The name ends in [.webp] and differs from the original name, and
    every successful upload answers with the name generated for the one
    file it carries. *)
Theorem generated_filename (u : string) :
  Uuid.canonical u = true ->
  String.length u = 36%nat
  /\ (forall o,
        let label := Path.name (Path.parse o) in
        uniqueFilename o u = label +:+ "-" +:+ u +:+ ".webp"
        /\ (exists directories extension separators,
              o = directories +:+ label +:+ extension +:+ separators
              /\ (directories = "" \/ exists q, directories = q +:+ "/")
              /\ has Path.is_slash label = false
              /\ (extension = ""
                  \/ exists e, extension = "." +:+ e
                               /\ has Path.is_dot e = false
                               /\ has Path.is_slash e = false)
              /\ Forall (fun c => Path.is_slash c = true)
                        (JsString.chars separators)
              /\ extension = Path.ext (Path.parse o)
              /\ (label = "" ->
                  extension = ""
                  /\ Forall (fun c => Path.is_slash c = true)
                            (JsString.chars o))
              /\ (extension = "" ->
                  (forall c rest, label = String c rest ->
                                  has Path.is_dot rest = false)
                  \/ (label = ".." /\ directories <> "/"))
              /\ (extension <> "" ->
                  label +:+ extension = ".." -> directories = "/"))
        /\ JsString.endsWith ".webp" (uniqueFilename o u) = true
        /\ uniqueFilename o u <> o)
  /\ (forall env req d,
        uuidv4 env = u ->
        status (reply (app env req d)) = 201 ->
        exists files part,
          payload_in req = Multipart files /\ named files = [part]
          /\ json_field "filename" (reply (app env req d))
             = Some (uniqueFilename (part_filename part) u)
          /\ JsString.endsWith ".webp"
               (uniqueFilename (part_filename part) u) = true
          /\ uniqueFilename (part_filename part) u <> part_filename part).
Proof.
  intros Hu.
  pose proof (canonical_no_slash u Hu) as Hns.
  assert (forall o, JsString.endsWith ".webp" (uniqueFilename o u) = true)
    as Hends.
  { intros o. unfold uniqueFilename. by rewrite <- !str_app_assoc, endsWith_app. }
  split; [by apply canonical_length|]. split.
  - intros o label. split; [done|]. split.
    { destruct (parse_exact o)
        as (pre & trail & H1 & H2 & H3 & H4 & H5 & H6 & H7 & H8).
      exists pre, (Path.ext (Path.parse o)), trail. done. }
    split; [done|]. by apply uniqueFilename_differs.
  - intros env req d <- Hcreated.
    apply app_created in Hcreated
      as (_ & _ & _ & files & p & encoded & Hbody & Hnamed & _ & _ & _ & _ & ->).
    exists files, p. repeat split; try done.
    by apply uniqueFilename_differs.
Qed.

Lemma generated_filename_witness :
  uniqueFilename "photos/cat.jpg" Sample.token
  = "cat-123e4567-e89b-42d3-a456-426614174000.webp"
  /\ uniqueFilename "photos/cat.jpg" Sample.token <> "photos/cat.jpg".
Proof.
  destruct (generated_filename Sample.token) as (_ & H & _).
  - vm_compute. reflexivity.
  - destruct (H "photos/cat.jpg") as (H1 & _ & _ & H2).
    split; [rewrite H1; reflexivity|exact H2].
Defined.

(** ** The delete route *)

Section Delete.
Import JsString.

Lemma split_head f (s : string) :
  exists seg segs rest, split f s = seg :: segs /\ s = seg +:+ rest.
Proof.
  induction s as [|c s (seg & segs & rest & Hs & Hrest)].
  - by exists "", [], "".
  - simpl. destruct (f c).
    + by exists "", (split f s), (String c s).
    + rewrite Hs. exists (String c seg), segs, rest.
      split; [done|]. by rewrite str_app_cons, <- Hrest.
Qed.

Lemma parent_segment_includes (s : string) :
  In ".." (split Path.is_slash s) -> includes ".." s = true.
Proof.
  induction s as [|c s IH]; simpl.
  - by intros [|[]].
  - destruct (Path.is_slash c).
    + intros [|Hin]; [done|]. rewrite (IH Hin). apply orb_true_r.
    + destruct (split_head Path.is_slash s) as (seg & segs & rest & Hs & Hrest).
      rewrite Hs in *. intros [E|Hin].
      * injection E as -> ->. rewrite Hrest. done.
      * rewrite IH; [apply orb_true_r|by right].
Qed.

Lemma delete_handler_invalid env (filename : string) (d : gmap string entry) :
  includes ".." filename = true \/ includes "/" filename = true ->
  delete_handler env filename d = respond 400 invalid_name d [].
Proof.
  intros H. unfold delete_handler.
  assert (includes ".." filename || includes "/" filename = true) as ->; [|done].
  apply orb_true_iff. done.
Qed.

Lemma delete_handler_valid env (filename : string) (d : gmap string entry) :
  passes_name_check filename ->
  delete_handler env filename d
  = let filePath := Path.join [imagesDir; filename] in
    if includes nul filePath
    then error_middleware (fs_invalid_path env filePath) d
    else
      {| reply := (unlink_callback (fs_unlink d filePath).1).1;
         disk := (fs_unlink d filePath).2;
         trace := FsUnlink filePath
                  :: (unlink_callback (fs_unlink d filePath).1).2 |}.
Proof.
  intros [H1 H2]. unfold delete_handler. rewrite H1, H2. cbn [orb]. cbv zeta.
  destruct (includes nul _); [done|].
  destruct (fs_unlink d _) as [err d']. simpl.
  by destruct (unlink_callback err).
Qed.

Lemma app_json_rejected env req d m :
  method req <> "OPTIONS" ->
  (forall p, route req <> Static p) ->
  payload_in req = JsonBody (Some m) ->
  app env req d = error_middleware m d.
Proof.
  intros Hm Hr Hb. unfold app.
  apply String.eqb_neq in Hm. rewrite Hm, Hb.
  destruct (route req) eqn:E; try done. by destruct (Hr path).
Qed.

(** A DELETE with a name that fails the check never reaches the file
    system, whatever the origin and the body. *)
Lemma delete_invalid_inert env req d name :
  is_delete req name ->
  includes ".." name = true \/ includes "/" name = true ->
  disk (app env req d) = d
  /\ existsb touches_fs (trace (app env req d)) = false
  /\ (status (reply (app env req d)) = 400
      \/ status (reply (app env req d)) = 403).
Proof.
  intros Hdel Hbad.
  destruct (payload_in req) as [|[m|]|files|um] eqn:Hbody.
  2: { rewrite (app_json_rejected _ _ _ m); [by auto| | |done].
       - destruct Hdel as [-> _]. done.
       - destruct Hdel as [_ ->]. done. }
  all: rewrite (app_delete _ _ name) by (done || (intros m; by rewrite Hbody));
    unfold delete_route;
    (destruct (checkDomain req) as [[r evs]|] eqn:Hg;
     [ pose proof (checkDomain_status _ _ _ Hg) as Hs; simpl;
       split; [done|]; split; [|by right];
       unfold checkDomain in Hg;
       destruct (array_includes _ (method req)); [|done];
       destruct (_ && _); [done|]; by injection Hg as <- <-
     | rewrite delete_handler_invalid by done; simpl; auto ]).
Qed.

Lemma passes_name_check_cases (name : string) :
  passes_name_check name -> name = "" \/ name = "." \/ plain_segment name = true.
Proof.
  intros [Hdots Hslash]. unfold plain_segment.
  rewrite <- includes_slash, Hslash.
  destruct (String.eqb_spec name ""); [by left|].
  destruct (String.eqb_spec name "."); [by right; left|].
  destruct (String.eqb_spec name ".."); [by subst|].
  by right; right.
Qed.

Lemma join_valid_name (name : string) :
  passes_name_check name ->
  Path.join [imagesDir; name] = imagesDir
  \/ (plain_segment name = true
      /\ Path.join [imagesDir; name] = imagesDir +:+ "/" +:+ name).
Proof.
  intros [-> | [-> | H]]%passes_name_check_cases; [by left..|].
  right. split; [done|]. by apply join_child.
Qed.

End Delete.

(** ** The file system *)

Section FileSystem.
Import JsString.

Lemma directories_store :
  directories imagesDir = ["/app"; "/app/public"; imagesDir].
Proof. reflexivity. Qed.

Lemma components_child (x : string) :
  plain_segment x = true ->
  components (imagesDir +:+ "/" +:+ x) = ["app"; "public"; "images"; x].
Proof.
  intros Hx. destruct (plain_segment_inv x Hx) as (Hs & Hne & _).
  unfold components.
  change (imagesDir +:+ "/" +:+ x) with (imagesDir +:+ String "/" x).
  rewrite split_app_sep by done.
  rewrite (split_no_sep _ x Hs), List.filter_app.
  change (List.filter _ (split Path.is_slash imagesDir))
    with ["app"; "public"; "images"].
  cbn [List.filter]. apply String.eqb_neq in Hne. by rewrite Hne.
Qed.

Lemma directories_child (x : string) :
  plain_segment x = true ->
  directories (imagesDir +:+ "/" +:+ x)
  = ["/app"; "/app/public"; imagesDir; imagesDir +:+ "/" +:+ x].
Proof. intros Hx. unfold directories. by rewrite components_child. Qed.

Lemma directories_last (x : string) :
  passes_name_check x ->
  last (directories (Path.join [imagesDir; x]))
  = Some (Path.join [imagesDir; x]).
Proof.
  intros [E|[Hplain E]]%join_valid_name; rewrite E.
  - reflexivity.
  - by rewrite directories_child.
Qed.

Lemma resolve_found d dir names p e :
  resolve d dir names = inr (p, e) ->
  last (below dir names) = Some p /\ d !! p = Some e.
Proof.
  revert dir. induction names as [|name rest IH]; intros dir; [done|].
  cbn [resolve below]. cbv zeta.
  destruct (NAME_MAX <? Z.of_nat (String.length name)); [done|].
  destruct (d !! (dir +:+ "/" +:+ name)) as [e'|] eqn:E; [|by destruct rest].
  destruct e' as [b|], rest as [|name' rest]; try done.
  - intros H. injection H as <- <-. done.
  - intros H. injection H as <- <-. done.
  - intros H. apply IH in H as [H1 H2].
    split; [|done]. by rewrite last_cons, H1.
Qed.

(** [fs.unlink] either fails and changes nothing, or removes the regular
    file that the path leads to. *)
Lemma fs_unlink_cases d path :
  (exists code, fs_unlink d path = (Some code, d))
  \/ (exists p b, last (directories path) = Some p
                  /\ d !! p = Some (File b)
                  /\ fs_unlink d path = (None, delete p d)).
Proof.
  unfold fs_unlink.
  destruct (PATH_MAX <=? Z.of_nat (String.length path)); [left; by eexists|].
  destruct (resolve d "" (components path)) as [code|[p [b|]]] eqn:E.
  - left. by eexists.
  - right. apply resolve_found in E as [H1 H2]. by exists p, b.
  - left. by eexists.
Qed.

Lemma store_present_inv d :
  store_present d ->
  d !! "/app" = Some Directory /\ d !! "/app/public" = Some Directory
  /\ d !! imagesDir = Some Directory.
Proof.
  unfold store_present. rewrite directories_store.
  intros H. inversion H as [|? ? H1 H']; subst.
  inversion H' as [|? ? H2 H'']; subst.
  inversion H'' as [|? ? H3 _]; subst. done.
Qed.

Lemma resolve_store d (rest : list string) :
  store_present d ->
  resolve d "" ("app" :: "public" :: "images" :: rest)
  = match rest with
    | [] => inr (imagesDir, Directory)
    | _ => resolve d imagesDir rest
    end.
Proof.
  intros (H1 & H2 & H3)%store_present_inv.
  cbn [resolve].
  change (NAME_MAX <? Z.of_nat (String.length "app")) with false.
  change (NAME_MAX <? Z.of_nat (String.length "public")) with false.
  change (NAME_MAX <? Z.of_nat (String.length "images")) with false.
  cbv iota zeta.
  change ("" +:+ "/" +:+ "app") with "/app". rewrite H1.
  change ("/app" +:+ "/" +:+ "public") with "/app/public". rewrite H2.
  change ("/app/public" +:+ "/" +:+ "images") with imagesDir. rewrite H3.
  by destruct rest.
Qed.

(** [fs.unlink] on the image directory itself, and on a name inside it,
    while the directory is there. *)
Lemma fs_unlink_store d :
  store_present d -> fs_unlink d imagesDir = (Some "EISDIR", d).
Proof.
  intros Hd. unfold fs_unlink.
  change (PATH_MAX <=? Z.of_nat (String.length imagesDir)) with false.
  change (components imagesDir) with ["app"; "public"; "images"].
  by rewrite resolve_store.
Qed.

Lemma fs_unlink_child d (x : string) :
  store_present d -> plain_segment x = true ->
  fs_unlink d (imagesDir +:+ "/" +:+ x)
  = if NAME_MAX <? Z.of_nat (String.length x) then (Some "ENAMETOOLONG", d)
    else match d !! (imagesDir +:+ "/" +:+ x) with
         | None => (Some "ENOENT", d)
         | Some Directory => (Some "EISDIR", d)
         | Some (File _) => (None, delete (imagesDir +:+ "/" +:+ x) d)
         end.
Proof.
  intros Hd Hx. unfold fs_unlink.
  assert (Z.of_nat (String.length (imagesDir +:+ "/" +:+ x))
          = 19 + Z.of_nat (String.length x)) as Hlen.
  { rewrite !str_app_length. simpl. lia. }
  rewrite Hlen, components_child, resolve_store by done.
  cbn [resolve].
  destruct (NAME_MAX <? Z.of_nat (String.length x)) eqn:Hname.
  - by destruct (PATH_MAX <=? 19 + Z.of_nat (String.length x)).
  - apply Z.ltb_ge in Hname.
    assert ((PATH_MAX <=? 19 + Z.of_nat (String.length x)) = false) as ->.
    { apply Z.leb_gt. unfold PATH_MAX, NAME_MAX in *. lia. }
    cbv zeta.
    by destruct (d !! (imagesDir +:+ "/" +:+ x)) as [[b|]|].
Qed.

Lemma includes_nul_child (x : string) :
  includes nul (imagesDir +:+ "/" +:+ x) = includes nul x.
Proof.
  unfold nul. rewrite !includes_char, !has_app.
  by change (has _ imagesDir) with false.
Qed.

Lemma store_present_delete d (p : string) (b : list byte) :
  store_present d -> d !! p = Some (File b) -> store_present (delete p d).
Proof.
  unfold store_present. intros Hd Hp.
  eapply Forall_impl; [exact Hd|]. intros q Hq. cbn in Hq |- *.
  rewrite lookup_delete_ne; [done|congruence].
Qed.

(** The delete handler while the image directory is there. *)
Lemma delete_handler_store env (name : string) (d : gmap string entry) :
  passes_name_check name -> store_present d ->
  let filePath := Path.join [imagesDir; name] in
  delete_handler env name d
  = if includes nul name
    then respond 400 (Json [("message", fs_invalid_path env filePath)]) d []
    else if NAME_MAX <? Z.of_nat (String.length name) then
      respond 500 removal_failed d
        [FsUnlink filePath;
         ConsoleError "Error saat menghapus file:" "ENAMETOOLONG"]
    else
      match d !! filePath with
      | None => respond 404 not_found d [FsUnlink filePath]
      | Some Directory =>
          respond 500 removal_failed d
            [FsUnlink filePath;
             ConsoleError "Error saat menghapus file:" "EISDIR"]
      | Some (File _) =>
          respond 200 removed (delete filePath d) [FsUnlink filePath]
      end.
Proof.
  intros Hname Hd filePath.
  pose proof (store_present_inv d Hd) as (_ & _ & Hdir).
  rewrite delete_handler_valid by done. fold filePath. cbv zeta.
  destruct (passes_name_check_cases name Hname) as [->|[->|Hplain]].
  - subst filePath. change (Path.join [imagesDir; ""]) with imagesDir.
    change (includes nul imagesDir) with false.
    change (includes nul "") with false. cbv iota.
    rewrite fs_unlink_store, Hdir by done. done.
  - subst filePath. change (Path.join [imagesDir; "."]) with imagesDir.
    change (includes nul imagesDir) with false.
    change (includes nul ".") with false. cbv iota.
    rewrite fs_unlink_store, Hdir by done. done.
  - subst filePath. rewrite (join_child name Hplain), includes_nul_child.
    destruct (includes nul name); [done|].
    rewrite fs_unlink_child by done.
    destruct (NAME_MAX <? Z.of_nat (String.length name)); [done|].
    by destruct (d !! (imagesDir +:+ "/" +:+ name)) as [[b|]|].
Qed.


(** The directories that start-up makes. *)
Lemma mkdir_lookup (l : list string) (d : gmap string entry) (p : string) :
  fold_left (fun d' q => match d' !! q with
                         | Some _ => d'
                         | None => <[q := Directory]> d'
                         end) l d !! p
  = match d !! p with
    | Some e => Some e
    | None => if decide (p ∈ l) then Some Directory else None
    end.
Proof.
  revert d. induction l as [|q l IH]; intros d.
  - cbn [fold_left]. destruct (d !! p); [done|].
    by destruct (decide (p ∈ [])) as [?%elem_of_nil|].
  - cbn [fold_left]. rewrite IH. destruct (d !! q) as [e|] eqn:Hq.
    + destruct (d !! p) eqn:Hp; [done|].
      assert (p <> q) by congruence.
      destruct (decide (p ∈ l)) as [Hin|Hin],
               (decide (p ∈ q :: l)) as [Hin'|Hin']; try done.
      * destruct Hin'. by right.
      * apply elem_of_cons in Hin' as [?|?]; done.
    + destruct (decide (p = q)) as [->|Hne].
      * rewrite lookup_insert_eq, Hq.
        destruct (decide (q ∈ q :: l)) as [|Hin']; [done|].
        destruct Hin'. by left.
      * rewrite lookup_insert_ne by done. destruct (d !! p); [done|].
        destruct (decide (p ∈ l)) as [Hin|Hin],
                 (decide (p ∈ q :: l)) as [Hin'|Hin']; try done.
        -- destruct Hin'. by right.
        -- apply elem_of_cons in Hin' as [?|?]; done.
Qed.

Lemma startup_lookup (d : gmap string entry) (p : string) :
  startup d !! p
  = match d !! p with
    | Some e => Some e
    | None =>
        match d !! imagesDir with
        | Some _ => None
        | None => if decide (p ∈ directories imagesDir)
                  then Some Directory else None
        end
    end.
Proof.
  unfold startup. destruct (d !! imagesDir) eqn:E.
  - by destruct (d !! p).
  - unfold mkdirSync_recursive. by rewrite mkdir_lookup.
Qed.

End FileSystem.

(** ** C3: names with a parent-directory segment or a separator *)

(** C3.  A DELETE /delete/name whose name has a [..] path segment or
    contains the separator ["/"] is answered, once past the Origin Gate,
    with the invalid-name failure (400), which is not the not-found failure;
    whatever the origin, [fs.unlink] is not called, no other file system
    call is made and the store is left as it was. *)
Theorem traversal_rejected (env : environment) (req : request)
    (d : gmap string entry) (name : string) :
  is_delete req name ->
  In ".." (JsString.split Path.is_slash name) \/ has Path.is_slash name = true ->
  (body_parsed req -> from_allowed_origin req ->
     app env req d = respond 400 invalid_name d [])
  /\ invalid_name <> not_found
  /\ status (reply (app env req d)) <> 404
  /\ disk (app env req d) = d
  /\ existsb touches_fs (trace (app env req d)) = false.
Proof.
  intros Hdel Hname.
  assert (JsString.includes ".." name = true \/ JsString.includes "/" name = true)
    as Hbad.
  { destruct Hname as [H|H]; [left; by apply parent_segment_includes|].
    right. by rewrite includes_slash. }
  destruct (delete_invalid_inert env req d name Hdel Hbad) as (Hd & Ht & Hs).
  repeat split; try done.
  - intros Hb Ho. rewrite app_after_gate; [|right; by exists name|done..].
    unfold after_gate. destruct Hdel as [_ ->].
    by apply delete_handler_invalid.
  - destruct Hs as [-> | ->]; done.
Qed.

Lemma traversal_rejected_witness :
  app Sample.env (Sample.delete_file Sample.frontend "../../etc/passwd")
      Sample.fresh
  = respond 400 invalid_name Sample.fresh [].
Proof.
  apply (traversal_rejected Sample.env
           (Sample.delete_file Sample.frontend "../../etc/passwd")
           Sample.fresh "../../etc/passwd").
  - split; reflexivity.
  - left. simpl. auto.
  - intros m. discriminate.
  - exists "http://localhost:5500". split; [reflexivity|]. simpl. auto.
Defined.

(** ** C6: outcomes of a removal *)

(** C6, counterexample.  A DELETE from an allowed origin for a name of 256
    letters, under which nothing is stored: the name passes the name
    check, the file system refuses it with ENAMETOOLONG, which is not
    ENOENT, and the answer is 500. *)
Lemma delete_outcomes_counterexample :
  let name := JsString.of_chars (repeat "a"%char 256) in
  let req := Sample.delete_file Sample.frontend name in
  passes_name_check name
  /\ Sample.fresh !! Path.join [imagesDir; name] = None
  /\ status (reply (app Sample.env req Sample.fresh)) = 500.
Proof. vm_compute. auto. Qed.

(** C6, as amended.  For a DELETE /delete/name that the JSON body parser
    lets through, past the Origin Gate, whose name passes the name check,
    while the image directory is there.  For a name that the file system
    takes (no NUL character, at most 255 bytes):
    when the store has no entry under that name the answer is the
    not-found failure (404), never a server error, and the store is
    unchanged; when the entry is a file the answer is 200 with a message,
    the entry is gone, and deleting the same name again answers 404; when
    the removal fails for another reason (here: the entry is a directory)
    the answer is the processing failure (500).  A name of more than 255
    bytes is answered 500 whether or not an entry exists (the file system
    refuses it with ENAMETOOLONG), and a name with a NUL character is
    answered 400 ([fs.unlink] throws, and the error-handling middleware
    answers).  The callback of [fs.unlink] answers 404 for the code ENOENT
    and 500 for every other error code. *)
Theorem delete_outcomes (env : environment) (req : request)
    (d : gmap string entry) (name : string) :
  is_delete req name -> body_parsed req -> from_allowed_origin req ->
  passes_name_check name -> store_present d ->
  let filePath := Path.join [imagesDir; name] in
  (storable name ->
     (d !! filePath = None ->
        app env req d = respond 404 not_found d [FsUnlink filePath])
     /\ (forall content, d !! filePath = Some (File content) ->
           app env req d
           = respond 200 removed (delete filePath d) [FsUnlink filePath]
           /\ app env req (disk (app env req d))
              = respond 404 not_found (delete filePath d) [FsUnlink filePath])
     /\ (d !! filePath = Some Directory ->
           app env req d
           = respond 500 removal_failed d
               [FsUnlink filePath;
                ConsoleError "Error saat menghapus file:" "EISDIR"]))
  /\ (JsString.includes nul name = false ->
        NAME_MAX < Z.of_nat (String.length name) ->
        app env req d
        = respond 500 removal_failed d
            [FsUnlink filePath;
             ConsoleError "Error saat menghapus file:" "ENAMETOOLONG"])
  /\ (JsString.includes nul name = true ->
        app env req d
        = respond 400 (Json [("message", fs_invalid_path env filePath)]) d [])
  /\ (forall code, code <> "ENOENT" ->
        (unlink_callback (Some code)).1
        = {| status := 500; content := removal_failed |})
  /\ (unlink_callback (Some "ENOENT")).1
     = {| status := 404; content := not_found |}.
Proof.
  intros Hdel Hb Ho Hname Hd filePath.
  assert (forall d', app env req d' = delete_handler env name d') as Happ.
  { intros d'. rewrite app_after_gate; [|right; by exists name|done..].
    unfold after_gate. by destruct Hdel as [_ ->]. }
  assert (forall d', store_present d' ->
            JsString.includes nul name = false ->
            (NAME_MAX <? Z.of_nat (String.length name)) = false ->
            app env req d'
            = match d' !! filePath with
              | None => respond 404 not_found d' [FsUnlink filePath]
              | Some Directory =>
                  respond 500 removal_failed d'
                    [FsUnlink filePath;
                     ConsoleError "Error saat menghapus file:" "EISDIR"]
              | Some (File _) =>
                  respond 200 removed (delete filePath d') [FsUnlink filePath]
              end) as Hstore.
  { intros d' Hd' Hnul Hlen.
    rewrite Happ, delete_handler_store by done. cbv zeta.
    by rewrite Hnul, Hlen. }
  split; [|split; [|split; [|split]]].
  - intros [Hnul Hlen%Z.ltb_ge]. split; [|split].
    + intros Hnone. by rewrite Hstore, Hnone.
    + intros content Hfile.
      assert (app env req d
              = respond 200 removed (delete filePath d) [FsUnlink filePath])
        as Hfirst by (by rewrite Hstore, Hfile).
      split; [done|]. rewrite Hfirst. cbn [disk respond].
      rewrite Hstore, lookup_delete_eq; [done| |done..].
      by apply (store_present_delete d filePath content).
    + intros Hdir. by rewrite Hstore, Hdir.
  - intros Hnul Hlen%Z.ltb_lt.
    rewrite Happ, delete_handler_store by done. cbv zeta.
    by rewrite Hnul, Hlen.
  - intros Hnul. rewrite Happ, delete_handler_store by done. cbv zeta.
    by rewrite Hnul.
  - intros code Hcode. unfold unlink_callback.
    apply String.eqb_neq in Hcode. by rewrite Hcode.
  - done.
Qed.

Lemma delete_outcomes_witness :
  app Sample.env (Sample.delete_file Sample.frontend "cat.webp") Sample.fresh
  = respond 404 not_found Sample.fresh [FsUnlink "/app/public/images/cat.webp"].
Proof.
  refine (proj1 (proj1 (delete_outcomes Sample.env
            (Sample.delete_file Sample.frontend "cat.webp")
            Sample.fresh "cat.webp" _ _ _ _ _) _) _).
  - split; reflexivity.
  - intros m. discriminate.
  - exists "http://localhost:5500". split; [reflexivity|]. simpl. auto.
  - split; reflexivity.
  - repeat constructor.
  - split; [reflexivity|]. vm_compute. discriminate.
  - vm_compute. reflexivity.
Defined.

(** ** C10: stored names with consecutive dots *)

Section Undeletable.
Import JsString.

(** How one request can change the file system. *)
Lemma app_disk env req d :
  disk (app env req d) = d
  \/ (exists q e, disk (app env req d) = <[q := File e]> d)
  \/ (exists name, passes_name_check name
                   /\ disk (app env req d)
                      = delete (Path.join [imagesDir; name]) d).
Proof.
  unfold app.
  destruct (String.eqb (method req) "OPTIONS"); [by left|].
  destruct (match route req with Static path => _ | _ => None end)
    as [[msg|r]|]; [by left..|].
  assert (disk (routes env req d) = d
          \/ (exists q e, disk (routes env req d) = <[q := File e]> d)
          \/ (exists name, passes_name_check name
                /\ disk (routes env req d)
                   = delete (Path.join [imagesDir; name]) d)) as Hroutes.
  { unfold routes. destruct (route req); try by left.
    - unfold root_handler.
      destruct (array_includes _ _), (negotiated req); by left.
    - destruct (String.eqb (method req) "POST"); [|by left].
      unfold upload_route.
      destruct (checkDomain req) as [[r evs]|]; [by left|].
      destruct (upload_single _ _) as [m|[f|]]; [by left| |by left].
      unfold upload_handler.
      destruct (sharp_webp_toFile _ _ _); [by left|].
      right; left. by eexists _, _.
    - destruct (String.eqb (method req) "DELETE"); [|by left].
      unfold delete_route.
      destruct (checkDomain req) as [[r evs]|]; [by left|].
      destruct (includes ".." filename) eqn:H1;
        [unfold delete_handler; rewrite H1; by left|].
      destruct (includes "/" filename) eqn:H2;
        [unfold delete_handler; rewrite H1, H2; by left|].
      rewrite delete_handler_valid by done. cbv zeta.
      destruct (includes nul _); [by left|].
      destruct (fs_unlink_cases d (Path.join [imagesDir; filename]))
        as [(code & ->)|(p & b & Hlast & Hp & ->)]; [by left|].
      rewrite directories_last in Hlast by done. injection Hlast as <-.
      right; right. by exists filename. }
  destruct (payload_in req) as [|[m|]| |]; try done. by left.
Qed.

(** No name that passes the check of the delete handler addresses the
    entry of a stored name that contains two consecutive dots. *)
Lemma join_dotted_unreachable (F name : string) :
  plain_segment F = true -> includes ".." F = true ->
  passes_name_check name ->
  Path.join [imagesDir; name] <> Path.join [imagesDir; F].
Proof.
  intros HF Hdots Hname. rewrite (join_child F HF).
  destruct (join_valid_name name Hname) as [-> | [_ ->]].
  - rewrite <- (str_app_nil_r imagesDir) at 1.
    intros E. apply (inj (String.append _)) in E. discriminate E.
  - intros E. apply (inj (String.append _)) in E.
    apply (inj (String.append _)) in E. subst name.
    destruct Hname as [Hname _]. congruence.
Qed.

Lemma app_keeps_dotted env req d (F : string) :
  plain_segment F = true -> includes ".." F = true ->
  (exists b, d !! Path.join [imagesDir; F] = Some (File b)) ->
  exists b, disk (app env req d) !! Path.join [imagesDir; F] = Some (File b).
Proof.
  intros HF Hdots [b Hb].
  destruct (app_disk env req d) as [-> | [(q & e & ->) | (name & Hn & ->)]].
  - by exists b.
  - destruct (decide (q = Path.join [imagesDir; F])) as [-> | Hne].
    + exists e. apply lookup_insert_eq.
    + exists b. by rewrite lookup_insert_ne.
  - exists b. rewrite lookup_delete_ne; [done|].
    by apply join_dotted_unreachable.
Qed.

Lemma run_keeps_dotted reqs d (F : string) :
  plain_segment F = true -> includes ".." F = true ->
  (exists b, d !! Path.join [imagesDir; F] = Some (File b)) ->
  exists b, run reqs d !! Path.join [imagesDir; F] = Some (File b).
Proof.
  intros HF Hdots. revert d.
  induction reqs as [|[env req] reqs IH]; intros d Hd; [done|].
  simpl. apply IH. by apply app_keeps_dotted.
Qed.

End Undeletable.

(** C10.  The name check of the delete handler rejects every name in which
    [..] occurs anywhere, also where it is no parent-directory segment.  The
    generator keeps the base label of the original name as it is, so an
    original name whose base label has two consecutive dots is stored under
    a name F that contains them and has no [..] segment: every DELETE for F
    is answered, once past the Origin Gate, with the invalid-name failure
    (400) and changes nothing whatever its origin, and no sequence of
    requests removes the file stored under F. *)
Theorem dotted_name_undeletable (o u : string) :
  Uuid.canonical u = true ->
  JsString.includes ".." (Path.name (Path.parse o)) = true ->
  let F := uniqueFilename o u in
  (forall name env req d,
     JsString.includes ".." name = true ->
     is_delete req name -> body_parsed req -> from_allowed_origin req ->
     app env req d = respond 400 invalid_name d [])
  /\ JsString.includes ".." F = true
  /\ ~ In ".." (JsString.split Path.is_slash F)
  /\ (forall env req d,
        is_delete req F ->
        (body_parsed req -> from_allowed_origin req ->
           app env req d = respond 400 invalid_name d [])
        /\ disk (app env req d) = d)
  /\ (forall reqs d content,
        d !! Path.join [imagesDir; F] = Some (File content) ->
        exists content',
          run reqs d !! Path.join [imagesDir; F] = Some (File content')).
Proof.
  intros Hu Hlabel F.
  pose proof (canonical_no_slash u Hu) as Hns.
  pose proof (uniqueFilename_plain o u Hns) as Hplain. fold F in Hplain.
  assert (JsString.includes ".." F = true) as Hdots.
  { subst F. unfold uniqueFilename. by apply includes_app_l. }
  assert (forall name env req d,
            JsString.includes ".." name = true ->
            is_delete req name -> body_parsed req -> from_allowed_origin req ->
            app env req d = respond 400 invalid_name d []) as Hany.
  { intros name env req d Hname Hdel Hb Ho.
    rewrite app_after_gate; [|right; by exists name|done..].
    unfold after_gate. destruct Hdel as [_ ->].
    apply delete_handler_invalid. by left. }
  split; [done|]. split; [done|]. split.
  { apply plain_segment_inv in Hplain as (Hs & _ & _ & Hne).
    rewrite (split_no_sep _ _ Hs). intros [E|[]]. by apply Hne. }
  split.
  - intros env req d Hdel. split; [by apply (Hany F)|].
    apply (delete_invalid_inert env req d F Hdel). by left.
  - intros reqs d content Hd. apply run_keeps_dotted; [done..|by exists content].
Qed.

Lemma dotted_name_undeletable_witness :
  uniqueFilename "my..cat.png" Sample.token
  = "my..cat-123e4567-e89b-42d3-a456-426614174000.webp"
  /\ app Sample.env
       (Sample.delete_file Sample.frontend
          (uniqueFilename "my..cat.png" Sample.token))
       Sample.fresh
     = respond 400 invalid_name Sample.fresh [].
Proof.
  split; [reflexivity|].
  destruct (dotted_name_undeletable "my..cat.png" Sample.token)
    as (_ & _ & _ & H & _).
  - vm_compute. reflexivity.
  - vm_compute. reflexivity.
  - apply (H Sample.env
             (Sample.delete_file Sample.frontend
                (uniqueFilename "my..cat.png" Sample.token))
             Sample.fresh).
    + split; reflexivity.
    + intros m. discriminate.
    + exists "http://localhost:5500". split; [reflexivity|]. simpl. auto.
Defined.

(** ** The upload route past the gate *)

Section Pipeline.
Import JsString.

Lemma multipart_parsed (req : request) (files : list file_part) :
  payload_in req = Multipart files -> body_parsed req.
Proof. intros H m. by rewrite H. Qed.

Lemma app_upload_past_gate env req d :
  is_upload req -> body_parsed req -> from_allowed_origin req ->
  app env req d
  = match upload_single env "image" (payload_in req) with
    | inl message => error_middleware message d
    | inr file => upload_handler env req file d
    end.
Proof.
  intros Hup Hb Ho. rewrite app_after_gate; [|by left|done..].
  unfold after_gate. by destruct Hup as [_ ->].
Qed.

Lemma memoryStorage_fits (p : file_part) :
  Z.of_nat (length (part_data p)) <= fileSize ->
  memoryStorage fileSize p = inr (file_of p).
Proof.
  intros H. unfold memoryStorage, read_limited.
  apply Z.ltb_ge in H. by rewrite H.
Qed.

Lemma memoryStorage_exceeds (p : file_part) :
  fileSize < Z.of_nat (length (part_data p)) ->
  memoryStorage fileSize p = inl too_large.
Proof.
  intros H. unfold memoryStorage, read_limited.
  apply Z.ltb_lt in H. by rewrite H.
Qed.

Lemma upload_single_accepts env (files : list file_part) (p : file_part) :
  named files = [p] -> part_field p = "image" ->
  In (part_type p) allowedMimes ->
  Z.of_nat (length (part_data p)) <= fileSize ->
  upload_single env "image" (Multipart files) = inr (Some (file_of p)).
Proof.
  intros Hn Hf Ht Hs. unfold upload_single. apply multer_files_one.
  right. exists p, (file_of p). repeat split; try done.
  - destruct (fileFilter_cases p) as [[_ ?]|[? _]]; done.
  - by apply memoryStorage_fits.
Qed.


Lemma upload_single_first env (p : file_part) (rest : list file_part) :
  part_filename p <> "" -> part_field p = "image" ->
  upload_single env "image" (Multipart (p :: rest))
  = match fileFilter p with
    | inl msg => inl msg
    | inr _ =>
        match memoryStorage fileSize p with
        | inl msg => inl msg
        | inr f => multer_files env "image" 0 (Some f) rest
        end
    end.
Proof.
  intros Hn Hf. simpl. apply String.eqb_neq in Hn. rewrite Hn, Hf. simpl.
  destruct (fileFilter_cases p) as [[_ ->]|[_ ->]]; done.
Qed.


End Pipeline.

(** ** C5: the Upload Filter *)

(** C5.  [fileFilter] accepts a file exactly when its declared media type is
    one of the four entries of [allowedMimes]; for every other declared type
    it raises an error, and an upload past the Origin Gate whose first file
    has such a type is answered with the validation failure (400) that
    carries the filter's message, the store being left as it was. *)
Theorem upload_filter :
  allowedMimes = ["image/jpeg"; "image/png"; "image/gif"; "image/webp"]
  /\ (forall p, fileFilter p = inr true <-> In (part_type p) allowedMimes)
  /\ (forall p, ~ In (part_type p) allowedMimes ->
                fileFilter p = inl wrong_type)
  /\ (forall env req d p rest,
        is_upload req -> from_allowed_origin req ->
        payload_in req = Multipart (p :: rest) ->
        part_filename p <> "" -> part_field p = "image" ->
        ~ In (part_type p) allowedMimes ->
        app env req d = respond 400 (Json [("message", wrong_type)]) d []).
Proof.
  split; [done|]. split; [|split].
  - intros p. destruct (fileFilter_cases p) as [[? ->]|[? ->]]; split; done.
  - intros p Hp. destruct (fileFilter_cases p) as [[? _]|[_ ->]]; done.
  - intros env req d p rest Hup Ho Hbody Hn Hf Ht.
    rewrite app_upload_past_gate; [|done|by eapply multipart_parsed|done].
    rewrite Hbody, upload_single_first by done.
    destruct (fileFilter_cases p) as [[? _]|[_ ->]]; done.
Qed.

Lemma upload_filter_witness :
  app Sample.env
      (Sample.post_upload Sample.frontend
         (Multipart [Sample.image "notes.pdf" "application/pdf" [x25; x50]]))
      Sample.fresh
  = respond 400 (Json [("message", wrong_type)]) Sample.fresh [].
Proof.
  destruct upload_filter as (_ & _ & _ & H).
  apply (H Sample.env _ Sample.fresh
           (Sample.image "notes.pdf" "application/pdf" [x25; x50]) []).
  - split; reflexivity.
  - exists "http://localhost:5500". split; [reflexivity|]. simpl. auto.
  - reflexivity.
  - discriminate.
  - reflexivity.
  - simpl. intros [H1|[H1|[H1|[H1|[]]]]]; discriminate H1.
Defined.

(** ** C8: uploads without a file, and one file per upload *)



(** ** C9: processing failures *)

(** C9, counterexample.  The conversion of an otherwise valid upload fails
    because the output cannot be written; the answer is 500 and its [error]
    field is the message of that error, which names the output path inside
    the image directory. *)
Lemma processing_failure_counterexample :
  let r := reply (app Sample.env_unwritable
                    (Sample.post_upload Sample.frontend Sample.cat)
                    Sample.fresh) in
  let leaked :=
    "/app/public/images/cat-123e4567-e89b-42d3-a456-426614174000.webp: unable to open for write" in
  status r = 500
  /\ json_field "error" r = Some leaked
  /\ JsString.includes imagesDir leaked = true.
Proof. vm_compute. auto. Qed.

(** C9, as amended.  When the conversion of an otherwise valid upload fails
    (undecodable input, encoder error, output not writable), the answer is
    the processing failure: status 500, a fixed [message] that names no
    path, and an [error] field that repeats the message of the underlying
    error as it is; the error is logged and the store is left as it was. *)
Theorem processing_failure (env : environment) (req : request)
    (d : gmap string entry) (files : list file_part) (p : file_part)
    (message : string) :
  is_upload req -> from_allowed_origin req ->
  payload_in req = Multipart files -> named files = [p] ->
  part_field p = "image" -> In (part_type p) allowedMimes ->
  Z.of_nat (length (part_data p)) <= fileSize ->
  sharp_webp_toFile env (part_data p)
    (Path.join [imagesDir; uniqueFilename (part_filename p) (uuidv4 env)])
  = inl message ->
  app env req d
  = respond 500
      (Json [("message", processing_failed); ("error", message)])
      d [ConsoleError "Error saat memproses gambar:" message]
  /\ JsString.includes "/" processing_failed = false
  /\ json_field "error" (reply (app env req d)) = Some message.
Proof.
  intros Hup Ho Hbody Hn Hf Ht Hs Hfail.
  assert (app env req d
          = respond 500
              (Json [("message", processing_failed); ("error", message)])
              d [ConsoleError "Error saat memproses gambar:" message]) as ->.
  { rewrite app_upload_past_gate; [|done|by eapply multipart_parsed|done].
    rewrite Hbody, (upload_single_accepts env files p) by done.
    unfold upload_handler. cbn [originalname buffer file_of].
    by rewrite Hfail. }
  done.
Qed.

Lemma processing_failure_witness :
  status (reply (app Sample.env_unwritable
                   (Sample.post_upload Sample.frontend Sample.cat)
                   Sample.fresh)) = 500.
Proof.
  destruct (processing_failure Sample.env_unwritable
              (Sample.post_upload Sample.frontend Sample.cat) Sample.fresh
              [Sample.image "cat.jpg" "image/jpeg" [x01; x02]]
              (Sample.image "cat.jpg" "image/jpeg" [x01; x02])
              "/app/public/images/cat-123e4567-e89b-42d3-a456-426614174000.webp: unable to open for write")
    as [-> _].
  - split; reflexivity.
  - exists "http://localhost:5500". split; [reflexivity|]. simpl. auto.
  - reflexivity.
  - reflexivity.
  - reflexivity.
  - simpl. auto.
  - vm_compute. discriminate.
  - vm_compute. reflexivity.
  - reflexivity.
Defined.

(** ** C7: the size ceiling *)

Section Ceiling.

Lemma multer_files_named env field n acc (files : list file_part) :
  multer_files env field n acc files = multer_files env field n acc (named files).
Proof.
  revert n acc. induction files as [|p files IH]; intros n acc; [done|].
  simpl. destruct (String.eqb (part_filename p) "") eqn:E; simpl; [done|].
  rewrite E.
  destruct (if String.eqb (part_field p) field then n else 0%nat); [done|].
  destruct (fileFilter p) as [|[]]; [done| |done].
  by destruct (memoryStorage fileSize p).
Qed.

Lemma upload_single_oversized env (files : list file_part) (p : file_part) :
  named files = [p] -> part_field p = "image" ->
  In (part_type p) allowedMimes ->
  fileSize < Z.of_nat (length (part_data p)) ->
  upload_single env "image" (Multipart files) = inl too_large.
Proof.
  intros Hn Hf Ht Hs. unfold upload_single.
  rewrite multer_files_named, Hn.
  assert (part_filename p <> "") as Hne.
  { assert (In p (named files)) as Hin by (rewrite Hn; by left).
    apply filter_In in Hin as [_ Hin].
    apply negb_true_iff in Hin. by apply String.eqb_neq. }
  change (multer_files env "image" 1 None [p])
    with (upload_single env "image" (Multipart [p])).
  rewrite upload_single_first by done.
  destruct (fileFilter_cases p) as [[_ ->]|[? _]]; [|done].
  by rewrite memoryStorage_exceeds.
Qed.

Lemma fileSize_value : fileSize = 10485760.
Proof. reflexivity. Qed.

End Ceiling.

(** C7.  The ceiling is 10 MiB.  For an upload past the Origin Gate with one
    file of an accepted type in the field [image]: when the file is exactly
    as long as the ceiling and the conversion succeeds, the upload succeeds
    (201); when it is one byte longer, the answer is the too-large
    validation failure (400), the store is left as it was, and the reader
    has handed over fewer bytes than the file has when it reports the
    excess. *)
Theorem size_ceiling (env : environment) (req : request)
    (d : gmap string entry) (files : list file_part) (p : file_part) :
  is_upload req -> from_allowed_origin req ->
  payload_in req = Multipart files -> named files = [p] ->
  part_field p = "image" -> In (part_type p) allowedMimes ->
  fileSize = 10 * 1024 * 1024
  /\ (Z.of_nat (length (part_data p)) = fileSize ->
      forall encoded,
        sharp_webp_toFile env (part_data p)
          (Path.join [imagesDir; uniqueFilename (part_filename p) (uuidv4 env)])
        = inr encoded ->
        let unique := uniqueFilename (part_filename p) (uuidv4 env) in
        app env req d
        = respond 201 (created req unique)
            (<[Path.join [imagesDir; unique] := File encoded]> d)
            [FsWrite (Path.join [imagesDir; unique])])
  /\ (Z.of_nat (length (part_data p)) = fileSize + 1 ->
      app env req d = respond 400 (Json [("message", too_large)]) d []
      /\ (read_limited fileSize (part_data p)).2 = true
      /\ (length (read_limited fileSize (part_data p)).1
          < length (part_data p))%nat).
Proof.
  intros Hup Ho Hbody Hn Hf Ht.
  assert (body_parsed req) as Hb by (by eapply multipart_parsed).
  split; [done|]. split.
  - intros Hlen encoded Hok unique.
    rewrite app_upload_past_gate, Hbody by done.
    rewrite (upload_single_accepts env files p) by (done || lia).
    unfold upload_handler. cbn [originalname buffer file_of].
    by rewrite Hok.
  - intros Hlen. split; [|split].
    + rewrite app_upload_past_gate, Hbody by done.
      by rewrite (upload_single_oversized env files p) by (done || lia).
    + unfold read_limited.
      assert ((fileSize <? Z.of_nat (length (part_data p))) = true) as ->; [|done].
      apply Z.ltb_lt. lia.
    + unfold read_limited.
      assert ((fileSize <? Z.of_nat (length (part_data p))) = true) as ->.
      { apply Z.ltb_lt. lia. }
      cbn [fst]. rewrite length_take.
      assert (0 <= fileSize) by done. lia.
Qed.

Lemma size_ceiling_witness :
  let big := Sample.image "big.png" "image/png"
               (repeat x00 (Z.to_nat fileSize)) in
  status (reply (app Sample.env
                   (Sample.post_upload Sample.frontend (Multipart [big]))
                   Sample.fresh)) = 201.
Proof.
  intros big.
  destruct (size_ceiling Sample.env
              (Sample.post_upload Sample.frontend (Multipart [big]))
              Sample.fresh [big] big) as (_ & H & _).
  - split; reflexivity.
  - exists "http://localhost:5500". split; [reflexivity|]. simpl. auto.
  - reflexivity.
  - reflexivity.
  - reflexivity.
  - right. left. reflexivity.
  - rewrite (H ltac:(subst big; cbn [part_data Sample.image];
                     rewrite repeat_length; apply Z2Nat.id; done)
               [x52; x49; x46; x46]); reflexivity.
Defined.

(** ** C2: reading what was stored *)

Section Reading.
Import JsString.

Lemma static_lookup (g : request) (F : string) (d : gmap string entry) :
  In (method g) ["GET"; "HEAD"] -> plain_segment F = true ->
  express_static imagesDir g ("/" +:+ F) d
  = if up_path F then None
    else if dotfile_ignored [F] then None
    else match d !! (imagesDir +:+ "/" +:+ F) with
         | Some (File bytes) =>
             let sent (part : list byte) :=
               if String.eqb (method g) "HEAD" then Empty else Bytes part in
             match negotiated g with
             | Whole => Some (inr {| status := 200; content := sent bytes |})
             | NotModified => Some (inr {| status := 304; content := Empty |})
             | Partial first last =>
                 Some (inr {| status := 206;
                              content :=
                                sent (take (Z.to_nat (last - first + 1))
                                           (drop (Z.to_nat first) bytes)) |})
             | Refused message => Some (inl message)
             end
         | Some Directory =>
             Some (inr {| status := 301;
                          content := Redirect ("/images" +:+ ("/" +:+ F) +:+ "/") |})
         | None => None
         end.
Proof.
  intros Hm HF. pose proof (plain_segment_inv F HF) as (Hs & Hne & _).
  unfold express_static.
  apply array_includes_In in Hm. rewrite Hm.
  change (negb true) with false.
  change (String.eqb ("/" +:+ F) "") with false.
  cbv iota.
  rewrite (normalize_relative F HF).
  rewrite (split_no_sep _ F Hs).
  rewrite (join_child F HF), (normalize_child F HF).
  assert (Path.last_is_slash ("/" +:+ F) = false) as ->.
  { rewrite last_is_slash_app by done. by apply last_is_slash_has. }
  done.
Qed.

Lemma dotfile_ignored_single (F : string) :
  starts_with_dot F = false -> dotfile_ignored [F] = false.
Proof.
  intros H. unfold dotfile_ignored, containsDotFile. simpl.
  rewrite H. by rewrite andb_false_r.
Qed.

Lemma app_static env (g : request) (path : string) (d : gmap string entry) :
  method g <> "OPTIONS" -> route g = Static path ->
  app env g d
  = match express_static imagesDir g path d with
    | Some (inr r) => {| reply := r; disk := d; trace := [] |}
    | Some (inl message) => error_middleware message d
    | None =>
        match payload_in g with
        | JsonBody (Some message) => error_middleware message d
        | _ => respond 404 DefaultPage d []
        end
    end.
Proof.
  intros Hm%String.eqb_neq Hr. unfold app, routes. rewrite Hm, Hr.
  destruct (express_static imagesDir g path d) as [[msg|r]|]; [done..|].
  by destruct (payload_in g) as [|[m|]| |].
Qed.

Lemma app_deleted env (del : request) (F : string) (d : gmap string entry) :
  is_delete del F -> status (reply (app env del d)) = 200 ->
  passes_name_check F
  /\ disk (app env del d) = delete (Path.join [imagesDir; F]) d.
Proof.
  intros Hdel.
  destruct (payload_in del) as [|[m|]|files|um] eqn:Hbody.
  2: { rewrite (app_json_rejected _ _ _ m); [done| | |done].
       - destruct Hdel as [-> _]. done.
       - destruct Hdel as [_ ->]. done. }
  all: rewrite (app_delete _ _ F) by (done || (intros m; by rewrite Hbody));
    unfold delete_route;
    (destruct (checkDomain del) as [[r evs]|] eqn:Hg;
     [ apply checkDomain_status in Hg; simpl; by rewrite Hg |]);
    (destruct (includes ".." F) eqn:H1;
     [unfold delete_handler; by rewrite H1|]);
    (destruct (includes "/" F) eqn:H2;
     [unfold delete_handler; by rewrite H1, H2|]);
    rewrite delete_handler_valid by done; cbv zeta;
    (destruct (includes nul _); [done|]);
    (destruct (fs_unlink_cases d (Path.join [imagesDir; F]))
       as [(code & ->)|(p & b & Hlast & Hp & ->)];
     [ cbn; by destruct (String.eqb code "ENOENT") |]);
    rewrite directories_last in Hlast by done; injection Hlast as <-;
    done.
Qed.

End Reading.

(** C2.  The upload of [.hidden.png] from an allowed origin succeeds (201)
    and returns the name [.hidden-<token>.webp], under which the converted
    bytes are stored; a GET for /images/ followed by that name is answered
    404, because the static middleware ignores names that begin with a
    dot.  The round trip of the claim fails at this input. *)
Lemma dotfile_upload_not_served :
  let up := app Sample.env
              (Sample.post_upload Sample.frontend
                 (Multipart [Sample.image ".hidden.png" "image/png" [x01]]))
              Sample.fresh in
  let F := ".hidden-123e4567-e89b-42d3-a456-426614174000.webp" in
  status (reply up) = 201
  /\ json_field "filename" (reply up) = Some F
  /\ disk up !! (imagesDir +:+ "/" +:+ F) = Some (File [x52; x49; x46; x46])
  /\ reply (app Sample.env (Sample.get_image None F) (disk up))
     = {| status := 404; content := DefaultPage |}.
Proof. vm_compute. auto. Qed.

(** X21.  The round trip for the names that the static middleware serves,
    the token being a canonical UUID string.  After a successful upload
    that returns a filename F which does not begin with a dot and has no
    [..] segment, every GET /images/F that has
    no Range and no conditional header is answered 200 with exactly the
    bytes that the conversion wrote, whatever its origin and its body, and
    changes nothing; with such headers the answer is 304 without content,
    206 with the requested part of those bytes, or 400 where
    [express.static] forwards an error.  After a successful DELETE
    /delete/F, every GET /images/F is answered 404, or 400 when it has a
    JSON body that does not parse. *)
Theorem round_trip_served (env : environment) (req : request)
    (d : gmap string entry) (F : string) :
  Uuid.canonical (uuidv4 env) = true ->
  status (reply (app env req d)) = 201 ->
  json_field "filename" (reply (app env req d)) = Some F ->
  served_name F = true ->
  exists encoded,
    (exists files p,
       payload_in req = Multipart files /\ named files = [p]
       /\ sharp_webp_toFile env (part_data p) (Path.join [imagesDir; F])
          = inr encoded)
    /\ (forall env' g,
          method g = "GET" -> route g = Static ("/" +:+ F) ->
          let stored := disk (app env req d) in
          app env' g stored
          = match negotiated g with
            | Whole =>
                {| reply := {| status := 200; content := Bytes encoded |};
                   disk := stored; trace := [] |}
            | NotModified =>
                {| reply := {| status := 304; content := Empty |};
                   disk := stored; trace := [] |}
            | Partial first last =>
                {| reply :=
                     {| status := 206;
                        content :=
                          Bytes (take (Z.to_nat (last - first + 1))
                                      (drop (Z.to_nat first) encoded)) |};
                   disk := stored; trace := [] |}
            | Refused message =>
                respond 400 (Json [("message", message)]) stored []
            end)
    /\ (forall env' del d',
          is_delete del F -> status (reply (app env' del d')) = 200 ->
          forall env'' g,
            method g = "GET" -> route g = Static ("/" +:+ F) ->
            let remaining := disk (app env' del d') in
            app env'' g remaining
            = match payload_in g with
              | JsonBody (Some message) =>
                  respond 400 (Json [("message", message)]) remaining []
              | _ => respond 404 DefaultPage remaining []
              end).
Proof.
  intros Hu Hcreated Hname Hserved.
  apply app_created in Hcreated
    as (_ & _ & _ & files & p & encoded & Hbody & Hnamed & _ & _ & _ & Hok & Happ).
  rewrite Happ in *. injection Hname as <-.
  set (F := uniqueFilename (part_filename p) (uuidv4 env)) in *.
  pose proof (uniqueFilename_plain (part_filename p) (uuidv4 env)
                (canonical_no_slash _ Hu)) as Hplain. fold F in Hplain.
  apply andb_true_iff in Hserved as [Hdot Hup].
  apply negb_true_iff in Hdot, Hup.
  exists encoded. split; [by exists files, p|]. split.
  - intros env' g Hm Hr stored. subst stored.
    rewrite (app_static _ _ ("/" +:+ F)) by (done || by rewrite Hm).
    rewrite static_lookup, Hup, dotfile_ignored_single
      by (done || (rewrite Hm; by left)).
    cbn [disk respond]. rewrite (join_child F Hplain), lookup_insert_eq.
    rewrite Hm. change (String.eqb "GET" "HEAD") with false. cbv zeta iota.
    by destruct (negotiated g).
  - intros env' del d' Hdel Hstatus env'' g Hm Hr gone. subst gone.
    apply (app_deleted _ _ F) in Hstatus as [_ ->]; [|done].
    rewrite (app_static _ _ ("/" +:+ F)) by (done || by rewrite Hm).
    rewrite static_lookup, Hup, dotfile_ignored_single
      by (done || (rewrite Hm; by left)).
    by rewrite (join_child F Hplain), lookup_delete_eq.
Qed.

Lemma round_trip_served_example :
  app Sample.env
    (Sample.get_image Sample.stranger
       "cat-123e4567-e89b-42d3-a456-426614174000.webp")
    (disk (app Sample.env (Sample.post_upload Sample.frontend Sample.cat)
             Sample.fresh))
  = {| reply := {| status := 200; content := Bytes [x52; x49; x46; x46] |};
       disk := disk (app Sample.env
                       (Sample.post_upload Sample.frontend Sample.cat)
                       Sample.fresh);
       trace := [] |}.
Proof.
  destruct (round_trip_served Sample.env
              (Sample.post_upload Sample.frontend Sample.cat) Sample.fresh
              "cat-123e4567-e89b-42d3-a456-426614174000.webp")
    as (encoded & (files & p & Hbody & Hnamed & Hok) & Hget & _).
  - vm_compute. reflexivity.
  - vm_compute. reflexivity.
  - vm_compute. reflexivity.
  - vm_compute. reflexivity.
  - injection Hok as <-.
    apply (Hget Sample.env
             (Sample.get_image Sample.stranger
                "cat-123e4567-e89b-42d3-a456-426614174000.webp"));
      reflexivity.
Defined.

(** ** The scenario of the specification *)

(** A JPEG named [cat.jpg] uploaded from an allowed origin: 201, the
    filename is [cat-<token>.webp], the url ends in that filename, and the
    converted bytes are stored under it in the image directory. *)
Example upload_of_cat :
  app Sample.env (Sample.post_upload Sample.frontend Sample.cat) Sample.fresh
  = respond 201
      (Json [("message", "Gambar berhasil diunggah dan dikonversi ke WebP.");
             ("filename", "cat-123e4567-e89b-42d3-a456-426614174000.webp");
             ("url", "http://localhost:3000/images/cat-123e4567-e89b-42d3-a456-426614174000.webp")])
      (<["/app/public/images/cat-123e4567-e89b-42d3-a456-426614174000.webp"
         := File [x52; x49; x46; x46]]> Sample.fresh)
      [FsWrite "/app/public/images/cat-123e4567-e89b-42d3-a456-426614174000.webp"].
Proof. reflexivity. Qed.

(** * Further properties of the application *)

(** ** How a request is answered: the cases of the middleware chain *)

Section Cases.
Import JsString.

Lemma gate_decides (req : request) :
  method req = "POST" \/ method req = "DELETE" ->
  (from_allowed_origin req /\ checkDomain req = None)
  \/ (~ from_allowed_origin req
      /\ checkDomain req
         = Some (reply (forbidden req ∅), trace (forbidden req ∅))).
Proof.
  intros Hm. destruct (checkDomain req) as [[r evs]|] eqn:Hg.
  - right. assert (~ from_allowed_origin req) as Hn.
    { intros Ho. by rewrite gate_open in Hg. }
    split; [done|]. by rewrite <- Hg, gate_closed.
  - left. split; [by apply checkDomain_next|done].
Qed.

Lemma delete_handler_cases env (x : string) (d : gmap string entry) :
  let filePath := Path.join [imagesDir; x] in
  (~ passes_name_check x
   /\ delete_handler env x d = respond 400 invalid_name d [])
  \/ (passes_name_check x /\ includes nul filePath = true
      /\ delete_handler env x d
         = respond 400 (Json [("message", fs_invalid_path env filePath)]) d [])
  \/ (passes_name_check x
      /\ (includes nul filePath = false
          /\ fs_unlink d filePath = (Some "ENOENT", d))
      /\ delete_handler env x d = respond 404 not_found d [FsUnlink filePath])
  \/ (passes_name_check x
      /\ (includes nul filePath = false
          /\ exists b, d !! filePath = Some (File b))
      /\ delete_handler env x d
         = respond 200 removed (delete filePath d) [FsUnlink filePath])
  \/ (exists code,
        passes_name_check x
        /\ (includes nul filePath = false /\ code <> "ENOENT"
            /\ fs_unlink d filePath = (Some code, d))
        /\ delete_handler env x d
           = respond 500 removal_failed d
               [FsUnlink filePath;
                ConsoleError "Error saat menghapus file:" code]).
Proof.
  intros filePath.
  destruct (includes ".." x) eqn:H1.
  { left. split; [intros [? _]; congruence|].
    apply delete_handler_invalid. by left. }
  destruct (includes "/" x) eqn:H2.
  { left. split; [intros [_ ?]; congruence|].
    apply delete_handler_invalid. by right. }
  right. assert (passes_name_check x) as Hok by done.
  rewrite delete_handler_valid by done. fold filePath. cbv zeta.
  destruct (includes nul filePath) eqn:Hnul; [by left|]. right.
  destruct (fs_unlink_cases d filePath)
    as [(code & Hcode)|(p & b & Hlast & Hp & Hrm)].
  - rewrite Hcode. cbn [fst snd unlink_callback].
    destruct (String.eqb_spec code "ENOENT") as [->|Hne].
    + left. done.
    + right; right. exists code. done.
  - right; left. unfold filePath in Hlast.
    rewrite directories_last in Hlast by done. injection Hlast as <-.
    rewrite Hrm. split; [done|]. split; [|done]. split; [done|by exists b].
Qed.

Lemma delete_route_cases env (req : request) (x : string)
    (d : gmap string entry) :
  method req = "DELETE" ->
  (~ from_allowed_origin req /\ delete_route env req x d = forbidden req d)
  \/ (from_allowed_origin req
      /\ delete_route env req x d = delete_handler env x d).
Proof.
  intros Hm. unfold delete_route.
  destruct (gate_decides req) as [[Ho ->]|[Hn ->]]; auto.
Qed.

Lemma upload_handler_cases env req (f : uploaded_file) (d : gmap string entry) :
  let unique := uniqueFilename (originalname f) (uuidv4 env) in
  let outputPath := Path.join [imagesDir; unique] in
  (exists message,
     sharp_webp_toFile env (buffer f) outputPath = inl message
     /\ upload_handler env req (Some f) d
        = respond 500
            (Json [("message", processing_failed); ("error", message)])
            d [ConsoleError "Error saat memproses gambar:" message])
  \/ (exists encoded,
        sharp_webp_toFile env (buffer f) outputPath = inr encoded
        /\ upload_handler env req (Some f) d
           = respond 201 (created req unique)
               (<[outputPath := File encoded]> d) [FsWrite outputPath]).
Proof.
  intros unique outputPath. unfold upload_handler.
  fold unique. fold outputPath.
  destruct (sharp_webp_toFile env (buffer f) outputPath) as [m|e].
  - left. by exists m.
  - right. by exists e.
Qed.

Lemma upload_route_cases env (req : request) (d : gmap string entry) :
  method req = "POST" ->
  (~ from_allowed_origin req /\ upload_route env req d = forbidden req d)
  \/ (from_allowed_origin req
      /\ ((exists message,
             upload_single env "image" (payload_in req) = inl message
             /\ upload_route env req d = error_middleware message d)
          \/ (upload_single env "image" (payload_in req) = inr None
              /\ upload_route env req d
                 = respond 400 (Json [("message", no_file)]) d [])
          \/ (exists f,
                upload_single env "image" (payload_in req) = inr (Some f)
                /\ upload_route env req d = upload_handler env req (Some f) d))).
Proof.
  intros Hm. unfold upload_route.
  destruct (gate_decides req) as [[Ho ->]|[Hn ->]]; [by left| |by left].
  right. split; [done|].
  destruct (upload_single env "image" (payload_in req)) as [m|[f|]].
  - left. by exists m.
  - right; right. by exists f.
  - right; left. done.
Qed.

Lemma routes_cases env (req : request) (d : gmap string entry) :
  (is_upload req /\ routes env req d = upload_route env req d)
  \/ (exists x, is_delete req x /\ routes env req d = delete_route env req x d)
  \/ (route req = Root /\ routes env req d = respond 304 Empty d [])
  \/ (route req = Root
      /\ routes env req d
         = respond 200 (if String.eqb (method req) "HEAD" then Empty
                        else Text "Server CDN Sederhana berjalan!") d [])
  \/ (exists message,
        route req = Undecodable message
        /\ routes env req d = respond 400 (Json [("message", message)]) d [])
  \/ (~ is_upload req /\ (forall x, ~ is_delete req x)
      /\ routes env req d = respond 404 DefaultPage d []).
Proof.
  unfold routes, root_handler, is_upload, is_delete.
  destruct (route req) as [| |x|path| |msg] eqn:Hroute.
  - destruct (array_includes ["GET"; "HEAD"] (method req)).
    + destruct (negotiated req);
        [right; right; right; left; done
        |right; right; left; done
        |right; right; right; left; done..].
    + do 5 right. split; [by intros [_ ?]|].
      split; [by intros x [_ ?]|done].
  - destruct (String.eqb_spec (method req) "POST") as [Hm|Hm].
    + left. done.
    + do 5 right. split; [by intros [? _]|].
      split; [by intros x [_ ?]|done].
  - destruct (String.eqb_spec (method req) "DELETE") as [Hm|Hm].
    + right; left. by exists x.
    + do 5 right. split; [by intros [_ ?]|].
      split; [by intros x' [? _]|done].
  - do 5 right. split; [by intros [_ ?]|].
    split; [by intros x [_ ?]|done].
  - do 5 right. split; [by intros [_ ?]|].
    split; [by intros x [_ ?]|done].
  - do 4 right. left. by exists msg.
Qed.

Lemma app_cases env (req : request) (d : gmap string entry) :
  (method req = "OPTIONS" /\ app env req d = respond 204 Empty d [])
  \/ (exists path r,
        route req = Static path
        /\ express_static imagesDir req path d = Some (inr r)
        /\ app env req d = {| reply := r; disk := d; trace := [] |})
  \/ (exists path message,
        route req = Static path
        /\ express_static imagesDir req path d = Some (inl message)
        /\ app env req d = respond 400 (Json [("message", message)]) d [])
  \/ (exists message,
        payload_in req = JsonBody (Some message)
        /\ app env req d = error_middleware message d)
  \/ (body_parsed req /\ is_upload req
      /\ app env req d = upload_route env req d)
  \/ (exists x, body_parsed req /\ is_delete req x
                /\ app env req d = delete_route env req x d)
  \/ (route req = Root /\ app env req d = respond 304 Empty d [])
  \/ (route req = Root
      /\ app env req d
         = respond 200 (if String.eqb (method req) "HEAD" then Empty
                        else Text "Server CDN Sederhana berjalan!") d [])
  \/ (exists message,
        body_parsed req /\ route req = Undecodable message
        /\ app env req d = respond 400 (Json [("message", message)]) d [])
  \/ (~ is_upload req /\ (forall x, ~ is_delete req x)
      /\ app env req d = respond 404 DefaultPage d []).
Proof.
  unfold app.
  destruct (String.eqb (method req) "OPTIONS") eqn:Hopt.
  { left. by apply String.eqb_eq in Hopt. }
  right.
  destruct (match route req with Static path => _ | _ => None end)
    as [[msg|r]|] eqn:Hserved.
  { right; left. destruct (route req) as [| | |path| |]; try done.
    by exists path, msg. }
  { left. destruct (route req) as [| | |path| |]; try done. by exists path, r. }
  right; right.
  destruct (payload_in req) as [|[m|]|files|um] eqn:E.
  2: { left. by exists m. }
  all: right;
    assert (body_parsed req) as Hb by (intros m; by rewrite E);
    destruct (routes_cases env req d)
      as [[? ?]|[(x & ? & ?)|[[? ?]|[[? ?]|[(msg & ? & ?)|(? & ? & ?)]]]]];
    [ left; done
    | right; left; by exists x
    | right; right; left; done
    | right; right; right; left; done
    | right; right; right; right; left; by exists msg
    | right; right; right; right; right; done ].
Qed.

End Cases.

(** The tree of cases of [app]: in each branch the goal speaks of the
    answer that the branch gives. *)
Ltac app_tree env req d :=
  destruct (app_cases env req d)
    as [[Hopt Happ]
       |[(path & r & Hroute & Hstatic & Happ)
       |[(path & message & Hroute & Hstatic & Happ)
       |[(message & Hjson & Happ)
       |[(Hparsed & Hup & Happ)
       |[(x & Hparsed & Hdel & Happ)
       |[[Hroot Happ]
       |[[Hroot Happ]
       |[(message & Hparsed & Hroute & Happ)
       |(Hnu & Hnd & Happ)]]]]]]]]];
  [ | | |
  | destruct (upload_route_cases env req d (proj1 Hup))
      as [[Hdenied Hr]
         |[Hallowed [(message & Hmulter & Hr)
                    |[[Hmulter Hr]
                    |(f & Hmulter & Hr)]]]];
    [ | |
    | let Hc := fresh "Hc" in
      pose proof (upload_handler_cases env req f d) as Hc; cbv zeta in Hc;
      destruct Hc as [(message & Hsharp & Hh)|(encoded & Hsharp & Hh)];
      rewrite Hh in Hr ];
    rewrite Hr in Happ
  | destruct (delete_route_cases env req x d (proj1 Hdel))
      as [[Hdenied Hr]|[Hallowed Hr]];
    [ | let Hc := fresh "Hc" in
        pose proof (delete_handler_cases env x d) as Hc; cbv zeta in Hc;
        destruct Hc as [[Hname Hh]
                       |[(Hname & Hlook & Hh)
                       |[(Hname & Hlook & Hh)
                       |[(Hname & Hlook & Hh)
                       |(code & Hname & Hlook & Hh)]]]];
        rewrite Hh in Hr ];
    rewrite Hr in Happ
  | | | | ];
  rewrite Happ.

(** The statuses with which the static middleware answers. *)
Ltac static_statuses H :=
  apply express_static_status in H; cbn [In] in H;
  destruct H as [H|[H|[H|[H|[]]]]].

(** ** [checkDomain] *)

(** X1.  [checkDomain] calls [next()] exactly when the method is none of
    POST, DELETE, PUT and PATCH, or the declared origin is an entry of the
    allow-list; in every other case it answers 403.  An empty Origin header
    counts as absent. *)
Theorem checkDomain_next_iff (req : request) :
  (checkDomain req = None
   <-> ~ In (method req) ["POST"; "DELETE"; "PUT"; "PATCH"]
       \/ from_allowed_origin req)
  /\ (forall r evs, checkDomain req = Some (r, evs) ->
        status r = 403 /\ evs = trace (forbidden req ∅))
  /\ (origin req = Some "" -> ~ from_allowed_origin req).
Proof.
  split; [|split].
  - split.
    + unfold checkDomain.
      destruct (JsString.array_includes _ (method req)) eqn:Hm.
      * destruct (truthy _ && _) eqn:E; [|done]. intros _. right.
        apply andb_true_iff in E as [Ht Hin]. unfold from_allowed_origin.
        destruct (origin req) as [o|]; [|done].
        exists o. split; [done|]. by apply array_includes_In.
      * intros _. left. intros Hin%array_includes_In. congruence.
    + intros [Hm|Ho]; [|by apply gate_open].
      unfold checkDomain.
      destruct (JsString.array_includes _ (method req)) eqn:E; [|done].
      by apply array_includes_In in E.
  - intros r evs. unfold checkDomain.
    destruct (JsString.array_includes _ (method req)); [|done].
    destruct (truthy _ && _); [done|]. by intros [= <- <-].
  - intros Ho (o & Ho' & Hin). rewrite Ho in Ho'. injection Ho' as <-.
    simpl in Hin. destruct Hin as [?|[?|[]]]; done.
Qed.

(** ** Which requests the gate stops *)

(** X2.  The application answers 403 only to a POST /upload or a
    DELETE /delete/:filename whose origin is not on the allow-list, and
    then does nothing but log the refusal.  PUT and PATCH, which
    [checkDomain] also lists, never reach it: no route uses them. *)
Theorem forbidden_only_on_gated_routes (env : environment) (req : request)
    (d : gmap string entry) :
  status (reply (app env req d)) = 403 ->
  (is_upload req \/ exists x, is_delete req x)
  /\ ~ from_allowed_origin req
  /\ app env req d = forbidden req d.
Proof.
  intros Hst. revert Hst. app_tree env req d; try (cbn; discriminate).
  - static_statuses Hstatic; cbn; rewrite <- Hstatic; discriminate.
  - intros _. split; [by left|done].
  - intros _. split; [right; by exists x|done].
Qed.

Lemma forbidden_only_on_gated_routes_witness :
  is_upload (Sample.post_upload Sample.stranger Sample.cat)
  \/ exists x, is_delete (Sample.post_upload Sample.stranger Sample.cat) x.
Proof.
  apply (forbidden_only_on_gated_routes Sample.env
           (Sample.post_upload Sample.stranger Sample.cat) Sample.fresh).
  vm_compute. reflexivity.
Defined.



(** ** The store *)



(** X5.  Every answer of the application carries one of the statuses 200,
    201, 204, 206, 301, 304, 400, 403, 404 and 500. *)
Theorem answers_known_statuses (env : environment) (req : request)
    (d : gmap string entry) :
  In (status (reply (app env req d))) statuses.
Proof.
  unfold statuses. app_tree env req d; cbn; auto 13.
  static_statuses Hstatic; rewrite <- Hstatic; auto 13.
Qed.



(** ** The JSON body parser *)

(** X7.  [express.json()] stands in front of every route: a request whose
    method is none of OPTIONS, GET and HEAD and whose JSON body does not
    parse is answered 400 with the parser's message by the error-handling
    middleware, whatever its route and origin, also where no route would
    match; the store is left as it was and nothing is logged. *)
Theorem json_rejected_before_routes (env : environment) (req : request)
    (d : gmap string entry) (message : string) :
  payload_in req = JsonBody (Some message) ->
  ~ In (method req) ["OPTIONS"; "GET"; "HEAD"] ->
  app env req d = respond 400 (Json [("message", message)]) d [].
Proof.
  intros Hbody Hm. unfold app. rewrite Hbody.
  destruct (String.eqb_spec (method req) "OPTIONS") as [E|_].
  { destruct Hm. rewrite E. by left. }
  assert (JsString.array_includes ["GET"; "HEAD"] (method req) = false) as Hget.
  { apply not_true_is_false. intros H%array_includes_In.
    apply Hm. by right. }
  destruct (route req); try done.
  unfold express_static. by rewrite Hget.
Qed.

Lemma json_rejected_before_routes_witness :
  app Sample.env
    {| method := "PUT"; route := Unrouted; origin := None;
       protocol := "http"; host := None;
       payload_in := JsonBody (Some "Unexpected end of JSON input");
       negotiated := Whole |}
    Sample.fresh
  = respond 400 (Json [("message", "Unexpected end of JSON input")])
      Sample.fresh [].
Proof.
  apply json_rejected_before_routes.
  - reflexivity.
  - simpl. intros [H|[H|[H|[]]]]; discriminate H.
Defined.

(** ** Start-up and the store directory *)

Section Store.
Import JsString.

Lemma child_not_store (x : string) : imagesDir +:+ "/" +:+ x <> imagesDir.
Proof.
  intros E. apply (f_equal String.length) in E.
  rewrite !str_app_length in E. simpl in E. lia.
Qed.

Lemma generated_path env (o : string) :
  Uuid.canonical (uuidv4 env) = true ->
  plain_segment (uniqueFilename o (uuidv4 env)) = true
  /\ Path.join [imagesDir; uniqueFilename o (uuidv4 env)]
     = imagesDir +:+ "/" +:+ uniqueFilename o (uuidv4 env).
Proof.
  intros Hu.
  pose proof (uniqueFilename_plain o (uuidv4 env) (canonical_no_slash _ Hu)).
  split; [done|]. by apply join_child.
Qed.

Lemma valid_name_inside (x : string) :
  passes_name_check x -> inside_store (Path.join [imagesDir; x]).
Proof.
  intros [E|[Hplain E]]%join_valid_name; rewrite E; [by left|].
  right. by exists x.
Qed.

Lemma app_keeps_directory env req d :
  Uuid.canonical (uuidv4 env) = true ->
  d !! imagesDir = Some Directory ->
  disk (app env req d) !! imagesDir = Some Directory.
Proof.
  intros Hu Hd. app_tree env req d; try (cbn; done).
  - cbn. destruct (generated_path env (originalname f) Hu) as [_ ->].
    rewrite lookup_insert_ne; [done|]. apply child_not_store.
  - cbn. destruct Hlook as [_ [b Hb]]. rewrite lookup_delete_ne; [done|].
    intros E. rewrite E in Hb. congruence.
Qed.

Lemma store_in_directories : imagesDir ∈ directories imagesDir.
Proof.
  rewrite directories_store.
  apply elem_of_cons. right. apply elem_of_cons. right.
  apply elem_of_cons. by left.
Qed.

Lemma startup_store (d : gmap string entry) :
  (forall b, d !! imagesDir <> Some (File b)) ->
  startup d !! imagesDir = Some Directory.
Proof.
  intros Hd. rewrite startup_lookup.
  destruct (d !! imagesDir) as [[b|]|] eqn:E; [by destruct (Hd b)|done|].
  destruct (decide (imagesDir ∈ directories imagesDir)) as [|Hn]; [done|].
  destruct Hn. apply store_in_directories.
Qed.

End Store.

(** X8.  For a start-up that runs through (no regular file is in the way
    of the directories it has to make).  When nothing is at the path of
    the image directory, start-up makes that directory and the directories
    above it that are missing ([public], and the directory of
    [server.js]), so that all of them are there afterwards; it leaves
    every entry that exists as it is and changes no path besides those
    directories.  When an entry is at the path of the image directory,
    start-up changes nothing.  Running it again changes nothing. *)
Theorem startup_creates_directory_once (d : gmap string entry) :
  startup_succeeds d ->
  startup (startup d) = startup d
  /\ directories imagesDir = ["/app"; "/app/public"; "/app/public/images"]
  /\ (forall p e, d !! p = Some e -> startup d !! p = Some e)
  /\ (forall p, ~ In p (directories imagesDir) -> startup d !! p = d !! p)
  /\ (d !! imagesDir = None ->
        (forall p, In p (directories imagesDir) ->
                   startup d !! p = Some Directory)
        /\ store_present (startup d))
  /\ (is_Some (d !! imagesDir) -> startup d = d).
Proof.
  intros Hruns.
  assert (d !! imagesDir = None ->
          forall p, In p (directories imagesDir) ->
                    startup d !! p = Some Directory) as Hmade.
  { intros Hnone p Hp. apply list_elem_of_In in Hp as Hp'.
    rewrite startup_lookup, Hnone.
    destruct (d !! p) as [[b|]|] eqn:E; [by destruct (Hruns Hnone p b)|done|].
    destruct (decide (p ∈ directories imagesDir)); done. }
  split; [|split; [done|split; [|split; [|split]]]].
  - unfold startup at 1.
    destruct (startup d !! imagesDir) as [e|] eqn:E; [done|].
    rewrite startup_lookup in E.
    destruct (d !! imagesDir); [done|].
    destruct (decide (imagesDir ∈ directories imagesDir)) as [|Hn]; [done|].
    destruct Hn. apply store_in_directories.
  - intros p e Hp. by rewrite startup_lookup, Hp.
  - intros p Hp. rewrite startup_lookup.
    destruct (d !! p); [done|]. destruct (d !! imagesDir); [done|].
    destruct (decide (p ∈ directories imagesDir)) as [Hin|]; [|done].
    destruct Hp. by apply list_elem_of_In.
  - intros Hnone. split; [by apply Hmade|].
    unfold store_present. apply Forall_forall. intros p Hp.
    apply Hmade; [done|]. by apply list_elem_of_In.
  - intros [e He]. unfold startup. by rewrite He.
Qed.

Lemma startup_creates_directory_once_witness :
  startup ∅ !! "/app/public" = Some Directory
  /\ startup ∅ !! "/app/public/images" = Some Directory.
Proof.
  destruct (startup_creates_directory_once ∅) as (_ & _ & _ & _ & H & _).
  - intros _ p b _ Hp. rewrite lookup_empty in Hp. discriminate Hp.
  - destruct (H (lookup_empty _)) as [Hmade _].
    split; apply Hmade; simpl; auto.
Defined.

(** X9.  Once start-up has made the image directory, no sequence of
    requests removes it or replaces it: every upload writes one level below
    it, and a DELETE whose name resolves to the directory itself fails. *)
Theorem store_directory_kept (reqs : list (environment * request))
    (d : gmap string entry) :
  canonical_tokens reqs ->
  (forall b, d !! imagesDir <> Some (File b)) ->
  run reqs (startup d) !! imagesDir = Some Directory.
Proof.
  intros Hreqs Hd.
  assert (startup d !! imagesDir = Some Directory) as Hs
    by (by apply startup_store).
  revert Hs. generalize (startup d). clear d Hd.
  induction Hreqs as [|[env req] reqs Hu _ IH]; intros d Hd; [done|].
  simpl. apply IH. by apply app_keeps_directory.
Qed.

Lemma store_directory_kept_witness :
  run [(Sample.env, Sample.post_upload Sample.frontend Sample.cat);
       (Sample.env, Sample.delete_file Sample.frontend ".")] (startup ∅)
  !! imagesDir = Some Directory.
Proof.
  apply store_directory_kept.
  - repeat constructor.
  - intros b H. rewrite lookup_empty in H. discriminate H.
Defined.

(** X10.  Every file system call that a request causes is made on the image
    directory or on an entry directly inside it, given that the token is a
    canonical UUID string: the write of an upload goes to the generated
    name, and a DELETE reaches the file system only with a name that is one
    path segment. *)
Theorem file_system_calls_inside_store (env : environment) (req : request)
    (d : gmap string entry) (e : event) (p : string) :
  Uuid.canonical (uuidv4 env) = true ->
  In e (trace (app env req d)) -> touched e = Some p -> inside_store p.
Proof.
  intros Hu. app_tree env req d; cbn [trace respond forbidden error_middleware];
    intros Hin Ht; repeat (destruct Hin as [<-|Hin]); try done;
    try (injection Ht as <-).
  - destruct (generated_path env (originalname f) Hu) as [Hplain ->].
    right. by eexists.
  - by apply valid_name_inside.
  - by apply valid_name_inside.
  - by apply valid_name_inside.
Qed.

Lemma file_system_calls_inside_store_witness :
  inside_store
    "/app/public/images/cat-123e4567-e89b-42d3-a456-426614174000.webp".
Proof.
  apply (file_system_calls_inside_store Sample.env
           (Sample.post_upload Sample.frontend Sample.cat) Sample.fresh
           (FsWrite "/app/public/images/cat-123e4567-e89b-42d3-a456-426614174000.webp")).
  - vm_compute. reflexivity.
  - vm_compute. left. reflexivity.
  - reflexivity.
Defined.



(** X12.  Upload, then delete (the token being a canonical UUID string):
    when an upload is answered 201 with the name F while the image
    directory is there, nothing was stored under F before, and F has no
    two consecutive dots, no NUL character and no more than 255 bytes, a
    DELETE for F from an allowed origin is answered 200 and the store is
    again what it was before the upload; unless the DELETE has a JSON body
    that does not parse: it is then answered 400, and the file stays. *)
Theorem upload_then_delete_restores (env env' : environment)
    (req del : request) (d : gmap string entry) (F : string) :
  Uuid.canonical (uuidv4 env) = true ->
  status (reply (app env req d)) = 201 ->
  json_field "filename" (reply (app env req d)) = Some F ->
  d !! Path.join [imagesDir; F] = None ->
  store_present d ->
  JsString.includes ".." F = false -> storable F ->
  is_delete del F -> from_allowed_origin del ->
  let stored := disk (app env req d) in
  (body_parsed del ->
     app env' del stored
     = respond 200 removed d [FsUnlink (Path.join [imagesDir; F])])
  /\ (forall message,
        payload_in del = JsonBody (Some message) ->
        app env' del stored
        = respond 400 (Json [("message", message)]) stored []).
Proof.
  intros Hu Hcreated Hname Hfree Hd Hdots [Hnul Hlen] Hdel Hallowed stored.
  apply app_created in Hcreated
    as (_ & _ & _ & files & p & bytes & _ & _ & _ & _ & _ & _ & Hup).
  subst stored. rewrite Hup in *. injection Hname as <-.
  set (F := uniqueFilename (part_filename p) (uuidv4 env)) in *.
  cbn [disk respond]. split.
  - intros Hparsed.
    rewrite (app_delete _ _ F) by done.
    destruct (delete_route_cases env' del F
                (<[Path.join [imagesDir; F] := File bytes]> d) (proj1 Hdel))
      as [[Hdenied _]|[_ ->]]; [done|].
    assert (passes_name_check F) as Hcheck.
    { split; [done|]. rewrite includes_slash.
      apply uniqueFilename_no_slash. by apply canonical_no_slash. }
    rewrite delete_handler_store; [|done|].
    + cbv zeta. rewrite Hnul.
      apply Z.ltb_ge in Hlen. rewrite Hlen.
      by rewrite lookup_insert_eq, delete_insert_id.
    + unfold store_present in *. eapply Forall_impl; [exact Hd|].
      intros q Hq. cbn in Hq |- *.
      rewrite lookup_insert_ne; [done|congruence].
  - intros message Hbody. apply app_json_rejected; [| |done].
    + destruct Hdel as [-> _]. done.
    + destruct Hdel as [_ ->]. done.
Qed.

Lemma upload_then_delete_restores_witness :
  app Sample.env
    (Sample.delete_file Sample.frontend
       "cat-123e4567-e89b-42d3-a456-426614174000.webp")
    (disk (app Sample.env (Sample.post_upload Sample.frontend Sample.cat)
             Sample.fresh))
  = respond 200 removed Sample.fresh
      [FsUnlink (Path.join
         [imagesDir; "cat-123e4567-e89b-42d3-a456-426614174000.webp"])].
Proof.
  refine (proj1 (upload_then_delete_restores Sample.env Sample.env
            (Sample.post_upload Sample.frontend Sample.cat)
            (Sample.delete_file Sample.frontend
               "cat-123e4567-e89b-42d3-a456-426614174000.webp")
            Sample.fresh "cat-123e4567-e89b-42d3-a456-426614174000.webp"
            _ _ _ _ _ _ _ _ _) _).
  - vm_compute. reflexivity.
  - vm_compute. reflexivity.
  - vm_compute. reflexivity.
  - vm_compute. reflexivity.
  - repeat constructor.
  - vm_compute. reflexivity.
  - split; [reflexivity|]. vm_compute. discriminate.
  - split; reflexivity.
  - exists "http://localhost:5500". split; [reflexivity|]. simpl. auto.
  - intros m. discriminate.
Defined.

(** ** multer *)

Section Fields.
Import JsString.

Lemma named_head (files : list file_part) (p : file_part) rest :
  named files = p :: rest -> String.eqb (part_filename p) "" = false.
Proof.
  intros Hn. assert (In p (named files)) as Hin by (rewrite Hn; by left).
  unfold named in Hin. apply filter_In in Hin as [_ Hin].
  by apply negb_true_iff in Hin.
Qed.

Lemma named_second (files : list file_part) (p q : file_part) rest :
  named files = p :: q :: rest -> String.eqb (part_filename q) "" = false.
Proof.
  intros Hn.
  assert (In q (named files)) as Hin by (rewrite Hn; right; by left).
  unfold named in Hin. apply filter_In in Hin as [_ Hin].
  by apply negb_true_iff in Hin.
Qed.

Lemma named_idem (files : list file_part) : named (named files) = named files.
Proof.
  unfold named. induction files as [|p files IH]; [done|].
  simpl. destruct (negb (String.eqb (part_filename p) "")) eqn:E; [|done].
  simpl. by rewrite E, IH.
Qed.

End Fields.

(** X13.  [upload.single('image')] takes one file, in the field [image]: an
    upload past the gate whose first file arrives in another field is
    answered 400 with the message that the installed multer gives its
    error for an unexpected file, and so is an upload that carries a
    second file after one that was accepted; the store is left as it was
    in both cases. *)
Theorem unexpected_field (env : environment) (req : request)
    (d : gmap string entry) (files : list file_part) :
  is_upload req -> from_allowed_origin req ->
  payload_in req = Multipart files ->
  (forall p rest,
     named files = p :: rest -> part_field p <> "image" ->
     app env req d
     = respond 400 (Json [("message", multer_unexpected_file env)]) d [])
  /\ (forall p q rest,
        named files = p :: q :: rest -> part_field p = "image" ->
        In (part_type p) allowedMimes ->
        Z.of_nat (length (part_data p)) <= fileSize ->
        app env req d
        = respond 400 (Json [("message", multer_unexpected_file env)]) d []).
Proof.
  intros Hup Hallowed Hbody.
  rewrite app_upload_past_gate by eauto using multipart_parsed.
  rewrite Hbody. unfold upload_single. rewrite multer_files_named.
  split.
  - intros p rest Hn Hfield. rewrite Hn. cbn [multer_files].
    rewrite (named_head _ _ _ Hn).
    apply String.eqb_neq in Hfield. by rewrite Hfield.
  - intros p q rest Hn Hfield Htype Hsize. rewrite Hn. cbn [multer_files].
    rewrite (named_head _ _ _ Hn), (named_second _ _ _ _ Hn), Hfield.
    change (String.eqb "image" "image") with true. cbv iota.
    destruct (fileFilter_cases p) as [[_ ->]|[Hno _]]; [|done].
    rewrite (memoryStorage_fits p Hsize).
    by destruct (String.eqb (part_field q) "image").
Qed.

Lemma unexpected_field_witness :
  app Sample.env
    (Sample.post_upload Sample.frontend
       (Multipart [{| part_field := "file"; part_filename := "cat.jpg";
                      part_type := "image/jpeg"; part_data := [x01] |}]))
    Sample.fresh
  = respond 400 (Json [("message", multer_unexpected_file Sample.env)])
      Sample.fresh [].
Proof.
  destruct (unexpected_field Sample.env
              (Sample.post_upload Sample.frontend
                 (Multipart [{| part_field := "file"; part_filename := "cat.jpg";
                                part_type := "image/jpeg";
                                part_data := [x01] |}]))
              Sample.fresh
              [{| part_field := "file"; part_filename := "cat.jpg";
                  part_type := "image/jpeg"; part_data := [x01] |}])
    as [H _].
  - split; reflexivity.
  - exists "http://localhost:5500". split; [reflexivity|]. simpl. auto.
  - reflexivity.
  - eapply H; [reflexivity|]. simpl. discriminate.
Defined.

(** X14.  File parts with an empty file name (what a browser sends for a
    file input that was left empty) have no effect: multer drains them
    before it counts or filters, and the application answers a request as
    it answers the same request with those parts taken out of the body. *)
Theorem unnamed_parts_ignored (env : environment) (req : request)
    (d : gmap string entry) (files : list file_part) :
  payload_in req = Multipart files ->
  app env (with_payload (Multipart (named files)) req) d = app env req d.
Proof.
  intros Hbody. unfold app, routes, upload_route, delete_route.
  cbn [with_payload method route payload_in]. rewrite Hbody.
  change (checkDomain (with_payload (Multipart (named files)) req))
    with (checkDomain req).
  destruct (String.eqb (method req) "OPTIONS"); [done|].
  destruct (route req) as [| |x|path| |msg]; try done.
  destruct (String.eqb (method req) "POST"); [|done].
  destruct (checkDomain req) as [[r evs]|]; [done|].
  unfold upload_single.
  rewrite (multer_files_named _ _ _ _ files),
          (multer_files_named _ _ _ _ (named files)).
  rewrite named_idem.
  destruct (multer_files env "image" 1 None (named files)) as [m|[f|]]; done.
Qed.

Lemma unnamed_parts_ignored_witness :
  app Sample.env
    (with_payload
       (Multipart (named [Sample.image "" "application/octet-stream" [];
                          Sample.image "cat.jpg" "image/jpeg" [x01; x02]]))
       (Sample.post_upload Sample.frontend
          (Multipart [Sample.image "" "application/octet-stream" [];
                      Sample.image "cat.jpg" "image/jpeg" [x01; x02]])))
    Sample.fresh
  = app Sample.env
      (Sample.post_upload Sample.frontend
         (Multipart [Sample.image "" "application/octet-stream" [];
                     Sample.image "cat.jpg" "image/jpeg" [x01; x02]]))
      Sample.fresh.
Proof.
  apply unnamed_parts_ignored. reflexivity.
Defined.

(** ** What a run leaves in the store *)

Section Runs.
Import JsString.

Lemma app_adds_only_webp env req d (p : string) (e : entry) :
  Uuid.canonical (uuidv4 env) = true ->
  disk (app env req d) !! p = Some e ->
  d !! p = Some e
  \/ exists F b, e = File b /\ plain_segment F = true
                 /\ endsWith ".webp" F = true
                 /\ p = imagesDir +:+ "/" +:+ F.
Proof.
  intros Hu. app_tree env req d; cbn [disk respond forbidden error_middleware];
    try (by left).
  - destruct (generated_path env (originalname f) Hu) as [Hplain ->].
    destruct (decide (p = imagesDir +:+ "/"
                          +:+ uniqueFilename (originalname f) (uuidv4 env)))
      as [->|Hne].
    + rewrite lookup_insert_eq. intros [= <-]. right.
      eexists _, encoded. split; [done|]. split; [done|]. split; [|done].
      unfold uniqueFilename. by rewrite <- !str_app_assoc, endsWith_app.
    + rewrite lookup_insert_ne by done. by left.
  - intros Hp. left. by apply lookup_delete_Some in Hp as [_ ?].
Qed.

End Runs.

(** X15.  Whatever requests are handled, every entry found in the store
    afterwards was there before with the same content, or is a file directly
    inside the image directory whose name ends in [.webp]: the server never
    creates a directory, a file elsewhere, or a file under another
    extension. *)
Theorem run_adds_only_webp (reqs : list (environment * request))
    (d : gmap string entry) (p : string) (e : entry) :
  canonical_tokens reqs ->
  run reqs d !! p = Some e ->
  d !! p = Some e
  \/ exists F b, e = File b /\ plain_segment F = true
                 /\ JsString.endsWith ".webp" F = true
                 /\ p = imagesDir +:+ "/" +:+ F.
Proof.
  intros Hreqs. revert d.
  induction Hreqs as [|[env req] reqs Hu _ IH]; intros d Hp; [by left|].
  simpl in Hp. apply IH in Hp as [Hp|Hp]; [|by right].
  by apply (app_adds_only_webp env req d).
Qed.

Lemma run_adds_only_webp_witness :
  Sample.fresh
    !! "/app/public/images/cat-123e4567-e89b-42d3-a456-426614174000.webp"
  = Some (File [x52; x49; x46; x46])
  \/ exists F b, File [x52; x49; x46; x46] = File b
                 /\ plain_segment F = true
                 /\ JsString.endsWith ".webp" F = true
                 /\ "/app/public/images/cat-123e4567-e89b-42d3-a456-426614174000.webp"
                    = imagesDir +:+ "/" +:+ F.
Proof.
  apply (run_adds_only_webp
           [(Sample.env, Sample.post_upload Sample.frontend Sample.cat)]).
  - repeat constructor.
  - vm_compute. reflexivity.
Defined.

(** ** Reading through [express.static] *)

Section Dotfiles.
Import JsString.

Lemma dotfile_lookup (g : request) (F : string) (d : gmap string entry) :
  plain_segment F = true -> starts_with_dot F = true ->
  express_static imagesDir g ("/" +:+ F) d = None.
Proof.
  intros HF Hdot. pose proof (plain_segment_inv F HF) as (Hs & Hne & Hd & _).
  unfold express_static.
  destruct (negb (array_includes ["GET"; "HEAD"] (method g))); [done|].
  change (String.eqb ("/" +:+ F) "") with false. cbv iota.
  rewrite (normalize_relative F HF).
  destruct (up_path F); [done|].
  rewrite (split_no_sep _ F Hs).
  assert (dotfile_ignored [F] = true) as ->; [|done].
  unfold dotfile_ignored, containsDotFile. cbn [existsb List.last].
  rewrite Hdot, orb_false_r, !andb_true_r.
  destruct F as [|c [|c' F]]; [done| |].
  - unfold starts_with_dot in Hdot. cbn [startsWith] in Hdot.
    rewrite andb_true_r in Hdot. apply Ascii.eqb_eq in Hdot. by subst c.
  - apply Z.ltb_lt. cbn [String.length]. lia.
Qed.

End Dotfiles.

(** X16.  An upload whose original name has a base label that begins with a
    dot is stored under a name that begins with a dot (the token being a
    canonical UUID string), and no request under /images ever reads that
    file: the static middleware passes every request for such a name on,
    and the application answers 404, or 400 when the request has a JSON
    body that does not parse, or 204 when it is an OPTIONS request. *)
Theorem dot_label_never_served (env : environment) (o : string) :
  Uuid.canonical (uuidv4 env) = true ->
  starts_with_dot (Path.name (Path.parse o)) = true ->
  let F := uniqueFilename o (uuidv4 env) in
  starts_with_dot F = true
  /\ forall env' g d,
       route g = Static ("/" +:+ F) ->
       express_static imagesDir g ("/" +:+ F) d = None
       /\ app env' g d
          = if String.eqb (method g) "OPTIONS" then respond 204 Empty d []
            else match payload_in g with
                 | JsonBody (Some message) =>
                     respond 400 (Json [("message", message)]) d []
                 | _ => respond 404 DefaultPage d []
                 end.
Proof.
  intros Hu Hdot F.
  assert (starts_with_dot F = true) as HF.
  { unfold F, uniqueFilename, starts_with_dot. by apply startsWith_app. }
  split; [done|]. intros env' g d Hr.
  assert (express_static imagesDir g ("/" +:+ F) d = None) as Hnone.
  { apply dotfile_lookup; [|done].
    by apply uniqueFilename_plain, canonical_no_slash. }
  split; [done|].
  unfold app, routes. rewrite Hr, Hnone.
  destruct (String.eqb (method g) "OPTIONS"); [done|].
  by destruct (payload_in g) as [|[m|]| |].
Qed.

Lemma dot_label_never_served_witness :
  starts_with_dot (uniqueFilename ".hidden.png" (uuidv4 Sample.env)) = true.
Proof.
  apply (dot_label_never_served Sample.env ".hidden.png").
  - vm_compute. reflexivity.
  - vm_compute. reflexivity.
Defined.

(** X17.  HEAD is answered as GET is, without a body: for every request
    the status of the answer to HEAD is the status of the answer to GET,
    a 200 to HEAD carries no content, and neither request changes the
    store or writes to the log. *)
Theorem head_mirrors_get (env : environment) (req : request)
    (d : gmap string entry) :
  method req = "GET" ->
  let get := app env req d in
  let head := app env (with_method "HEAD" req) d in
  status (reply head) = status (reply get)
  /\ (status (reply head) = 200 -> content (reply head) = Empty)
  /\ disk head = d /\ disk get = d
  /\ trace head = [] /\ trace get = [].
Proof.
  intros Hm. cbv zeta. unfold app, routes, root_handler, express_static.
  cbn [with_method method route payload_in negotiated]. rewrite Hm.
  change (String.eqb "GET" "OPTIONS") with false.
  change (String.eqb "HEAD" "OPTIONS") with false.
  change (JsString.array_includes ["GET"; "HEAD"] "GET") with true.
  change (JsString.array_includes ["GET"; "HEAD"] "HEAD") with true.
  change (String.eqb "GET" "POST") with false.
  change (String.eqb "HEAD" "POST") with false.
  change (String.eqb "GET" "DELETE") with false.
  change (String.eqb "HEAD" "DELETE") with false.
  change (String.eqb "GET" "HEAD") with false.
  change (String.eqb "HEAD" "HEAD") with true.
  cbv iota. change (negb true) with false. cbv iota.
  destruct (route req) as [| |x|path| |msg];
    try (by destruct (payload_in req) as [|[m|]| |], (negotiated req)).
  set (path1 := if String.eqb path "" then path
                else Path.normalize ("." +:+ "/" +:+ path)).
  destruct (up_path path1);
    [by destruct (payload_in req) as [|[m|]| |]|].
  destruct (dotfile_ignored (JsString.split Path.is_slash path1));
    [by destruct (payload_in req) as [|[m|]| |]|].
  destruct (if Path.last_is_slash path
            then d !! Path.join [Path.normalize (Path.join [imagesDir; path1]);
                                 "index.html"]
            else d !! Path.normalize (Path.join [imagesDir; path1]))
    as [[b|]|].
  - by destruct (negotiated req).
  - destruct (Path.last_is_slash path); [|done].
    by destruct (payload_in req) as [|[m|]| |].
  - by destruct (payload_in req) as [|[m|]| |].
Qed.

Lemma head_mirrors_get_witness :
  status (reply (app Sample.env
                   (with_method "HEAD" (Sample.get_image None "cat.webp"))
                   Sample.fresh))
  = status (reply (app Sample.env (Sample.get_image None "cat.webp")
                     Sample.fresh)).
Proof.
  apply (head_mirrors_get Sample.env (Sample.get_image None "cat.webp")
           Sample.fresh).
  reflexivity.
Defined.

(** ** The base label of an ordinary file name *)

(** X18.  For an original name of the form [b.e], with no separator in it,
    no dot in [e], and [b] not empty (the name [..] apart), [path.parse]
    gives the name [b] and the extension [.e], so the storage name is [b],
    a hyphen, the token and [.webp]: the extension is replaced, not kept.
    A name with neither dot nor separator is its own base label. *)
Theorem extension_replaced (u : string) :
  (forall b e,
     has Path.is_slash b = false -> has Path.is_slash e = false ->
     has Path.is_dot e = false -> b <> "" -> (b = "." -> e <> "") ->
     Path.parse (b +:+ "." +:+ e)
     = {| Path.root := ""; Path.dir := ""; Path.base := b +:+ "." +:+ e;
          Path.ext := "." +:+ e; Path.name := b |}
     /\ uniqueFilename (b +:+ "." +:+ e) u = b +:+ "-" +:+ u +:+ ".webp")
  /\ (forall o,
        has Path.is_slash o = false -> has Path.is_dot o = false ->
        o <> "" ->
        Path.parse o
        = {| Path.root := ""; Path.dir := ""; Path.base := o;
             Path.ext := ""; Path.name := o |}
        /\ uniqueFilename o u = o +:+ "-" +:+ u +:+ ".webp").
Proof.
  split.
  - intros b e Hbs Hes Hed Hne Hdots.
    assert (Path.parse (b +:+ "." +:+ e)
            = {| Path.root := ""; Path.dir := "";
                 Path.base := b +:+ "." +:+ e;
                 Path.ext := "." +:+ e; Path.name := b |}) as Hparse.
    2: { split; [done|]. unfold uniqueFilename. by rewrite Hparse. }
    destruct b as [|c0 b]; [done|]. clear Hne.
    apply has_false_Forall in Hbs, Hes, Hed.
    change (JsString.chars (String c0 b)) with (c0 :: JsString.chars b) in Hbs.
    destruct (scan_file_name c0 (JsString.chars b) (JsString.chars e) Hbs Hes Hed)
      as (Hpart & Hend & Hdot & Hpre).
    cbv zeta in Hpart, Hend, Hdot, Hpre.
    assert (Path.is_slash c0 = false) as Hc0 by (by inversion Hbs).
    unfold Path.parse. rewrite chars_app.
    change (JsString.chars (String c0 b)) with (c0 :: JsString.chars b).
    change (JsString.chars ("." +:+ e)) with ("."%char :: JsString.chars e).
    set (p := (c0 :: JsString.chars b) ++ "."%char :: JsString.chars e) in *.
    change ((c0 :: JsString.chars b) ++ "."%char :: JsString.chars e) with p.
    assert (exists p', p = c0 :: p') as [p' Hp] by (by eexists).
    rewrite Hp at 1. cbv iota. clear p' Hp. rewrite Hc0.
    change (drop (Z.to_nat 0) p) with p.
    set (st := Path.scan (reverse p) (Z.of_nat (length p) - 1) Path.scan_init)
      in *.
    rewrite Hpart, Hend, Hdot, Hpre.
    assert ((Z.of_nat (length p) =? -1) = false) as -> by (apply Z.eqb_neq; lia).
    change (0 <? 0) with false. change ((0 =? 0) && false) with false.
    cbv iota.
    assert ((Z.of_nat (length (c0 :: JsString.chars b)) =? -1) = false) as ->
      by (apply Z.eqb_neq; lia).
    assert (((if Path.is_dot c0 then 1 else -1) =? 0) = false) as ->
      by (by destruct (Path.is_dot c0)).
    assert ((((if Path.is_dot c0 then 1 else -1) =? 1)
             && (Z.of_nat (length (c0 :: JsString.chars b))
                 =? Z.of_nat (length p) - 1)
             && (Z.of_nat (length (c0 :: JsString.chars b)) =? 0 + 1)) = false)
      as ->.
    { apply not_true_is_false.
      intros [[H1 H2]%andb_true_iff H3]%andb_true_iff.
      apply Z.eqb_eq in H2, H3.
      destruct (Path.is_dot c0) eqn:Hd0; [|done].
      apply Ascii.eqb_eq in Hd0. subst c0.
      assert (length (JsString.chars b) = 0%nat) as Hb0 by (simpl in H3; lia).
      assert (length (JsString.chars e) = 0%nat) as He0.
      { subst p. rewrite length_app in H2. simpl in H2. lia. }
      rewrite chars_length in Hb0, He0.
      destruct b; [|done]. destruct e; [|done]. by apply Hdots. }
    cbn [orb]. cbv iota.
    assert (JsString.slice p 0 (Z.of_nat (length p)) = p) as ->.
    { unfold JsString.slice. cbn [Z.to_nat drop].
      rewrite Z.sub_0_r, Nat2Z.id. apply firstn_all. }
    assert (JsString.slice p (Z.of_nat (length (c0 :: JsString.chars b)))
              (Z.of_nat (length p)) = "."%char :: JsString.chars e) as ->.
    { unfold JsString.slice. rewrite Nat2Z.id. subst p.
      rewrite drop_app_length. apply take_ge.
      rewrite length_app. lia. }
    assert (JsString.slice p 0 (Z.of_nat (length (c0 :: JsString.chars b)))
            = c0 :: JsString.chars b) as ->.
    { unfold JsString.slice. cbn [Z.to_nat drop]. rewrite Z.sub_0_r, Nat2Z.id.
      subst p. apply take_app_length. }
    subst p. rewrite of_chars_app.
    change (JsString.of_chars (c0 :: JsString.chars b))
      with (String c0 (JsString.of_chars (JsString.chars b))).
    change (JsString.of_chars ("."%char :: JsString.chars e))
      with (String "." (JsString.of_chars (JsString.chars e))).
    by rewrite !of_chars_chars.
  - intros o Hs Hd Hne.
    assert (Path.parse o
            = {| Path.root := ""; Path.dir := ""; Path.base := o;
                 Path.ext := ""; Path.name := o |}) as Hparse.
    2: { split; [done|]. unfold uniqueFilename. by rewrite Hparse. }
    destruct o as [|c0 o]; [done|]. clear Hne.
    apply has_false_Forall in Hs, Hd.
    change (JsString.chars (String c0 o)) with (c0 :: JsString.chars o) in Hs, Hd.
    destruct (scan_no_dot c0 (JsString.chars o) Hs Hd) as (Hpart & Hend & Hdot).
    cbv zeta in Hpart, Hend, Hdot.
    assert (Path.is_slash c0 = false) as Hc0 by (by inversion Hs).
    unfold Path.parse.
    change (JsString.chars (String c0 o)) with (c0 :: JsString.chars o).
    cbv iota. rewrite Hc0.
    change (drop (Z.to_nat 0) (c0 :: JsString.chars o))
      with (c0 :: JsString.chars o).
    set (p := c0 :: JsString.chars o) in *.
    set (st := Path.scan (reverse p) (Z.of_nat (length p) - 1) Path.scan_init)
      in *.
    rewrite Hpart, Hend, Hdot.
    assert ((Z.of_nat (length p) =? -1) = false) as -> by (apply Z.eqb_neq; lia).
    change (0 <? 0) with false. change ((0 =? 0) && false) with false.
    change (-1 =? -1) with true. cbn [orb]. cbv iota.
    assert (JsString.slice p 0 (Z.of_nat (length p)) = p) as ->.
    { unfold JsString.slice. cbn [Z.to_nat drop].
      rewrite Z.sub_0_r, Nat2Z.id. apply firstn_all. }
    subst p.
    change (JsString.of_chars (c0 :: JsString.chars o))
      with (String c0 (JsString.of_chars (JsString.chars o))).
    by rewrite of_chars_chars.
Qed.

Lemma extension_replaced_witness :
  uniqueFilename "cat.jpg" Sample.token
  = "cat-123e4567-e89b-42d3-a456-426614174000.webp".
Proof.
  destruct (extension_replaced Sample.token) as [H _].
  apply (H "cat" "jpg"); try reflexivity; discriminate.
Defined.

(** ** Distinct tokens *)

Section Tokens.
Import JsString.

Lemma str_app_inj_suffix (a b s t : string) :
  String.length s = String.length t -> a +:+ s = b +:+ t -> a = b /\ s = t.
Proof.
  intros Hlen E. apply (f_equal chars) in E. rewrite !chars_app in E.
  apply app_inj_2 in E as [E1 E2]; [|by rewrite !chars_length].
  split.
  - by rewrite <- (of_chars_chars a), E1, of_chars_chars.
  - by rewrite <- (of_chars_chars s), E2, of_chars_chars.
Qed.

Lemma uniqueFilename_token (o1 o2 u1 u2 : string) :
  String.length u1 = String.length u2 ->
  uniqueFilename o1 u1 = uniqueFilename o2 u2 -> u1 = u2.
Proof.
  intros Hlen E. unfold uniqueFilename in E.
  rewrite <- !str_app_assoc in E.
  apply str_app_inj_suffix in E as [E _]; [|done].
  by apply str_app_inj_suffix in E as [_ E].
Qed.

Lemma distinct_tokens_paths (o1 o2 u1 u2 : string) :
  Uuid.canonical u1 = true -> Uuid.canonical u2 = true -> u1 <> u2 ->
  Path.join [imagesDir; uniqueFilename o1 u1]
  <> Path.join [imagesDir; uniqueFilename o2 u2].
Proof.
  intros H1 H2 Hne.
  rewrite !join_child by (by apply uniqueFilename_plain, canonical_no_slash).
  intros E. apply Hne. apply (uniqueFilename_token o1 o2).
  { by rewrite !canonical_length. }
  apply (f_equal chars) in E. rewrite !chars_app in E.
  apply app_inv_head in E. apply app_inv_head in E.
  by rewrite <- (of_chars_chars (uniqueFilename o1 u1)), E, of_chars_chars.
Qed.

End Tokens.

(** X19.  Storage names generated with two different tokens differ,
    whatever the original names are, and so do the paths they are stored
    under: with distinct tokens no upload writes over the file of
    another. *)
Theorem distinct_tokens_distinct_names (o1 o2 u1 u2 : string) :
  Uuid.canonical u1 = true -> Uuid.canonical u2 = true -> u1 <> u2 ->
  uniqueFilename o1 u1 <> uniqueFilename o2 u2
  /\ Path.join [imagesDir; uniqueFilename o1 u1]
     <> Path.join [imagesDir; uniqueFilename o2 u2].
Proof.
  intros H1 H2 Hne.
  assert (uniqueFilename o1 u1 <> uniqueFilename o2 u2) as Hnames.
  { intros E. apply Hne. apply (uniqueFilename_token o1 o2); [|done].
    by rewrite !canonical_length. }
  split; [done|]. by apply distinct_tokens_paths.
Qed.

Lemma distinct_tokens_distinct_names_witness :
  uniqueFilename "cat.jpg" "123e4567-e89b-42d3-a456-426614174000"
  <> uniqueFilename "cat.jpg" "123e4567-e89b-42d3-a456-426614174001"
  /\ Path.join [imagesDir;
                uniqueFilename "cat.jpg" "123e4567-e89b-42d3-a456-426614174000"]
     <> Path.join [imagesDir;
                   uniqueFilename "cat.jpg" "123e4567-e89b-42d3-a456-426614174001"].
Proof.
  apply distinct_tokens_distinct_names.
  - vm_compute. reflexivity.
  - vm_compute. reflexivity.
  - discriminate.
Defined.

(** X20.  A file stored by a successful upload stays as it is through every
    later request that is no DELETE and draws another token: later uploads
    write under other names, and nothing else writes to the store. *)
Theorem later_request_keeps_file (env env' : environment)
    (req req' : request) (d : gmap string entry) (F : string) :
  Uuid.canonical (uuidv4 env) = true -> Uuid.canonical (uuidv4 env') = true ->
  uuidv4 env <> uuidv4 env' ->
  status (reply (app env req d)) = 201 ->
  json_field "filename" (reply (app env req d)) = Some F ->
  (forall x, ~ is_delete req' x) ->
  exists b,
    disk (app env req d) !! Path.join [imagesDir; F] = Some (File b)
    /\ disk (app env' req' (disk (app env req d))) !! Path.join [imagesDir; F]
       = Some (File b).
Proof.
  intros Hu Hu' Hne Hcreated Hname Hkeep.
  apply app_created in Hcreated
    as (_ & _ & _ & files & p & stored & _ & _ & _ & _ & _ & _ & Happ).
  rewrite Happ in *. injection Hname as <-. cbn [disk respond].
  set (F := uniqueFilename (part_filename p) (uuidv4 env)) in *.
  set (d1 := <[Path.join [imagesDir; F] := File stored]> d).
  exists stored. split; [by apply lookup_insert_eq|].
  assert (d1 !! Path.join [imagesDir; F] = Some (File stored)) as Hd1
    by apply lookup_insert_eq.
  revert Hd1. generalize d1. clear d1 Happ. intros d1 Hd1.
  app_tree env' req' d1; cbn [disk respond forbidden error_middleware];
    try done; try (by destruct (Hkeep x)).
  rewrite lookup_insert_ne; [done|].
  apply not_eq_sym, distinct_tokens_paths; done.
Qed.

Lemma later_request_keeps_file_witness :
  exists b,
    disk (app Sample.env (Sample.post_upload Sample.frontend Sample.cat)
            Sample.fresh)
    !! Path.join [imagesDir; "cat-123e4567-e89b-42d3-a456-426614174000.webp"]
    = Some (File b)
    /\ disk (app {| uuidv4 := "123e4567-e89b-42d3-a456-426614174001";
                    sharp_webp_toFile := fun _ _ => inr [x00];
                    fs_invalid_path := fs_invalid_path Sample.env;
                    multer_unexpected_file := "Unexpected field" |}
               (Sample.post_upload Sample.frontend Sample.cat)
               (disk (app Sample.env
                        (Sample.post_upload Sample.frontend Sample.cat)
                        Sample.fresh)))
       !! Path.join [imagesDir; "cat-123e4567-e89b-42d3-a456-426614174000.webp"]
       = Some (File b).
Proof.
  apply later_request_keeps_file.
  - vm_compute. reflexivity.
  - vm_compute. reflexivity.
  - simpl. discriminate.
  - vm_compute. reflexivity.
  - vm_compute. reflexivity.
  - intros x [H _]. discriminate H.
Defined.
